(** * Interaction-element finder

    A shallow embedding of [element_finder.py]: the candidate scorer
    ([_is_likely_interaction_element]), the record builder
    ([_create_element_info]), deduplication ([_deduplicate_elements]) and
    the four-strategy discovery ([find_interaction_elements]), over an
    abstract Selenium driver whose every call may raise. *)

From Stdlib Require Import ZArith Lia Ascii String DecimalString.
From Stdlib Require DecimalFacts DecimalNat DecimalPos DecimalZ.
From stdpp Require Import base gmap strings list.

Local Open Scope string_scope.
Local Open Scope list_scope.
Local Open Scope stdpp_scope.

(** ** Python strings

    A Python [str] is modelled as a byte string holding its UTF-8
    encoding.  [lower] folds the letters A to Z and passes every other
    byte through, which is [str.lower()] on text whose cased letters are
    ASCII; where a statement depends on how other letters fold, the
    folding function is a parameter (module [Cased]).  White space is
    the set of [str.isspace()], each character in its encoding. *)

Module PyStr.

Definition lower_ascii (c : ascii) : ascii :=
  let n := nat_of_ascii c in
  if (65 <=? n)%nat && (n <=? 90)%nat then ascii_of_nat (n + 32) else c.

(** [s.lower()] *)
Fixpoint lower (s : string) : string :=
  match s with
  | EmptyString => EmptyString
  | String c rest => String (lower_ascii c) (lower rest)
  end.

(** [bool(s)]: a string is truthy when it is not empty. *)
Definition truthy (s : string) : bool :=
  match s with
  | EmptyString => false
  | String _ _ => true
  end.

(** [needle in hay] *)
Fixpoint contains (needle hay : string) : bool :=
  String.prefix needle hay ||
  match hay with
  | EmptyString => false
  | String _ rest => contains needle rest
  end.

Fixpoint rev_onto (s acc : string) : string :=
  match s with
  | EmptyString => acc
  | String c rest => rev_onto rest (String c acc)
  end.

Definition reverse (s : string) : string := rev_onto s EmptyString.

Definition bytes (codes : list nat) : string :=
  fold_right (λ n s, String (ascii_of_nat n) s) EmptyString codes.

(** The characters that [str.isspace()] holds of, in UTF-8: U+0009 to
    U+000D, U+001C to U+0020, U+0085, U+00A0, U+1680, U+2000 to U+200A,
    U+2028, U+2029, U+202F, U+205F and U+3000. *)
Definition white_space : list string :=
  map bytes
    [ [9]; [10]; [11]; [12]; [13]; [28]; [29]; [30]; [31]; [32];
      [194; 133]; [194; 160]; [225; 154; 128];
      [226; 128; 128]; [226; 128; 129]; [226; 128; 130]; [226; 128; 131];
      [226; 128; 132]; [226; 128; 133]; [226; 128; 134]; [226; 128; 135];
      [226; 128; 136]; [226; 128; 137]; [226; 128; 138];
      [226; 128; 168]; [226; 128; 169]; [226; 128; 175];
      [226; 129; 159]; [227; 128; 128] ]%nat.

(** [s] without the prefix [w], when it starts with [w]. *)
Fixpoint without_prefix (w s : string) : option string :=
  match w, s with
  | EmptyString, _ => Some s
  | String a w', String b s' =>
      if Ascii.eqb a b then without_prefix w' s' else None
  | String _ _, EmptyString => None
  end.

(** [s] without the character of [spaces] it starts with, when it
    starts with one. *)
Fixpoint drop_space (spaces : list string) (s : string) : option string :=
  match spaces with
  | [] => None
  | w :: rest =>
      match without_prefix w s with
      | Some s' => Some s'
      | None => drop_space rest s
      end
  end.

(** Dropping leading characters of [spaces], at most [fuel] of them. *)
Fixpoint lstrip_fuel (spaces : list string) (fuel : nat) (s : string)
  : string :=
  match fuel with
  | O => s
  | S fuel' =>
      match drop_space spaces s with
      | Some s' => lstrip_fuel spaces fuel' s'
      | None => s
      end
  end.

(** A string of [n] bytes starts with at most [n] characters. *)
Definition lstrip_of (spaces : list string) (s : string) : string :=
  lstrip_fuel spaces (String.length s) s.

(** [s.lstrip()] *)
Definition lstrip (s : string) : string := lstrip_of white_space s.

(** [s.rstrip()]: the same on the reversed bytes, where each character
    reads backwards.  The first byte of an encoding is never a byte
    inside another one, so the bytes a string ends with are such an
    encoding only when the string ends with that character. *)
Definition rstrip (s : string) : string :=
  reverse (lstrip_of (map reverse white_space) (reverse s)).

(** [s.strip()] *)
Definition strip (s : string) : string := rstrip (lstrip s).

End PyStr.

(** ** Python values stored in the info dictionaries

    The dictionaries built by [_create_element_info] hold strings, and
    [None] where Selenium reports a missing attribute or a script returns
    nothing. *)

Inductive value : Type :=
  | VNone
  | VStr (s : string).

#[global] Instance value_eq_dec : EqDecision value.
Proof. solve_decision. Defined.

#[global] Instance value_countable : Countable value.
Proof.
  refine (inj_countable'
            (λ v, match v with VNone => None | VStr s => Some s end)
            (λ o, match o with None => VNone | Some s => VStr s end) _).
  by intros [].
Defined.

(** [bool(v)] *)
Definition truthy (v : value) : bool :=
  match v with
  | VNone => false
  | VStr s => PyStr.truthy s
  end.

(** [v or ""], for an attribute that is a string or [None]. *)
Definition or_empty (v : value) : string :=
  match v with
  | VNone => EmptyString
  | VStr s => s
  end.

(** The element-info dictionary. *)
Abbreviation info := (gmap string value).

(** [element.get(key, default)] *)
Definition dict_get (d : info) (key : string) (dflt : value) : value :=
  default dflt (d !! key).

(** ** Exceptions and effects

    A computation reads and changes a state of type [S] and either
    returns or raises; the state reached when an exception is raised is
    kept, as in Python. *)

Inductive exn : Type :=
  | Exception (msg : string).

(** [str(e)] *)
Definition str_of_exn (e : exn) : string :=
  match e with Exception msg => msg end.

Inductive outcome (A : Type) : Type :=
  | Return (a : A)
  | Raised (e : exn).
Arguments Return {A} a.
Arguments Raised {A} e.

#[global] Instance exn_eq_dec : EqDecision exn.
Proof. solve_decision. Defined.

#[global] Instance outcome_eq_dec {A : Type} `{EqDecision A}
  : EqDecision (outcome A).
Proof. solve_decision. Defined.

Definition M (S A : Type) : Type := S → outcome A * S.

Definition ret {S A : Type} (a : A) : M S A :=
  λ s, (Return a, s).

Definition raise {S A : Type} (e : exn) : M S A :=
  λ s, (Raised e, s).

Definition bind {S A B : Type} (m : M S A) (k : A → M S B) : M S B :=
  λ s, match m s with
       | (Return a, s') => k a s'
       | (Raised e, s') => (Raised e, s')
       end.

(** [try: body  except Exception as e: handler(e)] *)
Definition try_except {S A : Type} (body : M S A) (handler : exn → M S A)
  : M S A :=
  λ s, match body s with
       | (Return a, s') => (Return a, s')
       | (Raised e, s') => handler e s'
       end.

Declare Scope eff_scope.
Delimit Scope eff_scope with eff.
Notation "x <- m ;; k" := (bind m (λ x, k))
  (at level 20, m at level 99, k at level 200, only parsing) : eff_scope.
Local Open Scope eff_scope.

(** [for x in xs: body(x)] *)
Fixpoint for_each {S A : Type} (xs : list A) (body : A → M S unit)
  : M S unit :=
  match xs with
  | [] => ret tt
  | x :: rest => _ <- body x ;; for_each rest body
  end.

(** ** The Selenium interface used by the finder

    [W] is the state of the browser session and [elem] the type of
    element handles.  Every call may raise (a malformed query, a stale
    element) and may change the session. *)

Inductive By : Type :=
  | XPATH
  | CSS_SELECTOR.

(** The two JavaScript programs of [_generate_xpath] and
    [_generate_css_selector]; the driver runs them on an element. *)
Inductive script : Type :=
  | getPathTo
  | getCssSelector.

Record WebDriver (W elem : Type) : Type := {
  find_elements : By → string → M W (list elem);
  find_element : elem → By → string → M W elem;
  is_displayed : elem → M W bool;
  is_enabled : elem → M W bool;
  text : elem → M W string;
  tag_name : elem → M W string;
  get_attribute : elem → string → M W value;
  execute_script : script → elem → M W value
}.
Arguments find_elements {W elem} _ _ _ _.
Arguments find_element {W elem} _ _ _ _ _.
Arguments is_displayed {W elem} _ _ _.
Arguments is_enabled {W elem} _ _ _.
Arguments text {W elem} _ _ _.
Arguments tag_name {W elem} _ _ _.
Arguments get_attribute {W elem} _ _ _ _.
Arguments execute_script {W elem} _ _ _ _.

(** ** The finder object *)

Definition dq : string := String "034"%char EmptyString.

(** The built-in keyword catalogue (class attribute, extended in place by
    the GUI before a run). *)
Definition DEFAULT_INTERACTION_KEYWORDS : list string :=
  [ "点赞"; "赞"; "喜欢"; "顶"; "支持";
    "点踩"; "踩"; "不喜欢"; "倒"; "反对";
    "投票"; "评分"; "评价"; "收藏"; "分享";
    "like"; "upvote"; "up vote"; "up-vote"; "thumbs up"; "+1";
    "dislike"; "downvote"; "down vote"; "down-vote"; "thumbs down"; "-1";
    "vote"; "rating"; "rate"; "favorite"; "bookmark"; "share"; "react";
    "helpful"; "recommend"; "agree"; "disagree"; "support"; "oppose" ].

Definition attr_selector (attr op val : string) : string :=
  "[" +:+ attr +:+ op +:+ dq +:+ val +:+ dq +:+ "]".

Definition ELEMENT_SELECTORS : list string :=
  [ "button"; "a.vote"; "a.like"; "div.vote"; "div.like";
    "span.vote"; "span.like"; "i.fa-thumbs-up"; "i.fa-thumbs-down";
    attr_selector "aria-label" "*=" "like";
    attr_selector "aria-label" "*=" "vote";
    attr_selector "title" "*=" "like";
    attr_selector "title" "*=" "vote";
    ".vote-up"; ".vote-down"; ".upvote"; ".downvote";
    ".like-button"; ".dislike-button";
    attr_selector "data-action" "=" "upvote";
    attr_selector "data-action" "=" "downvote";
    attr_selector "data-action" "=" "like" ].

Record InteractionElementFinder : Type := {
  INTERACTION_KEYWORDS : list string;
  similarity_threshold : Z
}.

(** [InteractionElementFinder(similarity_threshold=70)] *)
Definition new_finder (threshold : Z) : InteractionElementFinder :=
  {| INTERACTION_KEYWORDS := DEFAULT_INTERACTION_KEYWORDS;
     similarity_threshold := threshold |}.

(** The state of one [find_interaction_elements] call: the browser
    session and the local list [found_elements]. *)
Record frame (W : Type) : Type := Frame {
  world : W;
  found_elements : list info
}.
Arguments Frame {W} _ _.
Arguments world {W} _.
Arguments found_elements {W} _.

Definition lift {W A : Type} (m : M W A) : M (frame W) A :=
  λ fr, let (r, w') := m (world fr) in
        (r, Frame w' (found_elements fr)).

(** [found_elements.append(x)] *)
Definition append_found {W : Type} (x : info) : M (frame W) unit :=
  λ fr, (Return tt, Frame (world fr) (found_elements fr ++ [x])).

Definition keyword_query (keyword : string) : string :=
  "//*[contains(text(), '" +:+ keyword +:+
  "') or contains(@value, '" +:+ keyword +:+ "') or " +:+
  "contains(@aria-label, '" +:+ keyword +:+
  "') or contains(@title, '" +:+ keyword +:+ "')]".

Definition svg_query : string :=
  "//button[.//svg] | //a[.//svg] | //div[.//svg and @role='button']".

Definition counter_query : string :=
  "//span[contains(@class, 'count') or contains(@class, 'num') or contains(@class, 'score')]".

Definition clickable_tags : list string := ["button"; "a"; "input"].
Definition clickable_roles : list string := ["button"; "link"; "checkbox"; "radio"].

(** [x in xs] for a list of strings *)
Definition str_in (x : string) (xs : list string) : bool :=
  existsb (String.eqb x) xs.

Section Finder.

Context {W elem : Type}.
Variable driver : WebDriver W elem.
(** [fuzz.partial_ratio] of the fuzzywuzzy library. *)
Variable partial_ratio : string → string → Z.
Variable self : InteractionElementFinder.

Definition is_clickable (element_tag element_role element_class : string)
  : bool :=
  str_in element_tag clickable_tags ||
  str_in element_role clickable_roles ||
  PyStr.contains "button" (PyStr.lower element_class) ||
  PyStr.contains "btn" (PyStr.lower element_class).

Definition combine_text
  (element_text element_class element_id element_aria_label
     element_title : string) : string :=
  PyStr.lower (element_text +:+ " " +:+ element_class +:+ " " +:+
               element_id +:+ " " +:+ element_aria_label +:+ " " +:+
               element_title).

(** The keyword loop of the scorer: the first keyword whose similarity
    reaches the threshold on a clickable element returns [True]. *)
Fixpoint keyword_loop (keywords : list string) (combined_text : string)
  (clickable : bool) : bool :=
  match keywords with
  | [] => false
  | keyword :: rest =>
      let similarity := partial_ratio (PyStr.lower keyword) combined_text in
      if (similarity_threshold self <=? similarity)%Z && clickable
      then true
      else keyword_loop rest combined_text clickable
  end.

(** The [try] block of [_is_likely_interaction_element]. *)
Definition scorer_body (element : elem) : M W bool :=
  displayed <- is_displayed driver element ;;
  rejected <- (if negb displayed then ret true
               else enabled <- is_enabled driver element ;;
                    ret (negb enabled)) ;;
  if (rejected : bool) then ret false else
  t <- text driver element ;;
  element_text <- (if PyStr.truthy t
                   then t' <- text driver element ;; ret (PyStr.lower t')
                   else ret EmptyString) ;;
  tag <- tag_name driver element ;;
  let element_tag := PyStr.lower tag in
  class <- get_attribute driver element "class" ;;
  let element_class := or_empty class in
  id <- get_attribute driver element "id" ;;
  let element_id := or_empty id in
  aria <- get_attribute driver element "aria-label" ;;
  let element_aria_label := or_empty aria in
  title <- get_attribute driver element "title" ;;
  let element_title := or_empty title in
  role <- get_attribute driver element "role" ;;
  let element_role := or_empty role in
  let combined_text :=
    combine_text element_text element_class element_id
      element_aria_label element_title in
  let clickable := is_clickable element_tag element_role element_class in
  ret (keyword_loop (INTERACTION_KEYWORDS self) combined_text clickable).

Definition _is_likely_interaction_element (element : elem) : M W bool :=
  try_except (scorer_body element) (λ _, ret false).

Definition _generate_xpath (element : elem) : M W value :=
  execute_script driver getPathTo element.

Definition _generate_css_selector (element : elem) : M W value :=
  execute_script driver getCssSelector element.

(** The dictionary returned by the [try] block of
    [_create_element_info]. *)
Definition full_info
  (element_text : string) (element_tag : string)
  (element_class element_id element_aria_label element_title : string)
  (element_html element_xpath element_css : value)
  (match_term match_type : string) : info :=
  list_to_map
    [ ("element_text", VStr element_text);
      ("element_tag", VStr element_tag);
      ("element_class", VStr element_class);
      ("element_id", VStr element_id);
      ("element_aria_label", VStr element_aria_label);
      ("element_title", VStr element_title);
      ("element_html", element_html);
      ("element_xpath", element_xpath);
      ("element_css", element_css);
      ("match_term", VStr match_term);
      ("match_type", VStr match_type) ].

(** The dictionary returned by its [except] branch. *)
Definition error_info (e : exn) (match_term match_type : string) : info :=
  list_to_map
    [ ("element_text", VStr "Error extracting element info");
      ("element_tag", VStr "unknown");
      ("error", VStr (str_of_exn e));
      ("match_term", VStr match_term);
      ("match_type", VStr match_type) ].

Definition create_body (element : elem) (match_term match_type : string)
  : M W info :=
  t <- text driver element ;;
  element_text <- (if PyStr.truthy t
                   then t' <- text driver element ;; ret (PyStr.strip t')
                   else ret EmptyString) ;;
  element_html <- get_attribute driver element "outerHTML" ;;
  element_tag <- tag_name driver element ;;
  class <- get_attribute driver element "class" ;;
  id <- get_attribute driver element "id" ;;
  aria <- get_attribute driver element "aria-label" ;;
  title <- get_attribute driver element "title" ;;
  element_xpath <- try_except (_generate_xpath element)
                     (λ _, ret (VStr "Unknown")) ;;
  element_css <- try_except (_generate_css_selector element)
                   (λ _, ret (VStr "Unknown")) ;;
  ret (full_info element_text element_tag (or_empty class) (or_empty id)
         (or_empty aria) (or_empty title) element_html element_xpath
         element_css match_term match_type).

Definition _create_element_info (element : elem)
  (match_term match_type : string) : M W info :=
  try_except (create_body element match_term match_type)
    (λ e, ret (error_info e match_term match_type)).

(** The loop of [_deduplicate_elements], with its two accumulators. *)
Fixpoint dedup_loop (elements unique_elements : list info)
  (seen_xpaths : gset value) : list info :=
  match elements with
  | [] => unique_elements
  | element :: rest =>
      let xpath := dict_get element "element_xpath" (VStr EmptyString) in
      if truthy xpath && negb (bool_decide (xpath ∈ seen_xpaths))
      then dedup_loop rest (unique_elements ++ [element])
             ({[xpath]} ∪ seen_xpaths)
      else dedup_loop rest unique_elements seen_xpaths
  end.

Definition _deduplicate_elements (elements : list info) : list info :=
  dedup_loop elements [] ∅.

(** [if self._is_likely_interaction_element(e):
       found_elements.append(self._create_element_info(e, term, type))] *)
Definition consider (element : elem) (match_term match_type : string)
  : M (frame W) unit :=
  likely <- lift (_is_likely_interaction_element element) ;;
  if (likely : bool)
  then x <- lift (_create_element_info element match_term match_type) ;;
       append_found x
  else ret tt.

Definition keyword_strategy : M (frame W) unit :=
  for_each (INTERACTION_KEYWORDS self) (λ keyword,
    elements <- lift (find_elements driver XPATH (keyword_query keyword)) ;;
    for_each elements (λ element,
      consider element keyword "keyword_match")).

Definition selector_strategy : M (frame W) unit :=
  for_each ELEMENT_SELECTORS (λ selector,
    try_except
      (elements <- lift (find_elements driver CSS_SELECTOR selector) ;;
       for_each elements (λ element,
         consider element selector "selector_match"))
      (λ _, ret tt)).

Definition svg_strategy : M (frame W) unit :=
  svg_elements <- lift (find_elements driver XPATH svg_query) ;;
  for_each svg_elements (λ element,
    consider element "svg_icon" "svg_match").

Definition counter_strategy : M (frame W) unit :=
  counter_elements <- lift (find_elements driver XPATH counter_query) ;;
  for_each counter_elements (λ element,
    parent <- lift (find_element driver element XPATH "..") ;;
    consider parent "counter_parent" "counter_match").

(** The four strategies, in the order of the source. *)
Definition discover : M (frame W) unit :=
  _ <- keyword_strategy ;;
  _ <- selector_strategy ;;
  _ <- svg_strategy ;;
  counter_strategy.

Definition find_interaction_elements : M W (list info) :=
  λ w, match discover (Frame w []) with
       | (Return _, fr) =>
           (Return (_deduplicate_elements (found_elements fr)), world fr)
       | (Raised e, fr) => (Raised e, world fr)
       end.

End Finder.

(** ** The similarity score *)

Module Fuzz.

(** One row of the longest-common-subsequence table: [prev] is the row
    above, [diag] and [left] the neighbours of the current cell. *)
Fixpoint lcs_row (x : ascii) (b : list ascii) (prev : list nat)
  (diag left : nat) : list nat :=
  match b, prev with
  | y :: b', up :: prev' =>
      let cur := if Ascii.eqb x y then S diag else Nat.max up left in
      cur :: lcs_row x b' prev' up cur
  | _, _ => []
  end.

Definition lcs (a b : list ascii) : nat :=
  default 0%nat
    (last (fold_left (λ row x, lcs_row x b row 0%nat 0%nat) a
             (repeat 0%nat (length b)))).

(** Similarity of two sequences on the scale 0..100: twice the number
    of matched characters over the total length. *)
Definition ratio (a b : list ascii) : Z :=
  (200 * Z.of_nat (lcs a b)) / Z.of_nat (length a + length b).

(** The best ratio of [shorter] against the windows of [longer] that
    start at the first [shifts + 1] positions. *)
Fixpoint best_window (shorter longer : list ascii) (shifts : nat)
  {struct shifts} : Z :=
  let here := ratio shorter (take (length shorter) longer) in
  match shifts with
  | O => here
  | S n =>
      match longer with
      | [] => here
      | _ :: rest => Z.max here (best_window shorter rest n)
      end
  end.

(** Modelled from the spec: [fuzz.partial_ratio] of the fuzzywuzzy
    library, which [element_finder.py] imports and which is not part of
    the repository.  The spec asks for a partial fuzzy-similarity score
    on the scale 0..100 that tolerates the keyword appearing as a
    substring of a longer blob without penalizing the unmatched
    surrounding text: the shorter string is compared with every window
    of its own length in the longer one and the best ratio is the
    score.  Equal strings score 100 and an empty string scores 0. *)
Definition partial_ratio (s1 s2 : string) : Z :=
  if String.eqb s1 s2 then 100
  else if (String.length s1 =? 0)%nat || (String.length s2 =? 0)%nat then 0
  else
    let a := list_ascii_of_string s1 in
    let b := list_ascii_of_string s2 in
    if (length a <=? length b)%nat
    then best_window a b (length b - length a)
    else best_window b a (length a - length b).

End Fuzz.

(** ** Static pages

    A page whose answers do not change during a call: element handles
    are numbers and every driver call is answered from a table. *)

Record page : Type := {
  page_query : By → string → outcome (list nat);
  page_parent : nat → outcome nat;
  page_displayed : nat → outcome bool;
  page_enabled : nat → outcome bool;
  page_text : nat → outcome string;
  page_tag : nat → outcome string;
  page_attribute : nat → string → outcome value;
  page_script : script → nat → outcome value
}.

Definition answer {A : Type} (r : outcome A) : M unit A :=
  λ s, (r, s).

Definition static_driver (p : page) : WebDriver unit nat :=
  {| find_elements := λ by_ q, answer (page_query p by_ q);
     find_element := λ e _ _, answer (page_parent p e);
     is_displayed := λ e, answer (page_displayed p e);
     is_enabled := λ e, answer (page_enabled p e);
     text := λ e, answer (page_text p e);
     tag_name := λ e, answer (page_tag p e);
     get_attribute := λ e name, answer (page_attribute p e name);
     execute_script := λ sc e, answer (page_script p sc e) |}.

Definition stale : exn := Exception "stale element reference".
Definition invalid_selector : exn := Exception "invalid selector".

(** A page with one visible button, element 0, labelled "like"; the
    keyword query for "like" and the selector "button" both find it. *)
Definition one_button_page : page :=
  {| page_query := λ by_ q,
       match by_ with
       | XPATH => if String.eqb q (keyword_query "like")
                  then Return [0%nat] else Return []
       | CSS_SELECTOR => if String.eqb q "button"
                         then Return [0%nat] else Return []
       end;
     page_parent := λ _, Return 0%nat;
     page_displayed := λ _, Return true;
     page_enabled := λ _, Return true;
     page_text := λ _, Return "like";
     page_tag := λ _, Return "button";
     page_attribute := λ _ name,
       if String.eqb name "outerHTML"
       then Return (VStr "<button>like</button>") else Return VNone;
     page_script := λ sc _,
       match sc with
       | getPathTo => Return (VStr "/html/body/button[1]")
       | getCssSelector => Return (VStr "html > body > button")
       end |}.

(** The same page when the button goes stale once it has been scored:
    reading its markup raises. *)
Definition stale_markup_page : page :=
  {| page_query := page_query one_button_page;
     page_parent := page_parent one_button_page;
     page_displayed := page_displayed one_button_page;
     page_enabled := page_enabled one_button_page;
     page_text := page_text one_button_page;
     page_tag := page_tag one_button_page;
     page_attribute := λ e name,
       if String.eqb name "outerHTML" then Raised stale
       else page_attribute one_button_page e name;
     page_script := page_script one_button_page |}.

(** The same page when both locator scripts fail. *)
Definition no_locator_page : page :=
  {| page_query := page_query one_button_page;
     page_parent := page_parent one_button_page;
     page_displayed := page_displayed one_button_page;
     page_enabled := page_enabled one_button_page;
     page_text := page_text one_button_page;
     page_tag := page_tag one_button_page;
     page_attribute := page_attribute one_button_page;
     page_script := λ _ _, Raised (Exception "javascript error") |}.

(** A page with two visible buttons, element 0 labelled "like" and
    element 1 labelled "share"; each is found by the query for its
    keyword and both by the selector "button". *)
Definition two_button_page : page :=
  {| page_query := λ by_ q,
       match by_ with
       | XPATH => if String.eqb q (keyword_query "like") then Return [0%nat]
                  else if String.eqb q (keyword_query "share")
                  then Return [1%nat] else Return []
       | CSS_SELECTOR => if String.eqb q "button"
                         then Return [0%nat; 1%nat] else Return []
       end;
     page_parent := λ _, Raised (Exception "no such element");
     page_displayed := λ _, Return true;
     page_enabled := λ _, Return true;
     page_text := λ e,
       match e with
       | O => Return "like"
       | _ => Return "share"
       end;
     page_tag := λ _, Return "button";
     page_attribute := λ e name,
       if String.eqb name "outerHTML"
       then match e with
            | O => Return (VStr "<button>like</button>")
            | _ => Return (VStr "<button>share</button>")
            end
       else Return VNone;
     page_script := λ sc e,
       match sc, e with
       | getPathTo, O => Return (VStr "/html/body/button[1]")
       | getPathTo, _ => Return (VStr "/html/body/button[2]")
       | getCssSelector, O => Return (VStr "html > body > button")
       | getCssSelector, _ =>
           Return (VStr "html > body > button:nth-of-type(2)")
       end |}.

(** The same page when both locator scripts fail on every element. *)
Definition two_button_no_locator_page : page :=
  {| page_query := page_query two_button_page;
     page_parent := page_parent two_button_page;
     page_displayed := page_displayed two_button_page;
     page_enabled := page_enabled two_button_page;
     page_text := page_text two_button_page;
     page_tag := page_tag two_button_page;
     page_attribute := page_attribute two_button_page;
     page_script := λ _ _, Raised (Exception "javascript error") |}.

(** The same page when the button is hidden. *)
Definition hidden_button_page : page :=
  {| page_query := page_query one_button_page;
     page_parent := page_parent one_button_page;
     page_displayed := λ _, Return false;
     page_enabled := page_enabled one_button_page;
     page_text := page_text one_button_page;
     page_tag := page_tag one_button_page;
     page_attribute := page_attribute one_button_page;
     page_script := page_script one_button_page |}.

(** A page whose engine rejects every XPath query. *)
Definition broken_xpath_page : page :=
  {| page_query := λ by_ q,
       match by_ with
       | XPATH => Raised invalid_selector
       | CSS_SELECTOR => page_query one_button_page by_ q
       end;
     page_parent := page_parent one_button_page;
     page_displayed := page_displayed one_button_page;
     page_enabled := page_enabled one_button_page;
     page_text := page_text one_button_page;
     page_tag := page_tag one_button_page;
     page_attribute := page_attribute one_button_page;
     page_script := page_script one_button_page |}.

(** A page with one visible [span], element 0, whose text is "like". *)
Definition span_page : page :=
  {| page_query := page_query one_button_page;
     page_parent := page_parent one_button_page;
     page_displayed := page_displayed one_button_page;
     page_enabled := page_enabled one_button_page;
     page_text := page_text one_button_page;
     page_tag := λ _, Return "span";
     page_attribute := page_attribute one_button_page;
     page_script := page_script one_button_page |}.

(** A page with one visible button whose text is "liked". *)
Definition liked_page : page :=
  {| page_query := page_query one_button_page;
     page_parent := page_parent one_button_page;
     page_displayed := page_displayed one_button_page;
     page_enabled := page_enabled one_button_page;
     page_text := λ _, Return "liked";
     page_tag := page_tag one_button_page;
     page_attribute := page_attribute one_button_page;
     page_script := page_script one_button_page |}.

(** A page whose only element is stale: every access to it raises. *)
Definition stale_page : page :=
  {| page_query := page_query one_button_page;
     page_parent := λ _, Raised stale;
     page_displayed := λ _, Raised stale;
     page_enabled := λ _, Raised stale;
     page_text := λ _, Raised stale;
     page_tag := λ _, Raised stale;
     page_attribute := λ _ _, Raised stale;
     page_script := λ _ _, Raised stale |}.

(** The one-button page on an engine that rejects the keyword query
    built from "don't like": the apostrophe ends the XPath string
    literal early. *)
Definition apostrophe_page : page :=
  {| page_query := λ by_ q,
       if String.eqb q (keyword_query "don't like")
       then Raised invalid_selector
       else page_query one_button_page by_ q;
     page_parent := page_parent one_button_page;
     page_displayed := page_displayed one_button_page;
     page_enabled := page_enabled one_button_page;
     page_text := page_text one_button_page;
     page_tag := page_tag one_button_page;
     page_attribute := page_attribute one_button_page;
     page_script := page_script one_button_page |}.

(** The one-button page with a counter [span], element 1, that is stale
    when the counter strategy asks for its parent. *)
Definition stale_counter_page : page :=
  {| page_query := λ by_ q,
       match by_ with
       | XPATH => if String.eqb q counter_query then Return [1%nat]
                  else page_query one_button_page by_ q
       | CSS_SELECTOR => page_query one_button_page by_ q
       end;
     page_parent := λ _, Raised stale;
     page_displayed := page_displayed one_button_page;
     page_enabled := page_enabled one_button_page;
     page_text := page_text one_button_page;
     page_tag := page_tag one_button_page;
     page_attribute := page_attribute one_button_page;
     page_script := page_script one_button_page |}.

(** The page of the spec's scenario: element 0 is
    [<button class="vote-up" aria-label="upvote this post">▲ 128</button>]
    and element 1 is [<span>128 likes</span>]. *)
Definition vote_page : page :=
  {| page_query := λ by_ q,
       match by_ with
       | XPATH =>
           if String.eqb q (keyword_query "like") then Return [1%nat]
           else if String.eqb q (keyword_query "upvote") then Return [0%nat]
           else if String.eqb q (keyword_query "vote") then Return [0%nat]
           else Return []
       | CSS_SELECTOR =>
           if String.eqb q "button" then Return [0%nat]
           else if String.eqb q ".vote-up" then Return [0%nat]
           else if String.eqb q (attr_selector "aria-label" "*=" "vote")
           then Return [0%nat]
           else Return []
       end;
     page_parent := λ _, Raised (Exception "no such element");
     page_displayed := λ _, Return true;
     page_enabled := λ _, Return true;
     page_text := λ e,
       match e with
       | O => Return "▲ 128"
       | _ => Return "128 likes"
       end;
     page_tag := λ e,
       match e with
       | O => Return "button"
       | _ => Return "span"
       end;
     page_attribute := λ e name,
       match e with
       | O =>
           if String.eqb name "class" then Return (VStr "vote-up")
           else if String.eqb name "aria-label"
           then Return (VStr "upvote this post")
           else if String.eqb name "outerHTML"
           then Return (VStr "<button>...</button>")
           else Return VNone
       | _ =>
           if String.eqb name "outerHTML"
           then Return (VStr "<span>128 likes</span>")
           else Return VNone
       end;
     page_script := λ sc e,
       match sc, e with
       | getPathTo, O => Return (VStr "/html/body/button[1]")
       | getPathTo, _ => Return (VStr "/html/body/span[1]")
       | getCssSelector, O => Return (VStr "html > body > button")
       | getCssSelector, _ => Return (VStr "html > body > span")
       end |}.

(** ** A page that re-renders

    The session state counts the driver calls made so far.  A handle is
    the time at which a query returned it, and the node behind it is
    replaced [lifetime] calls later: from then on every access through
    the handle raises, while a new query returns a new handle. *)

Definition tick {A : Type} (r : nat → outcome A) : M nat A :=
  λ now, (r now, S now).

Definition while_fresh {A : Type} (lifetime handle : nat) (a : A)
  : M nat A :=
  tick (λ now, if (now <? handle + lifetime)%nat then Return a
               else Raised stale).

Definition rerendering_driver (p : page) (lifetime : nat)
  : WebDriver nat nat :=
  {| find_elements := λ by_ q,
       tick (λ now, match page_query p by_ q with
                    | Return [] => Return []
                    | Return (_ :: _) => Return [now]
                    | Raised e => Raised e
                    end);
     find_element := λ e _ _, while_fresh lifetime e e;
     is_displayed := λ e, while_fresh lifetime e true;
     is_enabled := λ e, while_fresh lifetime e true;
     text := λ e, while_fresh lifetime e "like";
     tag_name := λ e, while_fresh lifetime e "button";
     get_attribute := λ e _, while_fresh lifetime e VNone;
     execute_script := λ _ e, while_fresh lifetime e (VStr "/html/body/button[1]") |}.

(** [element_finder.INTERACTION_KEYWORDS.extend(custom_keywords)], as the
    GUI does before a run. *)
Definition extend_keywords (self : InteractionElementFinder)
  (custom_keywords : list string) : InteractionElementFinder :=
  {| INTERACTION_KEYWORDS := INTERACTION_KEYWORDS self ++ custom_keywords;
     similarity_threshold := similarity_threshold self |}.

(** ** Views used by the statements *)

(** The structural locator that deduplication reads from a record. *)
Definition locator (r : info) : value :=
  dict_get r "element_xpath" (VStr EmptyString).

(** The eleven keys of a complete record. *)
Definition record_keys : gset string :=
  list_to_set
    [ "element_text"; "element_tag"; "element_class"; "element_id";
      "element_aria_label"; "element_title"; "element_html";
      "element_xpath"; "element_css"; "match_term"; "match_type" ].

Definition strategy_tags : list string :=
  [ "keyword_match"; "selector_match"; "svg_match"; "counter_match" ].

(** [r] was built by [_create_element_info] for the strategy
    [match_type], on either of its branches. *)
Definition created_as (match_type : string) (r : info) : Prop :=
  ∃ match_term,
    (∃ element_text element_tag element_class element_id
       element_aria_label element_title element_html element_xpath
       element_css,
        r = full_info element_text element_tag element_class element_id
              element_aria_label element_title element_html element_xpath
              element_css match_term match_type) ∨
    (∃ e, r = error_info e match_term match_type).

(** The local variables of the scorer once every access has succeeded
    on a visible, enabled element. *)
Record signals : Type := Signals {
  sg_text : string;
  sg_tag : string;
  sg_class : string;
  sg_id : string;
  sg_aria_label : string;
  sg_title : string;
  sg_role : string
}.

#[global] Instance signals_eq_dec : EqDecision signals.
Proof. solve_decision. Defined.

Section Views.

Context {W elem : Type}.
Variable driver : WebDriver W elem.

(** The accesses of the scorer, in its order; [None] when the element
    is hidden or disabled. *)
Definition read_signals (element : elem) : M W (option signals) :=
  displayed <- is_displayed driver element ;;
  rejected <- (if negb displayed then ret true
               else enabled <- is_enabled driver element ;;
                    ret (negb enabled)) ;;
  if (rejected : bool) then ret None else
  t <- text driver element ;;
  element_text <- (if PyStr.truthy t
                   then t' <- text driver element ;; ret (PyStr.lower t')
                   else ret EmptyString) ;;
  tag <- tag_name driver element ;;
  class <- get_attribute driver element "class" ;;
  id <- get_attribute driver element "id" ;;
  aria <- get_attribute driver element "aria-label" ;;
  title <- get_attribute driver element "title" ;;
  role <- get_attribute driver element "role" ;;
  ret (Some (Signals element_text (PyStr.lower tag) (or_empty class)
               (or_empty id) (or_empty aria) (or_empty title)
               (or_empty role))).

Definition void {A : Type} (m : M W A) : M W unit :=
  _ <- m ;; ret tt.

(** The driver calls the scorer can make on an element. *)
Definition scorer_accesses (element : elem) : list (M W unit) :=
  [ void (is_displayed driver element);
    void (is_enabled driver element);
    void (text driver element);
    void (tag_name driver element);
    void (get_attribute driver element "class");
    void (get_attribute driver element "id");
    void (get_attribute driver element "aria-label");
    void (get_attribute driver element "title");
    void (get_attribute driver element "role") ].

Variable partial_ratio : string → string → Z.
Variable self : InteractionElementFinder.

(** The decision of the scorer on the values it has read. *)
Definition score_signals (v : signals) : bool :=
  keyword_loop partial_ratio self (INTERACTION_KEYWORDS self)
    (combine_text (sg_text v) (sg_class v) (sg_id v) (sg_aria_label v)
       (sg_title v))
    (is_clickable (sg_tag v) (sg_role v) (sg_class v)).

(** The scorer accepts [element] when called in session state [s]. *)
Definition accepts (s : W) (element : elem) : bool :=
  match _is_likely_interaction_element driver partial_ratio self element s
  with
  | (Return true, _) => true
  | _ => false
  end.

End Views.

(** The strategy whose record deduplication keeps for the locator [v]:
    the first of the four, in their fixed order, that produced a record
    with it. *)
Definition earliest_tag (v : value) (kw sel svg cnt : list info) : string :=
  if bool_decide (v ∈ locator <$> kw) then "keyword_match"
  else if bool_decide (v ∈ locator <$> sel) then "selector_match"
  else if bool_decide (v ∈ locator <$> svg) then "svg_match"
  else "counter_match".

(** The one-button page when only the XPath script fails. *)
Definition no_xpath_page : page :=
  {| page_query := page_query one_button_page;
     page_parent := page_parent one_button_page;
     page_displayed := page_displayed one_button_page;
     page_enabled := page_enabled one_button_page;
     page_text := page_text one_button_page;
     page_tag := page_tag one_button_page;
     page_attribute := page_attribute one_button_page;
     page_script := λ sc e,
       match sc with
       | getPathTo => Raised (Exception "javascript error")
       | getCssSelector => page_script one_button_page sc e
       end |}.

(** ** Further string methods *)

Module PyText.

(** [s.startswith(prefix)] *)
Definition startswith (s prefix : string) : bool := String.prefix prefix s.

(** The scan of [s.split(sep)]: [piece] is the text read since the last
    separator and [skip] the number of characters of a separator still
    to pass over. *)
Fixpoint split_from (sep s : string) (skip : nat) (piece : string)
  : list string :=
  match s with
  | EmptyString => [piece]
  | String c rest =>
      match skip with
      | S k => split_from sep rest k piece
      | O =>
          if String.prefix sep s
          then piece :: split_from sep rest (String.length sep - 1) EmptyString
          else split_from sep rest 0 (piece +:+ String c EmptyString)
      end
  end.

(** [s.split(sep)] for a non-empty [sep], as at every call site (Python
    raises ValueError on an empty one). *)
Definition split (s sep : string) : list string :=
  split_from sep s 0 EmptyString.

(** The scan of [s.replace(old, new)]. *)
Fixpoint replace_from (old new s : string) (skip : nat) : string :=
  match s with
  | EmptyString => EmptyString
  | String c rest =>
      match skip with
      | S k => replace_from old new rest k
      | O =>
          if String.prefix old s
          then new +:+ replace_from old new rest (String.length old - 1)
          else String c (replace_from old new rest 0)
      end
  end.

(** [s.replace(old, new)] for a non-empty [old]. *)
Definition replace (s old new : string) : string :=
  replace_from old new s 0.

(** [pieces[0]] and [pieces[-1]] of a list that [split] returned, which
    is never empty. *)
Definition first_piece (pieces : list string) : string :=
  default EmptyString (head pieces).

Definition last_piece (pieces : list string) : string :=
  default EmptyString (last pieces).

(** [str(n)] for an integer. *)
Definition str_of_int (n : Z) : string :=
  NilZero.string_of_int (Z.to_int n).

End PyText.

(** ** utils.py *)

(** A Python object as [is_valid_url] sees it: a [str], or an object of
    another type (the float NaN of an empty CSV cell, a number). *)
Inductive pyobj : Type :=
  | PyString (s : string)
  | PyOther.

Definition is_valid_url (url : pyobj) : bool :=
  match url with
  | PyOther => false
  | PyString s =>
      PyText.startswith s "http://" || PyText.startswith s "https://"
  end.

(** [url.split('//')[-1].split('/')[0].replace('.', '_')]: the [except]
    branch of [extract_domain], and the domain of [_save_elements] in
    crawler.py. *)
Definition domain_by_split (url : string) : string :=
  PyText.replace
    (PyText.first_piece
       (PyText.split (PyText.last_piece (PyText.split url "//")) "/"))
    "." "_".

(** [extract_domain]; [netloc url] stands for [urlparse(url).netloc] of
    the standard library, which may raise. *)
Definition extract_domain (netloc : string → outcome string) (url : string)
  : string :=
  match netloc url with
  | Return domain => PyText.replace domain "." "_"
  | Raised _ => domain_by_split url
  end.

Definition format_filename (index : Z) (domain timestamp extension : string)
  : string :=
  PyText.str_of_int index +:+ "_" +:+ domain +:+ "_" +:+ timestamp +:+ "." +:+
  extension.

(** ** crawler.py *)

(** The test of [process_csv] in crawler.py:
    [isinstance(url, str) and ('http://' in url or 'https://' in url)]. *)
Definition crawler_accepts_url (url : pyobj) : bool :=
  match url with
  | PyOther => false
  | PyString s => PyStr.contains "http://" s || PyStr.contains "https://" s
  end.

(** The name of the report file of [_save_elements] in crawler.py, after
    the output directory:
    [f"{index}_{domain}_{timestamp}.json"]. *)
Definition crawler_report_name (index : Z) (url timestamp : string) : string :=
  PyText.str_of_int index +:+ "_" +:+ domain_by_split url +:+ "_" +:+
  timestamp +:+ ".json".

(** [f"{self.output_dir}/{index}_{domain}_{timestamp}.json"] *)
Definition crawler_report_path (output_dir : string) (index : Z)
  (url timestamp : string) : string :=
  output_dir +:+ "/" +:+ crawler_report_name index url timestamp.

(** ** The page as the locator scripts see it

    A node is an element, with its [tagName], its [id] (empty when the
    attribute is absent) and its [childNodes], or a node of another kind
    (text, comment, doctype), whose [nodeType] is not 1.  An element is
    denoted by its position: its index among the [childNodes] of its
    parent, followed by the position of the parent; the empty position is
    the document node. *)

Module Dom.

#[warnings="-register-all"]
Inductive dom_node : Type :=
  | DomElement (tagName id : string) (childNodes : list dom_node)
  | DomOther.

Record document : Type := {
  doc_childNodes : list dom_node;
  (** [document.body], as the browser reports it *)
  doc_body : option (list nat)
}.

(** [node.childNodes] of the node at a position. *)
Fixpoint children_of (doc : document) (position : list nat)
  : option (list dom_node) :=
  match position with
  | [] => Some (doc_childNodes doc)
  | i :: parent =>
      match children_of doc parent with
      | Some siblings =>
          match siblings !! i with
          | Some (DomElement _ _ children) => Some children
          | _ => None
          end
      | None => None
      end
  end.

Definition node_at (doc : document) (position : list nat) : option dom_node :=
  match position with
  | [] => None
  | i :: parent =>
      match children_of doc parent with
      | Some siblings => siblings !! i
      | None => None
      end
  end.

(** [node.nodeType === 1] *)
Definition is_element (node : dom_node) : bool :=
  match node with
  | DomElement _ _ _ => true
  | DomOther => false
  end.

(** [sibling.nodeType === 1 && sibling.tagName === element.tagName] *)
Definition same_tag (tagName : string) (sibling : dom_node) : bool :=
  match sibling with
  | DomElement t _ _ => String.eqb t tagName
  | DomOther => false
  end.

(** The sibling loop of [getPathTo]: [target] siblings are still to be
    passed before the element is reached; [None] when the loop runs off
    the end of [siblings] and the function returns nothing. *)
Fixpoint sibling_loop (siblings : list dom_node) (target : nat)
  (tagName : string) (index : nat) : option nat :=
  match siblings with
  | [] => None
  | sibling :: rest =>
      match target with
      | O => Some index
      | S t =>
          sibling_loop rest t tagName
            (if same_tag tagName sibling then S index else index)
      end
  end.

(** [String(n)] for a count. *)
Definition str_of_nat (n : nat) : string :=
  NilZero.string_of_uint (Nat.to_uint n).

Definition xpath_step (tagName : string) (index : nat) : string :=
  "/" +:+ PyStr.lower tagName +:+ "[" +:+ str_of_nat index +:+ "]".

Definition xpath_by_id (id : string) : string :=
  "//*[@id=" +:+ dq +:+ id +:+ dq +:+ "]".

(** The function [getPathTo] of the script of [_generate_xpath].  On the
    document node and on a node that is not an element, [id] is
    [undefined], which is not [''].  [None] stands for no result. *)
Fixpoint getPathTo (doc : document) (element : list nat) : option string :=
  match element with
  | [] => Some (xpath_by_id "undefined")
  | i :: parent =>
      match node_at doc element with
      | Some (DomElement tagName id _) =>
          if negb (String.eqb id EmptyString) then Some (xpath_by_id id)
          else if bool_decide (doc_body doc = Some element)
          then Some "/html/body"
          else
            match children_of doc parent with
            | Some siblings =>
                match sibling_loop siblings i tagName 1 with
                | Some index =>
                    match getPathTo doc parent with
                    | Some path => Some (path +:+ xpath_step tagName index)
                    | None => None
                    end
                | None => None
                end
            | None => None
            end
      | Some DomOther => Some (xpath_by_id "undefined")
      | None => None
      end
  end.

(** The element siblings before position [i], nearest first: the walk
    along [previousElementSibling]. *)
Definition previous_element_siblings (siblings : list dom_node) (i : nat)
  : list dom_node :=
  reverse (filter (λ n, is_element n = true) (take i siblings)).

(** [while (sib = sib.previousElementSibling)
       if (sib.nodeName.toLowerCase() == selector) nth++] *)
Fixpoint nth_loop (previous : list dom_node) (selector : string) (nth : nat)
  : nat :=
  match previous with
  | [] => nth
  | DomElement nodeName _ _ :: rest =>
      nth_loop rest selector
        (if String.eqb (PyStr.lower nodeName) selector then S nth else nth)
  | DomOther :: rest => nth_loop rest selector nth
  end.

(** The [while] loop of [getCssSelector]: [path] is the array built so
    far, top first. *)
Fixpoint css_loop (doc : document) (el : list nat) (path : list string)
  : list string :=
  match el with
  | [] => path
  | i :: parent =>
      match node_at doc el, children_of doc parent with
      | Some (DomElement nodeName id _), Some siblings =>
          let selector := PyStr.lower nodeName in
          if PyStr.truthy id
          then (selector +:+ "#" +:+ id) :: path
          else
            let nth :=
              nth_loop (previous_element_siblings siblings i) selector 1 in
            let selector :=
              if negb (nth =? 1)%nat
              then selector +:+ ":nth-of-type(" +:+ str_of_nat nth +:+ ")"
              else selector in
            css_loop doc parent (selector :: path)
      | _, _ => path
      end
  end.

(** [path.join(" > ")] *)
Fixpoint join (sep : string) (parts : list string) : string :=
  match parts with
  | [] => EmptyString
  | [part] => part
  | part :: rest => part +:+ sep +:+ join sep rest
  end.

(** The function [getCssSelector] of the script of
    [_generate_css_selector]: nothing for a node that is not an
    element. *)
Definition getCssSelector (doc : document) (el : list nat) : option string :=
  match node_at doc el with
  | Some (DomElement _ _ _) => Some (join " > " (css_loop doc el []))
  | _ => None
  end.

(** [sib.nodeName.toLowerCase() == selector], the test of the loop of
    [getCssSelector]. *)
Definition same_name (selector : string) (sib : dom_node) : bool :=
  match sib with
  | DomElement nodeName _ _ => String.eqb (PyStr.lower nodeName) selector
  | DomOther => false
  end.

(** *** Documents on which a path determines its element *)

(** The lower-case tag name holds neither "/" nor "[", the delimiters of
    a step. *)
Definition plain_tag (tagName : string) : bool :=
  negb (PyStr.contains "/" (PyStr.lower tagName)) &&
  negb (PyStr.contains "[" (PyStr.lower tagName)).

(** Two elements whose tag names agree in lower case have the same
    [tagName]. *)
Definition same_case (a b : dom_node) : bool :=
  match a, b with
  | DomElement t1 _ _, DomElement t2 _ _ =>
      implb (String.eqb (PyStr.lower t1) (PyStr.lower t2)) (String.eqb t1 t2)
  | _, _ => true
  end.

Definition siblings_same_case (siblings : list dom_node) : bool :=
  forallb (λ a, forallb (same_case a) siblings) siblings.

Fixpoint regular_node (node : dom_node) : bool :=
  match node with
  | DomElement tagName _ children =>
      plain_tag tagName && siblings_same_case children &&
      forallb regular_node children
  | DomOther => true
  end.

Definition regular_document (doc : document) : bool :=
  siblings_same_case (doc_childNodes doc) &&
  forallb regular_node (doc_childNodes doc).

(** The element at [rel ++ base] and its ancestors below [base] are
    elements with an empty [id], and none of them is [document.body]:
    the elements whose step [getPathTo] computes by the sibling loop. *)
Fixpoint indexed_chain (doc : document) (rel base : list nat) : bool :=
  match rel with
  | [] => true
  | _ :: above =>
      match node_at doc (rel ++ base) with
      | Some (DomElement _ id _) =>
          String.eqb id EmptyString &&
          negb (bool_decide (doc_body doc = Some (rel ++ base))) &&
          indexed_chain doc above base
      | _ => false
      end
  end.

End Dom.

(** A sample document:
    [<!doctype html><html><head><title/></head>
     <body><div id="main"><button/><button/></div><span/>text<button/>
     </body></html>]. *)
Definition sample_document : Dom.document :=
  {| Dom.doc_childNodes :=
       [ Dom.DomOther;
         Dom.DomElement "HTML" EmptyString
           [ Dom.DomElement "HEAD" EmptyString
               [ Dom.DomElement "TITLE" EmptyString [] ];
             Dom.DomElement "BODY" EmptyString
               [ Dom.DomElement "DIV" "main"
                   [ Dom.DomElement "BUTTON" EmptyString [];
                     Dom.DomElement "BUTTON" EmptyString [] ];
                 Dom.DomElement "SPAN" EmptyString [];
                 Dom.DomOther;
                 Dom.DomElement "BUTTON" EmptyString [];
                 Dom.DomElement "BUTTON" EmptyString [] ] ] ];
     Dom.doc_body := Some [1%nat; 1%nat] |}.

(** ** web_crawler.py: clicking a found element

    What [_click_element] uses of the crawler: the driver's
    [find_element], the [click] of an element handle, [time.sleep] and
    the stop event, which is [None] or an event whose flag another thread
    sets; the flag is read from the session state. *)

Record ClickDriver (W elem : Type) : Type := {
  driver_find_element : By → string → M W elem;
  click : elem → M W unit;
  (** what the page does during [time.sleep(1)] *)
  sleep : W → W;
  stop_event : option (W → bool)
}.
Arguments driver_find_element {W elem} _ _ _ _.
Arguments click {W elem} _ _ _.
Arguments sleep {W elem} _ _.
Arguments stop_event {W elem} _.

(** The lines the function prints, by kind. *)
Inductive message : Type :=
  | ClickingElement (element_text : value) (by_ : By)
  | LocatorError (by_ : By) (e : exn)
  | CannotClick (url : string)
  | ClickError (e : exn).

(** What the function does to the outside, in order. *)
Inductive event (elem : Type) : Type :=
  | Found (by_ : By) (locator_ : string) (result : outcome elem)
  | Clicked (element : elem) (result : outcome unit)
  | Printed (line : message).
Arguments Found {elem} _ _ _.
Arguments Clicked {elem} _ _.
Arguments Printed {elem} _.

Record session (W elem : Type) : Type := Session {
  browser : W;
  events : list (event elem)
}.
Arguments Session {W elem} _ _.
Arguments browser {W elem} _.
Arguments events {W elem} _.

(** A driver call, recorded with its result. *)
Definition logged {W elem A : Type} (m : M W A)
  (record : outcome A → event elem) : M (session W elem) A :=
  λ s, let (r, w) := m (browser s) in
       (r, Session w (events s ++ [record r])).

Definition print {W elem : Type} (line : message) : M (session W elem) unit :=
  λ s, (Return tt, Session (browser s) (events s ++ [Printed line])).

(** [xpath and xpath != "Unknown"] *)
Definition usable_locator (v : value) : bool :=
  truthy v && negb (bool_decide (v = VStr "Unknown")).

Section Clicking.

Context {W elem : Type} (self : ClickDriver W elem).

(** [self.stop_event and self.stop_event.is_set()] *)
Definition stop_requested (s : session W elem) : bool :=
  match stop_event self with
  | Some is_set => is_set (browser s)
  | None => false
  end.

Definition should_stop : M (session W elem) bool :=
  λ s, (Return (stop_requested s), s).

Definition time_sleep : M (session W elem) unit :=
  λ s, (Return tt, Session (sleep self (browser s)) (events s)).

(** One attempt of [_click_element], by XPath or by CSS selector; the
    result is [true] when the function returns from inside the attempt. *)
Definition click_by (element_info : info) (by_ : By) (key : string)
  : M (session W elem) bool :=
  let locator_ := dict_get element_info key VNone in
  if usable_locator locator_ then
    try_except
      (element <- logged (driver_find_element self by_ (or_empty locator_))
                    (Found by_ (or_empty locator_)) ;;
       _ <- print (ClickingElement
                     (dict_get element_info "element_text" (VStr EmptyString))
                     by_) ;;
       _ <- logged (click self element) (Clicked element) ;;
       _ <- time_sleep ;;
       ret true)
      (λ e, _ <- print (LocatorError by_ e) ;; ret false)
  else ret false.

Definition _click_element (url : string) (element_info : info) (index : Z)
  : M (session W elem) unit :=
  stopped <- should_stop ;;
  if stopped then ret tt else
  try_except
    (returned <- click_by element_info XPATH "element_xpath" ;;
     if returned then ret tt else
     stopped <- should_stop ;;
     if stopped then ret tt else
     returned <- click_by element_info CSS_SELECTOR "element_css" ;;
     if returned then ret tt else
     print (CannotClick url))
    (λ e, print (ClickError e)).

End Clicking.

(** An event is a click that went through. *)
Definition is_click {elem : Type} (ev : event elem) : bool :=
  match ev with
  | Clicked _ (Return _) => true
  | _ => false
  end.

(** An event is a driver call. *)
Definition is_driver_call {elem : Type} (ev : event elem) : bool :=
  match ev with
  | Found _ _ _ | Clicked _ _ => true
  | Printed _ => false
  end.

(** The four ways one attempt can go, from session state [s]: the
    locator is not usable and nothing happens; the element is not found;
    it is found and the click fails; it is found and clicked. *)
Inductive attempt_result {W elem : Type} (element_info : info) (by_ : By)
  (key : string) (s : session W elem)
  : outcome bool * session W elem → Prop :=
  | attempt_skipped :
      usable_locator (dict_get element_info key VNone) = false →
      attempt_result element_info by_ key s (Return false, s)
  | attempt_not_found e w :
      usable_locator (dict_get element_info key VNone) = true →
      attempt_result element_info by_ key s
        (Return false,
         Session w (events s ++
           [Found by_ (or_empty (dict_get element_info key VNone)) (Raised e);
            Printed (LocatorError by_ e)]))
  | attempt_click_failed element e w :
      usable_locator (dict_get element_info key VNone) = true →
      attempt_result element_info by_ key s
        (Return false,
         Session w (events s ++
           [Found by_ (or_empty (dict_get element_info key VNone))
              (Return element);
            Printed (ClickingElement
              (dict_get element_info "element_text" (VStr EmptyString)) by_);
            Clicked element (Raised e);
            Printed (LocatorError by_ e)]))
  | attempt_clicked element w :
      usable_locator (dict_get element_info key VNone) = true →
      attempt_result element_info by_ key s
        (Return true,
         Session w (events s ++
           [Found by_ (or_empty (dict_get element_info key VNone))
              (Return element);
            Printed (ClickingElement
              (dict_get element_info "element_text" (VStr EmptyString)) by_);
            Clicked element (Return tt)])).

(** A page on which every locator finds the one button and every click
    goes through; the session state counts the clicks. *)
Definition obliging_driver : ClickDriver nat unit :=
  {| driver_find_element := λ _ _, ret tt;
     click := λ _ clicks, (Return tt, S clicks);
     sleep := λ clicks, clicks;
     stop_event := None |}.

(** ** gui.py: the custom keywords

    [get_custom_keywords], on the text of the keyword box:
    [keywords_text = self.keywords_text.get("1.0", tk.END).strip()] and
    [[kw.strip() for kw in keywords_text.split('\n') if kw.strip()]]. *)

Definition newline : string := String "010" EmptyString.

Definition get_custom_keywords (box_text : string) : list string :=
  let keywords_text := PyStr.strip box_text in
  if PyStr.truthy keywords_text then
    PyStr.strip <$>
      filter (λ kw, PyStr.truthy (PyStr.strip kw) = true)
        (PyText.split keywords_text newline)
  else [].

(** ** web_crawler.py: scrolling the page

    The three scripts that [_scroll_page] runs, as driver calls that may
    raise: [return document.body.scrollHeight],
    [window.scrollTo(0, document.body.scrollHeight);] and
    [window.scrollTo(0, 0);]. *)

Record ScrollDriver (W : Type) : Type := {
  scroll_height : M W Z;
  scroll_to_bottom : M W unit;
  scroll_to_top : M W unit;
  (** what the page does during [time.sleep(1)] *)
  scroll_sleep : W → W;
  scroll_stop_event : option (W → bool)
}.
Arguments scroll_height {W} _ _.
Arguments scroll_to_bottom {W} _ _.
Arguments scroll_to_top {W} _ _.
Arguments scroll_sleep {W} _ _.
Arguments scroll_stop_event {W} _.

Inductive scroll_event : Type :=
  | HeightRead (result : outcome Z)
  | ToBottom (result : outcome unit)
  | ToTop (result : outcome unit)
  | ScrollErrorPrinted (e : exn).

Record scroller (W : Type) : Type := Scroller {
  page_state : W;
  scroll_events : list scroll_event
}.
Arguments Scroller {W} _ _.
Arguments page_state {W} _.
Arguments scroll_events {W} _.

Definition scroll_call {W A : Type} (m : M W A)
  (record : outcome A → scroll_event) : M (scroller W) A :=
  λ s, let (r, w) := m (page_state s) in
       (r, Scroller w (scroll_events s ++ [record r])).

Section Scrolling.

Context {W : Type} (self : ScrollDriver W).

(** [self.stop_event and self.stop_event.is_set()] *)
Definition scroll_stop_requested (s : scroller W) : bool :=
  match scroll_stop_event self with
  | Some is_set => is_set (page_state s)
  | None => false
  end.

Definition scroll_pause : M (scroller W) unit :=
  λ s, (Return tt, Scroller (scroll_sleep self (page_state s))
                     (scroll_events s)).

(** The [for] loop with [rounds] rounds left; the result is [true] when
    the function returns from inside the loop, [false] when the loop ends
    or is left by [break]. *)
Fixpoint scroll_loop (rounds : nat) (last_height : Z)
  : M (scroller W) bool :=
  match rounds with
  | O => ret false
  | S rounds' =>
      if_stopped <- (λ s, (Return (scroll_stop_requested s), s)) ;;
      if if_stopped : bool then ret true else
      _ <- scroll_call (scroll_to_bottom self) ToBottom ;;
      _ <- scroll_pause ;;
      new_height <- scroll_call (scroll_height self) HeightRead ;;
      if (new_height =? last_height)%Z then ret false
      else scroll_loop rounds' new_height
  end.

Definition _scroll_page (scroll_count : Z) : M (scroller W) unit :=
  try_except
    (last_height <- scroll_call (scroll_height self) HeightRead ;;
     returned <- scroll_loop (Z.to_nat scroll_count) last_height ;;
     if returned then ret tt else
     _ <- scroll_call (scroll_to_top self) ToTop ;;
     scroll_pause)
    (λ e, λ s, (Return tt,
                Scroller (page_state s)
                  (scroll_events s ++ [ScrollErrorPrinted e]))).

End Scrolling.

Definition is_to_bottom (ev : scroll_event) : bool :=
  match ev with
  | ToBottom _ => true
  | _ => false
  end.

(** A page that grows by 100 pixels at each of the first three scrolls
    to the bottom; the state is the number of scrolls so far. *)
Definition growing_page : ScrollDriver nat :=
  {| scroll_height := λ n, (Return (1000 + 100 * Z.of_nat (n `min` 3))%Z, n);
     scroll_to_bottom := λ n, (Return tt, S n);
     scroll_to_top := ret tt;
     scroll_sleep := λ n, n;
     scroll_stop_event := None |}.

(** ** The scorer for every case folding

    [str.lower()] folds every cased letter, [PyStr.lower] the letters A
    to Z.  Module [Cased] holds the scorer with the folding function as
    a parameter [lower]: the definitions of the scorer above with
    [lower] in place of [PyStr.lower], line by line. *)

Module Cased.

Section Scorer.

Context {W elem : Type}.
Variable lower : string → string.
Variable driver : WebDriver W elem.
Variable partial_ratio : string → string → Z.
Variable self : InteractionElementFinder.

Definition is_clickable (element_tag element_role element_class : string)
  : bool :=
  str_in element_tag clickable_tags ||
  str_in element_role clickable_roles ||
  PyStr.contains "button" (lower element_class) ||
  PyStr.contains "btn" (lower element_class).

Definition combine_text
  (element_text element_class element_id element_aria_label
     element_title : string) : string :=
  lower (element_text +:+ " " +:+ element_class +:+ " " +:+
         element_id +:+ " " +:+ element_aria_label +:+ " " +:+
         element_title).

Fixpoint keyword_loop (keywords : list string) (combined_text : string)
  (clickable : bool) : bool :=
  match keywords with
  | [] => false
  | keyword :: rest =>
      let similarity := partial_ratio (lower keyword) combined_text in
      if (similarity_threshold self <=? similarity)%Z && clickable
      then true
      else keyword_loop rest combined_text clickable
  end.

Definition scorer_body (element : elem) : M W bool :=
  displayed <- is_displayed driver element ;;
  rejected <- (if negb displayed then ret true
               else enabled <- is_enabled driver element ;;
                    ret (negb enabled)) ;;
  if (rejected : bool) then ret false else
  t <- text driver element ;;
  element_text <- (if PyStr.truthy t
                   then t' <- text driver element ;; ret (lower t')
                   else ret EmptyString) ;;
  tag <- tag_name driver element ;;
  let element_tag := lower tag in
  class <- get_attribute driver element "class" ;;
  let element_class := or_empty class in
  id <- get_attribute driver element "id" ;;
  let element_id := or_empty id in
  aria <- get_attribute driver element "aria-label" ;;
  let element_aria_label := or_empty aria in
  title <- get_attribute driver element "title" ;;
  let element_title := or_empty title in
  role <- get_attribute driver element "role" ;;
  let element_role := or_empty role in
  let combined_text :=
    combine_text element_text element_class element_id
      element_aria_label element_title in
  let clickable := is_clickable element_tag element_role element_class in
  ret (keyword_loop (INTERACTION_KEYWORDS self) combined_text clickable).

Definition _is_likely_interaction_element (element : elem) : M W bool :=
  try_except (scorer_body element) (λ _, ret false).

(** The accesses of the scorer, in its order; [None] when the element
    is hidden or disabled. *)
Definition read_signals (element : elem) : M W (option signals) :=
  displayed <- is_displayed driver element ;;
  rejected <- (if negb displayed then ret true
               else enabled <- is_enabled driver element ;;
                    ret (negb enabled)) ;;
  if (rejected : bool) then ret None else
  t <- text driver element ;;
  element_text <- (if PyStr.truthy t
                   then t' <- text driver element ;; ret (lower t')
                   else ret EmptyString) ;;
  tag <- tag_name driver element ;;
  class <- get_attribute driver element "class" ;;
  id <- get_attribute driver element "id" ;;
  aria <- get_attribute driver element "aria-label" ;;
  title <- get_attribute driver element "title" ;;
  role <- get_attribute driver element "role" ;;
  ret (Some (Signals element_text (lower tag) (or_empty class)
               (or_empty id) (or_empty aria) (or_empty title)
               (or_empty role))).

(** The decision of the scorer on the values it has read. *)
Definition score_signals (v : signals) : bool :=
  keyword_loop (INTERACTION_KEYWORDS self)
    (combine_text (sg_text v) (sg_class v) (sg_id v) (sg_aria_label v)
       (sg_title v))
    (is_clickable (sg_tag v) (sg_role v) (sg_class v)).

End Scorer.

End Cased.

(** A computation that returns from every state. *)
Definition never_raises {S A : Type} (m : M S A) : Prop :=
  ∀ s, ∃ a s', m s = (Return a, s').

(** Every value the computation returns satisfies [Q]. *)
Definition returns_only {S A : Type} (m : M S A) (Q : A → Prop) : Prop :=
  ∀ s a s', m s = (Return a, s') → Q a.

(** The computation leaves [found_elements] as it is, up to appending
    records that satisfy [P]; this holds whether it returns or raises. *)
Definition appends {W A : Type} (P : info → Prop) (m : M (frame W) A)
  : Prop :=
  ∀ fr, ∃ added,
    found_elements (snd (m fr)) = found_elements fr ++ added ∧
    Forall P added.

(** * Properties *)

(** ** Deduplication *)

Section Dedup.

Implicit Types (l u : list info) (seen : gset value) (v : value).

(** The accumulator of the loop is only ever extended. *)
Lemma dedup_loop_acc l u seen :
  dedup_loop l u seen = u ++ dedup_loop l [] seen.
Proof.
  revert u seen. induction l as [|r l IH]; intros u seen; simpl.
  - by rewrite app_nil_r.
  - destruct (truthy _ && negb _).
    + rewrite IH, (IH [r]). by rewrite <- app_assoc.
    + apply IH.
Qed.

Lemma dedup_loop_cons r l seen :
  dedup_loop (r :: l) [] seen =
  if truthy (locator r) && negb (bool_decide (locator r ∈ seen))
  then r :: dedup_loop l [] ({[locator r]} ∪ seen)
  else dedup_loop l [] seen.
Proof.
  simpl. fold (locator r).
  destruct (truthy _ && negb _); [|done].
  by rewrite dedup_loop_acc.
Qed.

(** The records kept for one locator value: the first one of the
    input, unless the value is empty or was seen before. *)
Lemma dedup_loop_filter v l seen :
  filter (λ r, locator r = v) (dedup_loop l [] seen) =
  if truthy v && negb (bool_decide (v ∈ seen))
  then take 1 (filter (λ r, locator r = v) l)
  else [].
Proof.
  revert seen. induction l as [|r l IH]; intros seen.
  - cbn [dedup_loop]. by destruct (truthy v && negb _).
  - rewrite dedup_loop_cons.
    destruct (truthy (locator r)) eqn:Ht; cbn [andb];
      [destruct (decide (locator r ∈ seen)) as [Hs|Hs]|].
    + (* seen before: dropped *)
      rewrite (bool_decide_eq_true_2 _ Hs). cbn [negb]. rewrite IH.
      destruct (decide (locator r = v)) as [Heq|Hne].
      * subst v. rewrite (bool_decide_eq_true_2 _ Hs).
        by rewrite andb_false_r.
      * by rewrite (filter_cons_False (λ x, locator x = v) _ _ Hne).
    + (* first record with this locator: kept *)
      rewrite (bool_decide_eq_false_2 _ Hs). cbn [negb].
      destruct (decide (locator r = v)) as [Heq|Hne].
      * rewrite !(filter_cons_True (λ x, locator x = v) _ _ Heq), IH. subst v.
        rewrite Ht, (bool_decide_eq_false_2 _ Hs).
        rewrite bool_decide_eq_true_2;
          [|apply elem_of_union; left; by apply elem_of_singleton].
        by rewrite andb_false_r.
      * rewrite !(filter_cons_False (λ x, locator x = v) _ _ Hne), IH.
        destruct (truthy v); cbn [andb]; [|done].
        destruct (decide (v ∈ seen)) as [Hin|Hnin].
        -- rewrite (bool_decide_eq_true_2 _ Hin).
           rewrite bool_decide_eq_true_2; [done|].
           apply elem_of_union. by right.
        -- rewrite (bool_decide_eq_false_2 _ Hnin).
           rewrite bool_decide_eq_false_2; [done|].
           rewrite elem_of_union, elem_of_singleton.
           intros [?|?]; congruence.
    + (* no locator: dropped *)
      rewrite IH.
      destruct (decide (locator r = v)) as [Heq|Hne].
      * subst v. by rewrite Ht.
      * by rewrite (filter_cons_False (λ x, locator x = v) _ _ Hne).
Qed.

Lemma dedup_loop_sublist l seen : dedup_loop l [] seen `sublist_of` l.
Proof.
  revert seen. induction l as [|r l IH]; intros seen.
  - constructor.
  - rewrite dedup_loop_cons. destruct (truthy _ && negb _).
    + by apply sublist_skip.
    + by apply sublist_cons.
Qed.

Lemma dedup_loop_truthy l seen :
  Forall (λ r, truthy (locator r) = true) (dedup_loop l [] seen).
Proof.
  revert seen. induction l as [|r l IH]; intros seen.
  - constructor.
  - rewrite dedup_loop_cons.
    destruct (truthy (locator r)) eqn:Ht; simpl; [|apply IH].
    destruct (negb _); [|apply IH]. constructor; [done|apply IH].
Qed.

(** The first record of [l] with locator [v]. *)
Lemma first_with_locator v l :
  v ∈ (locator <$> l) →
  ∃ l1 r l2, l = l1 ++ r :: l2 ∧ locator r = v ∧ (v ∉ locator <$> l1) ∧
             take 1 (filter (λ x, locator x = v) l) = [r].
Proof.
  induction l as [|x l IH]; intros Hin.
  - by apply elem_of_nil in Hin.
  - destruct (decide (locator x = v)) as [Heq|Hne].
    + exists [], x, l. split_and!; [done|done|apply not_elem_of_nil|].
      by rewrite (filter_cons_True (λ x, locator x = v) _ _ Heq).
    + rewrite fmap_cons in Hin. apply elem_of_cons in Hin as [Hv|Hin];
        [congruence|].
      destruct (IH Hin) as (l1 & r & l2 & -> & Hr & Hl1 & Htake).
      exists (x :: l1), r, l2. split_and!; [done|done| |].
      * rewrite fmap_cons. intros [?|?]%elem_of_cons; [congruence|done].
      * by rewrite (filter_cons_False (λ x, locator x = v) _ _ Hne).
Qed.

End Dedup.

(** ** Effects *)

Section Effects.

Context {S : Type}.

Lemma never_raises_ret {A} (a : A) : never_raises (ret (S:=S) a).
Proof. intros s. by exists a, s. Qed.

Lemma never_raises_bind {A B} (m : M S A) (k : A → M S B) :
  never_raises m → (∀ a, never_raises (k a)) → never_raises (bind m k).
Proof.
  intros Hm Hk s. unfold bind.
  destruct (Hm s) as (a & s1 & ->). apply Hk.
Qed.

(** A [try] whose handler cannot raise contains every exception of its
    body. *)
Lemma never_raises_try {A} (body : M S A) (handler : exn → M S A) :
  (∀ e, never_raises (handler e)) → never_raises (try_except body handler).
Proof.
  intros Hh s. unfold try_except.
  destruct (body s) as [[a|e] s1]; [by exists a, s1|apply Hh].
Qed.

Lemma never_raises_for_each {A} (xs : list A) (body : A → M S unit) :
  (∀ x, never_raises (body x)) → never_raises (for_each xs body).
Proof.
  intros Hb. induction xs as [|x xs IH]; simpl.
  - apply never_raises_ret.
  - apply never_raises_bind; [apply Hb|done].
Qed.

Lemma try_except_Return {A} (body : M S A) (handler : exn → M S A) s a s' :
  try_except body handler s = (Return a, s') →
  body s = (Return a, s') ∨
  ∃ e s1, body s = (Raised e, s1) ∧ handler e s1 = (Return a, s').
Proof.
  unfold try_except. destruct (body s) as [[b|e] s1]; [by left|].
  intros Hh. right. by exists e, s1.
Qed.

End Effects.

Section Frames.

Context {W : Type}.
Implicit Types (P : info → Prop).

Lemma never_raises_lift {A} (m : M W A) :
  never_raises m → never_raises (lift m).
Proof.
  intros Hm fr. unfold lift.
  destruct (Hm (world fr)) as (a & w' & ->). by eexists _, _.
Qed.

Lemma never_raises_append (x : info) : never_raises (append_found (W:=W) x).
Proof. intros fr. by eexists _, _. Qed.

Lemma appends_ret {A} P (a : A) : appends (W:=W) P (ret a).
Proof. intros fr. exists []. by rewrite app_nil_r. Qed.

Lemma appends_lift {A} P (m : M W A) : appends P (lift m).
Proof.
  intros fr. exists []. unfold lift.
  destruct (m (world fr)) as [r w']. by rewrite app_nil_r.
Qed.

Lemma appends_append P (x : info) : P x → appends (W:=W) P (append_found x).
Proof. intros Hx fr. exists [x]. split; [done|by constructor]. Qed.

(** Sequencing, when the continuation is only known to behave on the
    values the first computation can return. *)
Lemma appends_bind {A B} P (Q : A → Prop) (m : M (frame W) A)
  (k : A → M (frame W) B) :
  appends P m → returns_only m Q → (∀ a, Q a → appends P (k a)) →
  appends P (bind m k).
Proof.
  intros Hm HQ Hk fr. unfold bind.
  destruct (Hm fr) as (l1 & H1 & HP1).
  destruct (m fr) as [[a|e] fr1] eqn:Hrun; simpl in H1.
  - destruct (Hk a (HQ _ _ _ Hrun) fr1) as (l2 & H2 & HP2).
    exists (l1 ++ l2). rewrite H2, H1, app_assoc.
    split; [done|by apply Forall_app].
  - by exists l1.
Qed.

Lemma appends_bind_any {A B} P (m : M (frame W) A)
  (k : A → M (frame W) B) :
  appends P m → (∀ a, appends P (k a)) → appends P (bind m k).
Proof.
  intros Hm Hk. apply (appends_bind P (λ _, True)); [done|done|auto].
Qed.

Lemma appends_try {A} P (body : M (frame W) A)
  (handler : exn → M (frame W) A) :
  appends P body → (∀ e, appends P (handler e)) →
  appends P (try_except body handler).
Proof.
  intros Hb Hh fr. unfold try_except.
  destruct (Hb fr) as (l1 & H1 & HP1).
  destruct (body fr) as [[a|e] fr1]; simpl in H1.
  - by exists l1.
  - destruct (Hh e fr1) as (l2 & H2 & HP2).
    exists (l1 ++ l2). rewrite H2, H1, app_assoc.
    split; [done|by apply Forall_app].
Qed.

Lemma appends_for_each {A} P (xs : list A) (body : A → M (frame W) unit) :
  (∀ x, appends P (body x)) → appends P (for_each xs body).
Proof.
  intros Hb. induction xs as [|x xs IH]; simpl.
  - apply appends_ret.
  - apply appends_bind_any; [apply Hb|done].
Qed.

End Frames.

(** ** The candidate scorer *)

(** Case analysis on the next driver call of the goal. *)
Ltac next_access :=
  match goal with
  | |- context [is_displayed ?d ?e ?s] =>
      destruct (is_displayed d e s) as [[[]|?] ?] eqn:?
  | |- context [is_enabled ?d ?e ?s] =>
      destruct (is_enabled d e s) as [[[]|?] ?] eqn:?
  | |- context [if PyStr.truthy ?t then _ else _] =>
      destruct (PyStr.truthy t) eqn:?
  | |- context [text ?d ?e ?s] =>
      destruct (text d e s) as [[?|?] ?] eqn:?
  | |- context [tag_name ?d ?e ?s] =>
      destruct (tag_name d e s) as [[?|?] ?] eqn:?
  | |- context [get_attribute ?d ?e ?n ?s] =>
      destruct (get_attribute d e n s) as [[?|?] ?] eqn:?
  | |- context [execute_script ?d ?sc ?e ?s] =>
      destruct (execute_script d sc e s) as [[?|?] ?] eqn:?
  end; cbn [negb].

Section Scorer.

Context {W elem : Type}.
Variable driver : WebDriver W elem.
Variable partial_ratio : string → string → Z.
Variable self : InteractionElementFinder.

Abbreviation scorer :=
  (_is_likely_interaction_element driver partial_ratio self).
Abbreviation read := (read_signals driver).
Abbreviation score := (score_signals partial_ratio self).

(** The scorer first reads, then decides. *)
Lemma scorer_body_factored element s :
  scorer_body driver partial_ratio self element s =
  bind (read element)
    (λ o, ret (match o with None => false | Some v => score v end)) s.
Proof.
  unfold scorer_body, read_signals, score_signals, bind, ret.
  repeat (try reflexivity; next_access).
Qed.

Lemma scorer_of_signals element s v s' :
  read element s = (Return (Some v), s') →
  scorer element s = (Return (score v), s').
Proof.
  intros Hr. unfold _is_likely_interaction_element, try_except.
  rewrite scorer_body_factored. unfold bind. by rewrite Hr.
Qed.

Lemma scorer_of_rejected element s s' :
  read element s = (Return None, s') →
  scorer element s = (Return false, s').
Proof.
  intros Hr. unfold _is_likely_interaction_element, try_except.
  rewrite scorer_body_factored. unfold bind. by rewrite Hr.
Qed.

Lemma scorer_of_raised element s e s' :
  read element s = (Raised e, s') →
  scorer element s = (Return false, s').
Proof.
  intros Hr. unfold _is_likely_interaction_element, try_except.
  rewrite scorer_body_factored. unfold bind. by rewrite Hr.
Qed.

Lemma scorer_never_raises element : never_raises (scorer element).
Proof. apply never_raises_try. intros _. apply never_raises_ret. Qed.

(** An accepted element was visible and enabled, all its reads
    succeeded and the decision on the values read was positive. *)
Lemma scorer_accepts_inv element s s' :
  scorer element s = (Return true, s') →
  ∃ v, read element s = (Return (Some v), s') ∧ score v = true.
Proof.
  destruct (read element s) as [[[v|]|e] s1] eqn:Hr.
  - rewrite (scorer_of_signals _ _ _ _ Hr). intros [= Hv <-]. by exists v.
  - by rewrite (scorer_of_rejected _ _ _ Hr).
  - by rewrite (scorer_of_raised _ _ _ _ Hr).
Qed.

Lemma keyword_loop_not_clickable keywords combined_text :
  keyword_loop partial_ratio self keywords combined_text false = false.
Proof.
  induction keywords as [|k ks IH]; simpl; [done|].
  by rewrite andb_false_r.
Qed.

Lemma keyword_loop_true keywords combined_text clickable :
  keyword_loop partial_ratio self keywords combined_text clickable = true ↔
  clickable = true ∧
  ∃ keyword, keyword ∈ keywords ∧
    (similarity_threshold self ≤
       partial_ratio (PyStr.lower keyword) combined_text)%Z.
Proof.
  induction keywords as [|k ks IH]; simpl.
  - split; [done|]. intros (_ & k & Hk & _). by apply elem_of_nil in Hk.
  - destruct (similarity_threshold self <=? _)%Z eqn:Hle; simpl.
    + apply Z.leb_le in Hle. destruct clickable; simpl.
      * split; [|done]. intros _. split; [done|].
        exists k. split; [by left|done].
      * rewrite IH. split; [by intros [? _]|by intros [? _]].
    + apply Z.leb_gt in Hle. rewrite IH. split.
      * intros (Hc & k' & Hk' & Hs). split; [done|].
        exists k'. split; [by right|done].
      * intros (Hc & k' & Hk' & Hs). split; [done|].
        exists k'. split; [|done].
        apply elem_of_cons in Hk' as [->|?]; [lia|done].
Qed.

End Scorer.

(** ** Records *)

(** Closed statements are settled by evaluating their decision
    procedure. *)
Ltac by_evaluation := apply (bool_decide_unpack _); vm_compute; exact I.

Section Records.

Implicit Types (r : info) (v : value).

Lemma full_info_locator t g c i a ti h x cs term ty :
  locator (full_info t g c i a ti h x cs term ty) = x.
Proof. reflexivity. Qed.

Lemma full_info_match_type t g c i a ti h x cs term ty :
  full_info t g c i a ti h x cs term ty !! "match_type" = Some (VStr ty).
Proof. reflexivity. Qed.

Lemma full_info_xpath t g c i a ti h x cs term ty :
  full_info t g c i a ti h x cs term ty !! "element_xpath" = Some x.
Proof. reflexivity. Qed.

Lemma full_info_error t g c i a ti h x cs term ty :
  full_info t g c i a ti h x cs term ty !! "error" = None.
Proof. reflexivity. Qed.

Lemma full_info_dom t g c i a ti h x cs term ty :
  dom (full_info t g c i a ti h x cs term ty) = record_keys.
Proof. by_evaluation. Qed.

Lemma error_info_locator e term ty :
  locator (error_info e term ty) = VStr EmptyString.
Proof. reflexivity. Qed.

Lemma error_info_match_type e term ty :
  error_info e term ty !! "match_type" = Some (VStr ty).
Proof. reflexivity. Qed.

Lemma created_as_match_type ty r :
  created_as ty r → r !! "match_type" = Some (VStr ty).
Proof.
  intros (term & [(t & g & c & i & a & ti & h & x & cs & ->)|(e & ->)]).
  - apply full_info_match_type.
  - apply error_info_match_type.
Qed.

(** A created record that carries a locator is a complete record. *)
Lemma created_as_truthy ty r :
  created_as ty r → truthy (locator r) = true →
  (∃ s, r !! "element_xpath" = Some (VStr s) ∧ s ≠ EmptyString) ∧
  dom r = record_keys ∧ r !! "error" = None.
Proof.
  intros (term & [(t & g & c & i & a & ti & h & x & cs & ->)|(e & ->)]).
  - rewrite full_info_locator. intros Hx. split_and!.
    + destruct x as [|s]; [done|]. exists s.
      split; [apply full_info_xpath|]. by destruct s.
    + apply full_info_dom.
    + apply full_info_error.
  - by rewrite error_info_locator.
Qed.

End Records.

(** ** Record creation and the four strategies *)

Section Discovery.

Context {W elem : Type}.
Variable driver : WebDriver W elem.
Variable partial_ratio : string → string → Z.
Variable self : InteractionElementFinder.

Lemma create_never_raises element term ty :
  never_raises (_create_element_info driver element term ty).
Proof. apply never_raises_try. intros e. apply never_raises_ret. Qed.

(** The [try] block returns a complete record whose locator is the
    script result, or "Unknown" when the script raises. *)
Lemma create_body_returns element term ty s r s' :
  create_body driver element term ty s = (Return r, s') →
  ∃ t g c i a ti h x cs, r = full_info t g c i a ti h x cs term ty.
Proof.
  unfold create_body, _generate_xpath, _generate_css_selector, bind,
    try_except, ret.
  repeat next_access; intros [= <- <-] || discriminate; by eexists _, _, _, _, _, _, _, _, _.
Qed.

Lemma create_returns element term ty :
  returns_only (_create_element_info driver element term ty) (created_as ty).
Proof.
  intros s r s' [Hb|(e & s1 & _ & Hh)]%try_except_Return; exists term.
  - left. by apply create_body_returns in Hb.
  - right. exists e. unfold ret in Hh. congruence.
Qed.

Lemma returns_only_lift {A} (m : M W A) (Q : A → Prop) :
  returns_only m Q → returns_only (lift m) Q.
Proof.
  intros Hm fr a fr'. unfold lift.
  destruct (m (world fr)) as [r w'] eqn:Hrun. intros [= -> <-].
  by apply (Hm _ _ _ Hrun).
Qed.

Lemma consider_appends element term ty :
  appends (created_as ty) (consider driver partial_ratio self element term ty).
Proof.
  unfold consider. apply appends_bind_any; [apply appends_lift|].
  intros [|]; [|apply appends_ret].
  apply (appends_bind _ (created_as ty)).
  - apply appends_lift.
  - apply returns_only_lift, create_returns.
  - intros r Hr. by apply appends_append.
Qed.

Lemma consider_never_raises element term ty :
  never_raises (consider driver partial_ratio self element term ty).
Proof.
  unfold consider. apply never_raises_bind.
  - apply never_raises_lift, scorer_never_raises.
  - intros [|]; [|apply never_raises_ret].
    apply never_raises_bind.
    + apply never_raises_lift, create_never_raises.
    + intros r. apply never_raises_append.
Qed.

Lemma keyword_strategy_appends :
  appends (created_as "keyword_match")
    (keyword_strategy driver partial_ratio self).
Proof.
  apply appends_for_each. intros keyword.
  apply appends_bind_any; [apply appends_lift|]. intros elements.
  apply appends_for_each. intros element. apply consider_appends.
Qed.

Lemma selector_strategy_appends :
  appends (created_as "selector_match")
    (selector_strategy driver partial_ratio self).
Proof.
  apply appends_for_each. intros selector. apply appends_try.
  - apply appends_bind_any; [apply appends_lift|]. intros elements.
    apply appends_for_each. intros element. apply consider_appends.
  - intros e. apply appends_ret.
Qed.

Lemma svg_strategy_appends :
  appends (created_as "svg_match") (svg_strategy driver partial_ratio self).
Proof.
  apply appends_bind_any; [apply appends_lift|]. intros elements.
  apply appends_for_each. intros element. apply consider_appends.
Qed.

Lemma counter_strategy_appends :
  appends (created_as "counter_match")
    (counter_strategy driver partial_ratio self).
Proof.
  apply appends_bind_any; [apply appends_lift|]. intros elements.
  apply appends_for_each. intros element.
  apply appends_bind_any; [apply appends_lift|]. intros parent.
  apply consider_appends.
Qed.

(** The selector strategy contains every exception of its queries. *)
Lemma selector_strategy_never_raises :
  never_raises (selector_strategy driver partial_ratio self).
Proof.
  apply never_raises_for_each. intros selector.
  apply never_raises_try. intros e. apply never_raises_ret.
Qed.

(** When the XPath queries and the parent lookups of the driver cannot
    raise, nothing else can make the discovery raise: the scorer, the
    record builder and the selector queries contain their exceptions. *)
Lemma find_never_raises :
  (∀ q, never_raises (find_elements driver XPATH q)) →
  (∀ element q, never_raises (find_element driver element XPATH q)) →
  never_raises (find_interaction_elements driver partial_ratio self).
Proof.
  intros Hq Hp.
  assert (never_raises (keyword_strategy driver partial_ratio self)) as Hkw.
  { apply never_raises_for_each. intros keyword.
    apply never_raises_bind; [apply never_raises_lift, Hq|].
    intros elements. apply never_raises_for_each. intros x.
    apply consider_never_raises. }
  assert (never_raises (svg_strategy driver partial_ratio self)) as Hsvg.
  { apply never_raises_bind; [apply never_raises_lift, Hq|].
    intros elements. apply never_raises_for_each. intros x.
    apply consider_never_raises. }
  assert (never_raises (counter_strategy driver partial_ratio self)) as Hcnt.
  { apply never_raises_bind; [apply never_raises_lift, Hq|].
    intros elements. apply never_raises_for_each. intros x.
    apply never_raises_bind; [apply never_raises_lift, Hp|].
    intros parent. apply consider_never_raises. }
  assert (never_raises (discover driver partial_ratio self)) as Hd.
  { unfold discover.
    apply never_raises_bind; [exact Hkw|intros _].
    apply never_raises_bind; [apply selector_strategy_never_raises|intros _].
    apply never_raises_bind; [exact Hsvg|intros _]. exact Hcnt. }
  intros w. unfold find_interaction_elements.
  destruct (Hd (Frame w [])) as ([] & fr & ->). by eexists _, _.
Qed.

(** The list handed to deduplication holds the records of the four
    strategies, in the order keyword, selector, svg, counter. *)
Lemma discover_found w :
  ∃ kw sel svg cnt,
    found_elements (snd (discover driver partial_ratio self (Frame w []))) =
      kw ++ sel ++ svg ++ cnt ∧
    Forall (created_as "keyword_match") kw ∧
    Forall (created_as "selector_match") sel ∧
    Forall (created_as "svg_match") svg ∧
    Forall (created_as "counter_match") cnt.
Proof.
  unfold discover, bind.
  destruct (keyword_strategy_appends (Frame w [])) as (kw & E1 & H1).
  destruct (keyword_strategy _ _ _ _) as [[[]|e] fr1]; cbn [snd] in *;
    [|exists kw, [], [], []; rewrite !app_nil_r; by split_and!].
  destruct (selector_strategy_appends fr1) as (sel & E2 & H2).
  destruct (selector_strategy _ _ _ _) as [[[]|e] fr2]; cbn [snd] in *;
    [|exists kw, sel, [], []; rewrite !app_nil_r, E2, E1; by split_and!].
  destruct (svg_strategy_appends fr2) as (svg & E3 & H3).
  destruct (svg_strategy _ _ _ _) as [[[]|e] fr3]; cbn [snd] in *;
    [|exists kw, sel, svg, []; rewrite !app_nil_r, E3, E2, E1, <- app_assoc;
      by split_and!].
  destruct (counter_strategy_appends fr3) as (cnt & E4 & H4).
  exists kw, sel, svg, cnt. rewrite E4, E3, E2, E1, <- !app_assoc.
  by split_and!.
Qed.

Lemma find_returns w out w' :
  find_interaction_elements driver partial_ratio self w = (Return out, w') →
  out = _deduplicate_elements
          (found_elements
             (snd (discover driver partial_ratio self (Frame w [])))).
Proof.
  unfold find_interaction_elements.
  destruct (discover _ _ _ _) as [[[]|e] fr]; [|done].
  by intros [= <- _].
Qed.

(** Every record returned was created by one of the strategies and
    carries a locator. *)
Lemma find_returns_created w out w' r :
  find_interaction_elements driver partial_ratio self w = (Return out, w') →
  r ∈ out →
  truthy (locator r) = true ∧
  ∃ ty, ty ∈ strategy_tags ∧ created_as ty r.
Proof.
  intros -> %find_returns Hr. split.
  - pose proof (dedup_loop_truthy
                  (found_elements
                     (snd (discover driver partial_ratio self (Frame w []))))
                  ∅) as Ht.
    rewrite Forall_forall in Ht. by apply Ht.
  - apply (λ H, elem_of_sublist _ _ _ H (dedup_loop_sublist _ ∅)) in Hr.
    destruct (discover_found w) as (kw & sel & svg & cnt & E & H1 & H2 & H3 & H4).
    rewrite E in Hr. rewrite Forall_forall in H1, H2, H3, H4.
    rewrite !elem_of_app in Hr. unfold strategy_tags.
    destruct Hr as [?|[?|[?|?]]].
    + exists "keyword_match". split; [set_solver|auto].
    + exists "selector_match". split; [set_solver|auto].
    + exists "svg_match". split; [set_solver|auto].
    + exists "counter_match". split; [set_solver|auto].
Qed.

End Discovery.

(** ** The similarity model *)

Lemma ratio_nonneg a b : (0 ≤ Fuzz.ratio a b)%Z.
Proof. unfold Fuzz.ratio. apply Z_div_nonneg_nonneg; lia. Qed.

Lemma best_window_nonneg shorter longer shifts :
  (0 ≤ Fuzz.best_window shorter longer shifts)%Z.
Proof.
  revert longer. induction shifts as [|n IH]; intros longer.
  - exact (ratio_nonneg shorter (take (length shorter) longer)).
  - destruct longer as [|c rest];
      [exact (ratio_nonneg shorter (take (length shorter) []))|].
    change (0 ≤ Z.max (Fuzz.ratio shorter (take (length shorter) (c :: rest)))
                  (Fuzz.best_window shorter rest n))%Z.
    pose proof (IH rest). lia.
Qed.

Lemma partial_ratio_nonneg s1 s2 : (0 ≤ Fuzz.partial_ratio s1 s2)%Z.
Proof.
  unfold Fuzz.partial_ratio.
  destruct (String.eqb s1 s2); [lia|].
  destruct (_ || _); [lia|].
  destruct (_ <=? _)%nat; apply best_window_nonneg.
Qed.

Example partial_ratio_like_liked :
  Fuzz.partial_ratio "like" "liked" = 100%Z ∧
  Fuzz.partial_ratio "like" "liked    " = 100%Z.
Proof. split; reflexivity. Qed.

(** ** First occurrences *)

Section FirstSeen.

Implicit Types (l a b : list info) (v : value).

Lemma filter_locator_nil v a :
  v ∉ (locator <$> a) → filter (λ x, locator x = v) a = [].
Proof.
  induction a as [|x a IH]; [done|]. rewrite fmap_cons, not_elem_of_cons.
  intros [Hx Ha]. rewrite filter_cons_False by congruence. auto.
Qed.

Lemma take1_filter_app_r v a b :
  v ∉ (locator <$> a) →
  take 1 (filter (λ x, locator x = v) (a ++ b)) =
  take 1 (filter (λ x, locator x = v) b).
Proof. intros Ha. by rewrite filter_app, filter_locator_nil. Qed.

Lemma take1_filter_app_l v a b :
  v ∈ (locator <$> a) →
  take 1 (filter (λ x, locator x = v) (a ++ b)) =
  take 1 (filter (λ x, locator x = v) a).
Proof.
  intros Ha. rewrite filter_app.
  destruct (first_with_locator v a Ha) as (l1 & r & l2 & _ & _ & _ & Hr).
  destruct (filter (λ x, locator x = v) a); [done|done].
Qed.

Lemma take1_filter_elem v a r :
  take 1 (filter (λ x, locator x = v) a) = [r] → r ∈ a.
Proof.
  intros Hr.
  assert (r ∈ filter (λ x, locator x = v) a) as Hin.
  { destruct (filter (λ x, locator x = v) a) as [|y ys]; [done|].
    injection Hr as ->. by left. }
  by apply list_elem_of_filter in Hin as [_ ?].
Qed.

(** Deduplication of any list: for a non-empty locator that occurs in
    it, exactly the first record carrying it is kept. *)
Lemma deduplicate_keeps_first (elements : list info) v :
  truthy v = true →
  v ∈ (locator <$> elements) →
  ∃ l1 r l2,
    elements = l1 ++ r :: l2 ∧ locator r = v ∧ (v ∉ locator <$> l1) ∧
    filter (λ x, locator x = v) (_deduplicate_elements elements) = [r].
Proof.
  intros Hv Hin.
  destruct (first_with_locator v _ Hin) as (l1 & r & l2 & El & Hr & Hl1 & Htake).
  exists l1, r, l2. split_and!; [done|done|done|].
  unfold _deduplicate_elements. rewrite dedup_loop_filter, Hv.
  by rewrite bool_decide_eq_false_2 by apply not_elem_of_empty.
Qed.

(** Records without a locator are dropped, and nothing is added or
    reordered. *)
Lemma deduplicate_drops_empty (elements : list info) :
  Forall (λ r, truthy (locator r) = true) (_deduplicate_elements elements) ∧
  _deduplicate_elements elements `sublist_of` elements.
Proof. split; [apply dedup_loop_truthy|apply dedup_loop_sublist]. Qed.

(** In a list that holds the records of the four strategies in their
    order, the first record with a locator comes from the earliest
    strategy that produced one. *)
Lemma first_record_tag v kw sel svg cnt r :
  Forall (created_as "keyword_match") kw →
  Forall (created_as "selector_match") sel →
  Forall (created_as "svg_match") svg →
  Forall (created_as "counter_match") cnt →
  take 1 (filter (λ x, locator x = v) (kw ++ sel ++ svg ++ cnt)) = [r] →
  r !! "match_type" = Some (VStr (earliest_tag v kw sel svg cnt)).
Proof.
  rewrite !Forall_forall. intros H1 H2 H3 H4 Hr. unfold earliest_tag.
  case_bool_decide as Hkw.
  { rewrite take1_filter_app_l in Hr by done.
    by apply created_as_match_type, H1, (take1_filter_elem v). }
  rewrite take1_filter_app_r in Hr by done.
  case_bool_decide as Hsel.
  { rewrite take1_filter_app_l in Hr by done.
    by apply created_as_match_type, H2, (take1_filter_elem v). }
  rewrite take1_filter_app_r in Hr by done.
  case_bool_decide as Hsvg.
  { rewrite take1_filter_app_l in Hr by done.
    by apply created_as_match_type, H3, (take1_filter_elem v). }
  rewrite take1_filter_app_r in Hr by done.
  by apply created_as_match_type, H4, (take1_filter_elem v).
Qed.

End FirstSeen.

(** * The claims *)

(** The discovery on the page of the spec's scenario: one record, for
    the button, created by the keyword strategy; the span is rejected by
    the scorer. *)
Example vote_page_discovery :
  find_interaction_elements (static_driver vote_page) Fuzz.partial_ratio
    (new_finder 70) tt =
    (Return
       [ full_info "▲ 128" "button" "vote-up" EmptyString
           "upvote this post" EmptyString (VStr "<button>...</button>")
           (VStr "/html/body/button[1]") (VStr "html > body > button")
           "upvote" "keyword_match" ], tt).
Proof. by_evaluation. Qed.


(** The same on a static page, where the markup read of
    [_create_element_info] is the access that raises. *)
Example stale_markup_records_are_dropped :
  find_elements (static_driver stale_markup_page) XPATH
    (keyword_query "like") tt = (Return [0%nat], tt) ∧
  find_elements (static_driver stale_markup_page) CSS_SELECTOR
    "button" tt = (Return [0%nat], tt) ∧
  _is_likely_interaction_element (static_driver stale_markup_page)
    Fuzz.partial_ratio (new_finder 70) 0%nat tt = (Return true, tt) ∧
  found_elements
    (snd (discover (static_driver stale_markup_page) Fuzz.partial_ratio
            (new_finder 70) (Frame tt []))) =
    [ error_info stale "like" "keyword_match";
      error_info stale "button" "selector_match" ] ∧
  find_interaction_elements (static_driver stale_markup_page)
    Fuzz.partial_ratio (new_finder 70) tt = (Return [], tt).
Proof. by_evaluation. Qed.



(** For every input list, of all the records whose structural locator
    is the placeholder "Unknown" deduplication keeps the first only. *)
Lemma unknown_records_keep_first (elements : list info) :
  filter (λ r, locator r = VStr "Unknown") (_deduplicate_elements elements) =
  take 1 (filter (λ r, locator r = VStr "Unknown") elements).
Proof.
  unfold _deduplicate_elements. rewrite dedup_loop_filter.
  by rewrite bool_decide_eq_false_2 by apply not_elem_of_empty.
Qed.

(** C2: a page with two different buttons, "like" and "share".  With
    working locator scripts the finder returns a record for each.  When
    the scripts fail, [_create_element_info] still builds a record for
    each button, with the placeholder "Unknown" in place of the locators,
    and the crawler treats the placeholder as no locator; but
    deduplication takes the placeholder for the element's identity and
    keeps the first record only: the "share" button is lost, although
    the claim keeps every record whose locator is "Unknown". *)
Theorem C2_different_buttons_are_merged :
  find_interaction_elements (static_driver two_button_page)
    Fuzz.partial_ratio (new_finder 70) tt =
    (Return
       [ full_info "like" "button" EmptyString EmptyString EmptyString
           EmptyString (VStr "<button>like</button>")
           (VStr "/html/body/button[1]") (VStr "html > body > button")
           "like" "keyword_match";
         full_info "share" "button" EmptyString EmptyString EmptyString
           EmptyString (VStr "<button>share</button>")
           (VStr "/html/body/button[2]")
           (VStr "html > body > button:nth-of-type(2)")
           "share" "keyword_match" ], tt) ∧
  found_elements
    (snd (discover (static_driver two_button_no_locator_page)
            Fuzz.partial_ratio (new_finder 70) (Frame tt []))) =
    [ full_info "like" "button" EmptyString EmptyString EmptyString
        EmptyString (VStr "<button>like</button>") (VStr "Unknown")
        (VStr "Unknown") "like" "keyword_match";
      full_info "share" "button" EmptyString EmptyString EmptyString
        EmptyString (VStr "<button>share</button>") (VStr "Unknown")
        (VStr "Unknown") "share" "keyword_match";
      full_info "like" "button" EmptyString EmptyString EmptyString
        EmptyString (VStr "<button>like</button>") (VStr "Unknown")
        (VStr "Unknown") "button" "selector_match";
      full_info "share" "button" EmptyString EmptyString EmptyString
        EmptyString (VStr "<button>share</button>") (VStr "Unknown")
        (VStr "Unknown") "button" "selector_match" ] ∧
  find_interaction_elements (static_driver two_button_no_locator_page)
    Fuzz.partial_ratio (new_finder 70) tt =
    (Return
       [ full_info "like" "button" EmptyString EmptyString EmptyString
           EmptyString (VStr "<button>like</button>") (VStr "Unknown")
           (VStr "Unknown") "like" "keyword_match" ], tt) ∧
  usable_locator (VStr "Unknown") = false.
Proof. split_and!; by_evaluation. Qed.

(** C3: two inputs on which a failure inside one strategy leaves
    [find_interaction_elements].  First, the GUI has extended the
    catalogue with the keyword "don't like" and the engine rejects the
    XPath query built from it: the keyword strategy has no handler
    around its query, the record already gathered for the button is lost
    and the selector, svg and counter strategies never run, although the
    same page without the extra keyword yields the button.  Second, a
    counter span is stale when the counter strategy asks for its parent:
    the records gathered by the keyword and selector strategies are
    lost. *)
Theorem C3_query_errors_propagate :
  (find_interaction_elements (static_driver apostrophe_page)
     Fuzz.partial_ratio (extend_keywords (new_finder 70) ["don't like"]) tt =
     (Raised invalid_selector, tt) ∧
   found_elements
     (snd (discover (static_driver apostrophe_page) Fuzz.partial_ratio
             (extend_keywords (new_finder 70) ["don't like"])
             (Frame tt []))) =
     [ full_info "like" "button" EmptyString EmptyString EmptyString
         EmptyString (VStr "<button>like</button>")
         (VStr "/html/body/button[1]") (VStr "html > body > button")
         "like" "keyword_match" ] ∧
   find_interaction_elements (static_driver apostrophe_page)
     Fuzz.partial_ratio (new_finder 70) tt =
     (Return
        [ full_info "like" "button" EmptyString EmptyString EmptyString
            EmptyString (VStr "<button>like</button>")
            (VStr "/html/body/button[1]") (VStr "html > body > button")
            "like" "keyword_match" ], tt)) ∧
  (find_interaction_elements (static_driver stale_counter_page)
     Fuzz.partial_ratio (new_finder 70) tt = (Raised stale, tt) ∧
   found_elements
     (snd (discover (static_driver stale_counter_page) Fuzz.partial_ratio
             (new_finder 70) (Frame tt []))) =
     [ full_info "like" "button" EmptyString EmptyString EmptyString
         EmptyString (VStr "<button>like</button>")
         (VStr "/html/body/button[1]") (VStr "html > body > button")
         "like" "keyword_match";
       full_info "like" "button" EmptyString EmptyString EmptyString
         EmptyString (VStr "<button>like</button>")
         (VStr "/html/body/button[1]") (VStr "html > body > button")
         "button" "selector_match" ]).
Proof. by_evaluation. Qed.

Lemma void_raised {W A : Type} (m : M W A) s e s' :
  void m s = (Raised e, s') → m s = (Raised e, s').
Proof.
  unfold void, bind, ret. intros H.
  destruct (m s) as [[a|x] s1]; [discriminate H|].
  by injection H as -> ->.
Qed.

(** C4: the scorer never raises; when its [try] block raises it returns
    false; and when one of the accesses it makes on the element (the
    visibility or enabled-state check, the text, the tag name, an
    attribute) always raises, it returns false from every state. *)
Theorem C4_scorer_contains_exceptions {W elem : Type}
  (driver : WebDriver W elem) (partial_ratio : string → string → Z)
  (self : InteractionElementFinder) (element : elem) :
  never_raises (_is_likely_interaction_element driver partial_ratio self element) ∧
  (∀ s e s',
     scorer_body driver partial_ratio self element s = (Raised e, s') →
     _is_likely_interaction_element driver partial_ratio self element s =
       (Return false, s')) ∧
  (∀ access,
     access ∈ scorer_accesses driver element →
     (∀ s, ∃ e s', access s = (Raised e, s')) →
     ∀ s, ∃ s',
       _is_likely_interaction_element driver partial_ratio self element s =
         (Return false, s')).
Proof.
  split_and!.
  - apply scorer_never_raises.
  - intros s e s' Hb. unfold _is_likely_interaction_element, try_except.
    by rewrite Hb.
  - intros access Hin Hfail s. unfold scorer_accesses in Hin.
    repeat (apply elem_of_cons in Hin as [->|Hin]);
      [..|by apply elem_of_nil in Hin];
      unfold _is_likely_interaction_element, try_except, scorer_body, bind,
        ret;
      repeat next_access;
      try (by eexists);
      exfalso;
      match goal with
      | H : _ = (Return _, _) |- _ =>
          match type of H with
          | ?call ?s0 = _ =>
              destruct (Hfail s0) as (? & ? & Hx);
              apply void_raised in Hx; rewrite Hx in H; discriminate
          end
      end.
Qed.

Lemma C4_scorer_contains_exceptions_witness :
  void (is_displayed (static_driver stale_page) 0%nat) ∈
    scorer_accesses (static_driver stale_page) 0%nat ∧
  (∀ s, ∃ e s',
     void (is_displayed (static_driver stale_page) 0%nat) s = (Raised e, s')) ∧
  ∀ s, ∃ s',
    _is_likely_interaction_element (static_driver stale_page)
      Fuzz.partial_ratio (new_finder 70) 0%nat s = (Return false, s').
Proof.
  split; [apply list_elem_of_here|].
  split; [intros []; by exists stale, tt|].
  apply (proj2 (proj2 (C4_scorer_contains_exceptions
                         (static_driver stale_page) Fuzz.partial_ratio
                         (new_finder 70) 0%nat))
           (void (is_displayed (static_driver stale_page) 0%nat))).
  - apply list_elem_of_here.
  - intros []. by exists stale, tt.
Defined.

(** C5: an element whose tag is none of button, a, input, whose role is
    none of button, link, checkbox, radio and whose class contains
    neither "button" nor "btn" in any case is rejected by the scorer,
    whatever the similarity function, the keywords and the threshold. *)
Theorem C5_clickability_gate {W elem : Type} (driver : WebDriver W elem)
  (partial_ratio : string → string → Z) (self : InteractionElementFinder)
  (element : elem) (s s' : W) (v : signals) :
  read_signals driver element s = (Return (Some v), s') →
  str_in (sg_tag v) clickable_tags = false →
  str_in (sg_role v) clickable_roles = false →
  PyStr.contains "button" (PyStr.lower (sg_class v)) = false →
  PyStr.contains "btn" (PyStr.lower (sg_class v)) = false →
  _is_likely_interaction_element driver partial_ratio self element s =
    (Return false, s').
Proof.
  intros Hr Htag Hrole Hbutton Hbtn.
  rewrite (scorer_of_signals _ _ _ _ _ _ _ Hr). unfold score_signals.
  unfold is_clickable. rewrite Htag, Hrole, Hbutton, Hbtn. simpl.
  by rewrite keyword_loop_not_clickable.
Qed.

Lemma C5_clickability_gate_witness :
  read_signals (static_driver span_page) 0%nat tt =
    (Return (Some (Signals "like" "span" EmptyString EmptyString EmptyString
                     EmptyString EmptyString)), tt) ∧
  Fuzz.partial_ratio "like" (combine_text "like" EmptyString EmptyString
                               EmptyString EmptyString) = 100%Z ∧
  _is_likely_interaction_element (static_driver span_page)
    Fuzz.partial_ratio (new_finder 0) 0%nat tt = (Return false, tt).
Proof.
  split; [by_evaluation|]. split; [by_evaluation|].
  apply (C5_clickability_gate (static_driver span_page) Fuzz.partial_ratio
           (new_finder 0) 0%nat tt tt
           (Signals "like" "span" EmptyString EmptyString EmptyString
              EmptyString EmptyString)); by_evaluation.
Defined.

(** C6: with the keywords and the similarity function fixed, an element
    accepted from a session state at threshold [T'] is accepted from the
    same state at every lower threshold [T]; hence among any elements the
    candidates at [T'] are candidates at [T]. *)
Theorem C6_threshold_monotone {W elem : Type} (driver : WebDriver W elem)
  (partial_ratio : string → string → Z) (keywords : list string)
  (T T' : Z) :
  (T < T')%Z →
  (∀ element s s',
     _is_likely_interaction_element driver partial_ratio
       {| INTERACTION_KEYWORDS := keywords; similarity_threshold := T' |}
       element s = (Return true, s') →
     _is_likely_interaction_element driver partial_ratio
       {| INTERACTION_KEYWORDS := keywords; similarity_threshold := T |}
       element s = (Return true, s')) ∧
  (∀ s (elements : list elem) (element : elem),
     element ∈ filter
       (λ e, accepts driver partial_ratio
               {| INTERACTION_KEYWORDS := keywords;
                  similarity_threshold := T' |} s e = true) elements →
     element ∈ filter
       (λ e, accepts driver partial_ratio
               {| INTERACTION_KEYWORDS := keywords;
                  similarity_threshold := T |} s e = true) elements).
Proof.
  intros HT.
  assert (∀ element s s',
     _is_likely_interaction_element driver partial_ratio
       {| INTERACTION_KEYWORDS := keywords; similarity_threshold := T' |}
       element s = (Return true, s') →
     _is_likely_interaction_element driver partial_ratio
       {| INTERACTION_KEYWORDS := keywords; similarity_threshold := T |}
       element s = (Return true, s')) as Hmono.
  { intros element s s' (v & Hr & Hv)%scorer_accepts_inv.
    rewrite (scorer_of_signals _ _ _ _ _ _ _ Hr). f_equal. f_equal.
    unfold score_signals in *. apply keyword_loop_true.
    apply keyword_loop_true in Hv as (Hc & k & Hk & Hs).
    split; [done|]. exists k. split; [done|]. simpl in *. lia. }
  split; [exact Hmono|].
  intros s elements element [Hacc Hin]%list_elem_of_filter.
  apply list_elem_of_filter. split; [|done].
  unfold accepts in *.
  destruct (_is_likely_interaction_element _ _ _ element s)
    as [[[|]|e] s1] eqn:Hrun in Hacc; try done.
  by rewrite (Hmono _ _ _ Hrun).
Qed.

Lemma C6_threshold_monotone_witness :
  (70 < 100)%Z ∧
  _is_likely_interaction_element (static_driver one_button_page)
    Fuzz.partial_ratio
    {| INTERACTION_KEYWORDS := DEFAULT_INTERACTION_KEYWORDS;
       similarity_threshold := 100 |} 0%nat tt = (Return true, tt) ∧
  _is_likely_interaction_element (static_driver one_button_page)
    Fuzz.partial_ratio
    {| INTERACTION_KEYWORDS := DEFAULT_INTERACTION_KEYWORDS;
       similarity_threshold := 70 |} 0%nat tt = (Return true, tt).
Proof.
  split; [lia|]. split; [by_evaluation|].
  apply (proj1 (C6_threshold_monotone (static_driver one_button_page)
                  Fuzz.partial_ratio DEFAULT_INTERACTION_KEYWORDS 70 100
                  ltac:(lia))).
  by_evaluation.
Defined.

(** At threshold 0 the scorer still rejects a clickable element that is
    hidden: here a button, with a non-empty catalogue and scores that are
    never negative. *)
Lemma C7_counterexample :
  page_tag hidden_button_page 0%nat = Return "button" ∧
  is_clickable "button" EmptyString EmptyString = true ∧
  INTERACTION_KEYWORDS (new_finder 0) ≠ [] ∧
  similarity_threshold (new_finder 0) = 0%Z ∧
  _is_likely_interaction_element (static_driver hidden_button_page)
    Fuzz.partial_ratio (new_finder 0) 0%nat tt = (Return false, tt).
Proof. by_evaluation. Qed.

(** C7 (amended): with threshold 0, a non-empty catalogue and similarity
    scores that are never negative, every clickable element that is
    visible and enabled, and whose text, tag and attributes are read
    without an exception, is accepted by the scorer. *)
Theorem C7_threshold_zero {W elem : Type} (driver : WebDriver W elem)
  (partial_ratio : string → string → Z) (self : InteractionElementFinder)
  (element : elem) (s s' : W) (v : signals) :
  (∀ keyword blob, (0 ≤ partial_ratio keyword blob)%Z) →
  similarity_threshold self = 0%Z →
  INTERACTION_KEYWORDS self ≠ [] →
  read_signals driver element s = (Return (Some v), s') →
  is_clickable (sg_tag v) (sg_role v) (sg_class v) = true →
  _is_likely_interaction_element driver partial_ratio self element s =
    (Return true, s').
Proof.
  intros Hpos HT Hkw Hr Hc.
  rewrite (scorer_of_signals _ _ _ _ _ _ _ Hr). f_equal. f_equal.
  unfold score_signals. apply keyword_loop_true. split; [done|].
  destruct (INTERACTION_KEYWORDS self) as [|k ks]; [done|].
  exists k. split; [by left|]. rewrite HT. apply Hpos.
Qed.

Lemma C7_threshold_zero_witness :
  (∀ keyword blob, (0 ≤ Fuzz.partial_ratio keyword blob)%Z) ∧
  similarity_threshold (new_finder 0) = 0%Z ∧
  INTERACTION_KEYWORDS (new_finder 0) ≠ [] ∧
  read_signals (static_driver one_button_page) 0%nat tt =
    (Return (Some (Signals "like" "button" EmptyString EmptyString
                     EmptyString EmptyString EmptyString)), tt) ∧
  is_clickable "button" EmptyString EmptyString = true ∧
  _is_likely_interaction_element (static_driver one_button_page)
    Fuzz.partial_ratio (new_finder 0) 0%nat tt = (Return true, tt).
Proof.
  split; [exact partial_ratio_nonneg|].
  split; [reflexivity|]. split; [done|]. split; [by_evaluation|].
  split; [reflexivity|].
  apply (C7_threshold_zero (static_driver one_button_page)
           Fuzz.partial_ratio (new_finder 0) 0%nat tt tt
           (Signals "like" "button" EmptyString EmptyString EmptyString
              EmptyString EmptyString)).
  - exact partial_ratio_nonneg.
  - reflexivity.
  - done.
  - by_evaluation.
  - reflexivity.
Defined.

(** C8: at threshold 100, with "like" in the catalogue, a visible,
    enabled, clickable element whose text is "liked" and whose class, id,
    aria-label and title are empty is accepted, provided the partial
    similarity of "like" against its blob is 100.  The blob the scorer
    builds is the text followed by the four separating spaces. *)
Theorem C8_like_matches_liked {W elem : Type} (driver : WebDriver W elem)
  (partial_ratio : string → string → Z) (self : InteractionElementFinder)
  (element : elem) (s s' : W) (v : signals) :
  partial_ratio "like" "liked    " = 100%Z →
  similarity_threshold self = 100%Z →
  "like" ∈ INTERACTION_KEYWORDS self →
  read_signals driver element s = (Return (Some v), s') →
  sg_text v = "liked" →
  sg_class v = EmptyString → sg_id v = EmptyString →
  sg_aria_label v = EmptyString → sg_title v = EmptyString →
  is_clickable (sg_tag v) (sg_role v) (sg_class v) = true →
  _is_likely_interaction_element driver partial_ratio self element s =
    (Return true, s').
Proof.
  intros Hpr HT Hkw Hr Htext Hclass Hid Haria Htitle Hc.
  rewrite (scorer_of_signals _ _ _ _ _ _ _ Hr). f_equal. f_equal.
  unfold score_signals. apply keyword_loop_true. split; [done|].
  exists "like". split; [done|].
  rewrite Htext, Hclass, Hid, Haria, Htitle, HT.
  change (PyStr.lower "like") with "like".
  change (combine_text "liked" EmptyString EmptyString EmptyString EmptyString)
    with "liked    ".
  lia.
Qed.

Lemma C8_like_matches_liked_witness :
  Fuzz.partial_ratio "like" "liked    " = 100%Z ∧
  read_signals (static_driver liked_page) 0%nat tt =
    (Return (Some (Signals "liked" "button" EmptyString EmptyString
                     EmptyString EmptyString EmptyString)), tt) ∧
  _is_likely_interaction_element (static_driver liked_page)
    Fuzz.partial_ratio
    {| INTERACTION_KEYWORDS := ["like"]; similarity_threshold := 100 |}
    0%nat tt = (Return true, tt).
Proof.
  split; [reflexivity|]. split; [by_evaluation|].
  apply (C8_like_matches_liked (static_driver liked_page) Fuzz.partial_ratio
           {| INTERACTION_KEYWORDS := ["like"]; similarity_threshold := 100 |}
           0%nat tt tt
           (Signals "liked" "button" EmptyString EmptyString EmptyString
              EmptyString EmptyString));
    first [reflexivity | apply list_elem_of_here | by_evaluation].
Defined.

(** C9: every record returned by [find_interaction_elements] carries a
    [match_type] that is one of the four strategy tags, hence not empty,
    and it is the tag given by the strategy that created the record. *)
Theorem C9_match_type_is_a_strategy_tag {W elem : Type}
  (driver : WebDriver W elem) (partial_ratio : string → string → Z)
  (self : InteractionElementFinder) (w w' : W) (out : list info) :
  find_interaction_elements driver partial_ratio self w = (Return out, w') →
  Forall (λ r, ∃ ty, r !! "match_type" = Some (VStr ty) ∧
                     ty ∈ strategy_tags ∧ ty ≠ EmptyString ∧
                     created_as ty r) out.
Proof.
  intros Hfind. apply Forall_forall. intros r Hr.
  destruct (find_returns_created _ _ _ _ _ _ _ Hfind Hr)
    as (_ & ty & Hty & Hcreated).
  exists ty. split_and!; [by apply created_as_match_type|done| |done].
  intros ->. unfold strategy_tags in Hty.
  repeat (apply elem_of_cons in Hty as [?|Hty]; [done|]).
  by apply elem_of_nil in Hty.
Qed.

Lemma C9_match_type_is_a_strategy_tag_witness :
  find_interaction_elements (static_driver one_button_page)
    Fuzz.partial_ratio (new_finder 70) tt =
    (Return
       [ full_info "like" "button" EmptyString EmptyString EmptyString
           EmptyString (VStr "<button>like</button>")
           (VStr "/html/body/button[1]") (VStr "html > body > button")
           "like" "keyword_match" ], tt) ∧
  Forall (λ r, ∃ ty, r !! "match_type" = Some (VStr ty) ∧
                     ty ∈ strategy_tags ∧ ty ≠ EmptyString ∧
                     created_as ty r)
    [ full_info "like" "button" EmptyString EmptyString EmptyString
        EmptyString (VStr "<button>like</button>")
        (VStr "/html/body/button[1]") (VStr "html > body > button")
        "like" "keyword_match" ].
Proof.
  split; [by_evaluation|].
  apply (C9_match_type_is_a_strategy_tag (static_driver one_button_page)
           Fuzz.partial_ratio (new_finder 70) tt tt).
  by_evaluation.
Defined.

(** C10: every record returned by [find_interaction_elements] binds
    [element_xpath] to a non-empty string and has exactly the eleven
    record keys; no record built by the exception branch of
    [_create_element_info] is returned. *)
Theorem C10_returned_records_are_complete {W elem : Type}
  (driver : WebDriver W elem) (partial_ratio : string → string → Z)
  (self : InteractionElementFinder) (w w' : W) (out : list info) :
  find_interaction_elements driver partial_ratio self w = (Return out, w') →
  Forall (λ r, (∃ xpath, r !! "element_xpath" = Some (VStr xpath) ∧
                         xpath ≠ EmptyString) ∧
               dom r = record_keys ∧
               ∀ e match_term match_type,
                 r ≠ error_info e match_term match_type) out.
Proof.
  intros Hfind. apply Forall_forall. intros r Hr.
  destruct (find_returns_created _ _ _ _ _ _ _ Hfind Hr)
    as (Ht & ty & _ & Hcreated).
  destruct (created_as_truthy _ _ Hcreated Ht) as (Hx & Hdom & Herr).
  split_and!; [done|done|].
  intros e term ty' ->. rewrite error_info_locator in Ht. discriminate Ht.
Qed.

Lemma C10_returned_records_are_complete_witness :
  find_interaction_elements (static_driver one_button_page)
    Fuzz.partial_ratio (new_finder 70) tt =
    (Return
       [ full_info "like" "button" EmptyString EmptyString EmptyString
           EmptyString (VStr "<button>like</button>")
           (VStr "/html/body/button[1]") (VStr "html > body > button")
           "like" "keyword_match" ], tt) ∧
  Forall (λ r, (∃ xpath, r !! "element_xpath" = Some (VStr xpath) ∧
                         xpath ≠ EmptyString) ∧
               dom r = record_keys ∧
               ∀ e match_term match_type,
                 r ≠ error_info e match_term match_type)
    [ full_info "like" "button" EmptyString EmptyString EmptyString
        EmptyString (VStr "<button>like</button>")
        (VStr "/html/body/button[1]") (VStr "html > body > button")
        "like" "keyword_match" ].
Proof.
  split; [by_evaluation|].
  apply (C10_returned_records_are_complete (static_driver one_button_page)
           Fuzz.partial_ratio (new_finder 70) tt tt).
  by_evaluation.
Defined.

(** * Further properties of the finder *)

(** ** Deduplication *)

Section DedupMore.

Implicit Types (l : list info) (seen : gset value) (v : value).

Lemma dedup_loop_locators v l seen :
  v ∈ (locator <$> dedup_loop l [] seen) ↔
  truthy v = true ∧ (v ∉ seen) ∧ v ∈ (locator <$> l).
Proof.
  revert seen. induction l as [|r l IH]; intros seen.
  - cbn [dedup_loop fmap list_fmap]. rewrite elem_of_nil. tauto.
  - rewrite dedup_loop_cons, !fmap_cons, elem_of_cons.
    destruct (truthy (locator r)) eqn:Ht; cbn [andb].
    + destruct (decide (locator r ∈ seen)) as [Hs|Hs].
      * rewrite (bool_decide_eq_true_2 _ Hs). cbn [negb]. rewrite IH.
        split; [tauto|]. intros (? & ? & [->|?]); tauto.
      * rewrite (bool_decide_eq_false_2 _ Hs). cbn [negb].
        rewrite fmap_cons, elem_of_cons, IH, elem_of_union, elem_of_singleton.
        split.
        -- intros [->|(? & ? & ?)]; tauto.
        -- intros (? & ? & [->|?]); [tauto|].
           destruct (decide (v = locator r)); tauto.
    + rewrite IH. split; [tauto|].
      intros (? & ? & [->|?]); [congruence|tauto].
Qed.

Lemma dedup_loop_NoDup l seen : NoDup (locator <$> dedup_loop l [] seen).
Proof.
  revert seen. induction l as [|r l IH]; intros seen.
  - constructor.
  - rewrite dedup_loop_cons. destruct (truthy _ && negb _); [|apply IH].
    rewrite fmap_cons. constructor; [|apply IH].
    rewrite dedup_loop_locators, elem_of_union, elem_of_singleton. tauto.
Qed.

(** A list whose records all carry a locator, no two the same and none
    seen before, is left as it is. *)
Lemma dedup_loop_fixed l seen :
  Forall (λ r, truthy (locator r) = true) l →
  NoDup (locator <$> l) →
  (∀ v, v ∈ (locator <$> l) → v ∉ seen) →
  dedup_loop l [] seen = l.
Proof.
  revert seen. induction l as [|r l IH]; intros seen Ht Hnd Hseen; [done|].
  rewrite dedup_loop_cons.
  apply Forall_cons in Ht as [Hr Ht].
  rewrite fmap_cons in Hnd, Hseen. apply NoDup_cons in Hnd as [Hnew Hnd].
  rewrite Hr, bool_decide_eq_false_2 by (apply Hseen; by left).
  cbn [andb negb]. f_equal. apply IH; [done|done|].
  intros v Hv. rewrite elem_of_union, elem_of_singleton.
  intros [->|Hs]; [done|]. revert Hs. apply Hseen. by right.
Qed.

End DedupMore.

(** X1: deduplicating twice gives the same list as deduplicating
    once. *)
Theorem deduplicate_idempotent (elements : list info) :
  _deduplicate_elements (_deduplicate_elements elements) =
  _deduplicate_elements elements.
Proof.
  unfold _deduplicate_elements at 1. apply dedup_loop_fixed.
  - apply dedup_loop_truthy.
  - apply dedup_loop_NoDup.
  - intros v _. apply not_elem_of_empty.
Qed.

(** X2: the locators of the records kept by deduplication are pairwise
    different, and they are exactly the non-empty locators of the input:
    no locator is lost and none is invented. *)
Theorem deduplicate_distinct_locators (elements : list info) :
  NoDup (locator <$> _deduplicate_elements elements) ∧
  ∀ v, v ∈ (locator <$> _deduplicate_elements elements) ↔
       truthy v = true ∧ v ∈ (locator <$> elements).
Proof.
  split; [apply dedup_loop_NoDup|].
  intros v. unfold _deduplicate_elements. rewrite dedup_loop_locators.
  pose proof (not_elem_of_empty (C:=gset value) v). tauto.
Qed.

(** X3: a list in which every record has a non-empty locator and no two
    records share one is returned unchanged. *)
Theorem deduplicate_keeps_distinct_records (elements : list info) :
  Forall (λ r, truthy (locator r) = true) elements →
  NoDup (locator <$> elements) →
  _deduplicate_elements elements = elements.
Proof.
  intros Ht Hnd. apply dedup_loop_fixed; [done|done|].
  intros v _. apply not_elem_of_empty.
Qed.

Lemma deduplicate_keeps_distinct_records_witness :
  _deduplicate_elements
    [ full_info "like" "button" EmptyString EmptyString EmptyString
        EmptyString VNone (VStr "/html/body/button[1]") (VStr "Unknown")
        "like" "keyword_match";
      full_info "vote" "a" EmptyString EmptyString EmptyString
        EmptyString VNone (VStr "Unknown") VNone "a.vote" "selector_match" ] =
    [ full_info "like" "button" EmptyString EmptyString EmptyString
        EmptyString VNone (VStr "/html/body/button[1]") (VStr "Unknown")
        "like" "keyword_match";
      full_info "vote" "a" EmptyString EmptyString EmptyString
        EmptyString VNone (VStr "Unknown") VNone "a.vote" "selector_match" ].
Proof.
  apply deduplicate_keeps_distinct_records.
  - repeat constructor.
  - by_evaluation.
Defined.

(** ** Discovery *)

Section DiscoveryMore.

Context {W elem : Type}.
Variable driver : WebDriver W elem.
Variable partial_ratio : string → string → Z.
Variable self : InteractionElementFinder.

(** Whatever holds of every record that [_create_element_info] can
    return on an accepted element holds of every record the four
    strategies append. *)
Lemma discover_appends (P : info → Prop) :
  (∀ element term ty,
     appends P (consider driver partial_ratio self element term ty)) →
  appends P (discover driver partial_ratio self).
Proof.
  intros Hc. unfold discover.
  apply appends_bind_any; [|intros _; apply appends_bind_any;
                             [|intros _; apply appends_bind_any]].
  - apply appends_for_each. intros keyword.
    apply appends_bind_any; [apply appends_lift|]. intros elements.
    apply appends_for_each. intros element. apply Hc.
  - apply appends_for_each. intros selector. apply appends_try.
    + apply appends_bind_any; [apply appends_lift|]. intros elements.
      apply appends_for_each. intros element. apply Hc.
    + intros e. apply appends_ret.
  - apply appends_bind_any; [apply appends_lift|]. intros elements.
    apply appends_for_each. intros element. apply Hc.
  - intros _. apply appends_bind_any; [apply appends_lift|]. intros elements.
    apply appends_for_each. intros element.
    apply appends_bind_any; [apply appends_lift|]. intros parent. apply Hc.
Qed.

Lemma consider_appends_if_created (P : info → Prop) element term ty :
  returns_only (_create_element_info driver element term ty) P →
  appends P (consider driver partial_ratio self element term ty).
Proof.
  intros Hc. unfold consider. apply appends_bind_any; [apply appends_lift|].
  intros [|]; [|apply appends_ret].
  apply (appends_bind _ P).
  - apply appends_lift.
  - by apply returns_only_lift.
  - intros r Hr. by apply appends_append.
Qed.

Lemma consider_appends_if_accepted (P : info → Prop) element term ty :
  returns_only
    (_is_likely_interaction_element driver partial_ratio self element)
    (λ b, b = false) →
  appends P (consider driver partial_ratio self element term ty).
Proof.
  intros Hs. unfold consider.
  apply (appends_bind _ (λ b, b = false)).
  - apply appends_lift.
  - by apply returns_only_lift.
  - intros b ->. apply appends_ret.
Qed.

Lemma find_returns_all (P : info → Prop) w out w' :
  appends P (discover driver partial_ratio self) →
  find_interaction_elements driver partial_ratio self w = (Return out, w') →
  Forall P out.
Proof.
  intros Ha Hfind. apply find_returns in Hfind. subst out.
  destruct (Ha (Frame w [])) as (added & E & HP). simpl in E.
  rewrite E. apply Forall_forall. intros r Hr.
  rewrite Forall_forall in HP. apply HP.
  by apply (λ H, elem_of_sublist _ _ _ H (dedup_loop_sublist _ ∅)).
Qed.

(** When both locator scripts raise, the record is complete and both of
    its locators are the placeholder. *)
Lemma create_returns_unknown element term ty :
  (∀ sc e s, ∃ x s', execute_script driver sc e s = (Raised x, s')) →
  returns_only (_create_element_info driver element term ty)
    (λ r, locator r = VStr "Unknown" ∨ truthy (locator r) = false).
Proof.
  intros Hscript s r s' [Hb|(e & s1 & _ & Hh)]%try_except_Return.
  - left. revert Hb.
    unfold create_body, _generate_xpath, _generate_css_selector, bind,
      try_except, ret.
    repeat (match goal with
            | |- context [execute_script ?d ?sc ?e ?s0] =>
                let x := fresh "x" in
                let s1 := fresh "s" in
                let E := fresh "E" in
                destruct (Hscript sc e s0) as (x & s1 & E); rewrite E
            | _ => next_access
            end);
      intros [= <- <-] || discriminate; reflexivity.
  - right. unfold ret in Hh. injection Hh as <- _. reflexivity.
Qed.

End DiscoveryMore.

(** X4: the records returned by [find_interaction_elements] have
    pairwise different [element_xpath] values. *)
Theorem find_returns_distinct_locators {W elem : Type}
  (driver : WebDriver W elem) (partial_ratio : string → string → Z)
  (self : InteractionElementFinder) (w w' : W) (out : list info) :
  find_interaction_elements driver partial_ratio self w = (Return out, w') →
  NoDup (locator <$> out) ∧
  NoDup ((λ r, r !! "element_xpath") <$> out).
Proof.
  intros Hfind. pose proof (find_returns _ _ _ _ _ _ Hfind) as ->.
  assert (NoDup (locator <$> _deduplicate_elements
                   (found_elements
                      (snd (discover driver partial_ratio self (Frame w []))))))
    as Hnd by apply dedup_loop_NoDup.
  split; [done|].
  eapply (NoDup_fmap_1 (default (VStr EmptyString))).
  rewrite <- list_fmap_compose. exact Hnd.
Qed.

Lemma find_returns_distinct_locators_witness :
  find_interaction_elements (static_driver one_button_page)
    Fuzz.partial_ratio (new_finder 70) tt =
    (Return
       [ full_info "like" "button" EmptyString EmptyString EmptyString
           EmptyString (VStr "<button>like</button>")
           (VStr "/html/body/button[1]") (VStr "html > body > button")
           "like" "keyword_match" ], tt) ∧
  NoDup (locator <$>
    [ full_info "like" "button" EmptyString EmptyString EmptyString
        EmptyString (VStr "<button>like</button>")
        (VStr "/html/body/button[1]") (VStr "html > body > button")
        "like" "keyword_match" ]) ∧
  NoDup ((λ r, r !! "element_xpath") <$>
    [ full_info "like" "button" EmptyString EmptyString EmptyString
        EmptyString (VStr "<button>like</button>")
        (VStr "/html/body/button[1]") (VStr "html > body > button")
        "like" "keyword_match" ]).
Proof.
  split; [by_evaluation|].
  apply (find_returns_distinct_locators (static_driver one_button_page)
           Fuzz.partial_ratio (new_finder 70) tt tt).
  by_evaluation.
Defined.

(** X5: when the locator scripts raise on every element, every record
    gets the placeholder "Unknown" as its locator, so a whole page yields
    at most one record. *)
Theorem find_returns_one_record_without_locators {W elem : Type}
  (driver : WebDriver W elem) (partial_ratio : string → string → Z)
  (self : InteractionElementFinder) (w w' : W) (out : list info) :
  (∀ sc e s, ∃ x s', execute_script driver sc e s = (Raised x, s')) →
  find_interaction_elements driver partial_ratio self w = (Return out, w') →
  (length out ≤ 1)%nat ∧ Forall (λ r, locator r = VStr "Unknown") out.
Proof.
  intros Hscript Hfind.
  assert (Forall (λ r, locator r = VStr "Unknown") out) as Hall.
  { assert (Forall (λ r, locator r = VStr "Unknown" ∨
                         truthy (locator r) = false) out) as Hcreated.
    { eapply find_returns_all; [|exact Hfind]. apply discover_appends.
      intros element term ty. apply consider_appends_if_created.
      by apply create_returns_unknown. }
    pose proof (find_returns _ _ _ _ _ _ Hfind) as Hout.
    assert (Forall (λ r, truthy (locator r) = true) out) as Htruthy
      by (rewrite Hout; apply dedup_loop_truthy).
    rewrite Forall_forall in Hcreated, Htruthy. apply Forall_forall.
    intros r Hr. destruct (Hcreated r Hr) as [?|Hf]; [done|].
    rewrite (Htruthy r Hr) in Hf. discriminate Hf. }
  split; [|done].
  assert (NoDup (locator <$> out)) as Hnd.
  { rewrite (find_returns _ _ _ _ _ _ Hfind). apply dedup_loop_NoDup. }
  destruct out as [|a [|b out]]; simpl; [lia|lia|exfalso].
  apply Forall_cons in Hall as [Ha Hall]. apply Forall_cons in Hall as [Hb _].
  rewrite !fmap_cons, Ha, Hb in Hnd. apply NoDup_cons in Hnd as [Hnd _].
  apply Hnd. by left.
Qed.

Lemma find_returns_one_record_without_locators_witness :
  (∀ sc e s, ∃ x s',
     execute_script (static_driver no_locator_page) sc e s = (Raised x, s')) ∧
  find_interaction_elements (static_driver no_locator_page)
    Fuzz.partial_ratio (new_finder 70) tt =
    (Return
       [ full_info "like" "button" EmptyString EmptyString EmptyString
           EmptyString (VStr "<button>like</button>") (VStr "Unknown")
           (VStr "Unknown") "like" "keyword_match" ], tt) ∧
  (length
     [ full_info "like" "button" EmptyString EmptyString EmptyString
         EmptyString (VStr "<button>like</button>") (VStr "Unknown")
         (VStr "Unknown") "like" "keyword_match" ] ≤ 1)%nat ∧
  Forall (λ r, locator r = VStr "Unknown")
    [ full_info "like" "button" EmptyString EmptyString EmptyString
        EmptyString (VStr "<button>like</button>") (VStr "Unknown")
        (VStr "Unknown") "like" "keyword_match" ].
Proof.
  split; [intros sc e []; by eexists _, _|].
  split; [by_evaluation|].
  apply (find_returns_one_record_without_locators
           (static_driver no_locator_page) Fuzz.partial_ratio (new_finder 70)
           tt tt).
  - intros sc e []. by eexists _, _.
  - by_evaluation.
Defined.

(** X6: with an empty keyword catalogue the scorer accepts nothing, so
    [find_interaction_elements] returns the empty list whenever it
    returns. *)
Theorem find_with_empty_catalogue {W elem : Type}
  (driver : WebDriver W elem) (partial_ratio : string → string → Z)
  (self : InteractionElementFinder) (w w' : W) (out : list info) :
  INTERACTION_KEYWORDS self = [] →
  find_interaction_elements driver partial_ratio self w = (Return out, w') →
  out = [].
Proof.
  intros Hkw Hfind.
  assert (Forall (λ _, False) out) as Hnone.
  { eapply find_returns_all; [|exact Hfind]. apply discover_appends.
    intros element term ty. apply consider_appends_if_accepted.
    intros s b s' Hs. destruct b; [|done].
    apply scorer_accepts_inv in Hs as (v & _ & Hv).
    unfold score_signals in Hv. rewrite Hkw in Hv. discriminate Hv. }
  destruct out as [|r out]; [done|]. by apply Forall_cons in Hnone as [[] _].
Qed.

Lemma find_with_empty_catalogue_witness :
  find_interaction_elements (static_driver one_button_page)
    Fuzz.partial_ratio
    {| INTERACTION_KEYWORDS := []; similarity_threshold := 0 |} tt =
    (Return [], tt) ∧
  ([] : list info) = [].
Proof.
  split; [by_evaluation|].
  apply (find_with_empty_catalogue (static_driver one_button_page)
           Fuzz.partial_ratio
           {| INTERACTION_KEYWORDS := []; similarity_threshold := 0 |}
           tt tt []); [reflexivity|by_evaluation].
Defined.

Section CasedScorer.

Context {W elem : Type}.
Variable lower : string → string.
Variable driver : WebDriver W elem.
Variable partial_ratio : string → string → Z.
Variable self : InteractionElementFinder.

(** The scorer first reads, then decides. *)
Lemma cased_scorer_factored element s :
  Cased.scorer_body lower driver partial_ratio self element s =
  bind (Cased.read_signals lower driver element)
    (λ o, ret (match o with
               | None => false
               | Some v => Cased.score_signals lower partial_ratio self v
               end)) s.
Proof.
  unfold Cased.scorer_body, Cased.read_signals, Cased.score_signals, bind,
    ret.
  repeat (try reflexivity; next_access).
Qed.

Lemma cased_keyword_loop_true keywords combined_text clickable :
  Cased.keyword_loop lower partial_ratio self keywords combined_text
    clickable = true ↔
  clickable = true ∧
  ∃ keyword, keyword ∈ keywords ∧
    (similarity_threshold self ≤
       partial_ratio (lower keyword) combined_text)%Z.
Proof.
  induction keywords as [|k ks IH]; cbn [Cased.keyword_loop].
  - split; [done|]. intros (_ & k & Hk & _). by apply elem_of_nil in Hk.
  - destruct (similarity_threshold self <=? _)%Z eqn:Hle; cbn [andb].
    + apply Z.leb_le in Hle. destruct clickable.
      * split; [|done]. intros _. split; [done|].
        exists k. split; [by left|done].
      * rewrite IH. split; [by intros [? _]|by intros [? _]].
    + apply Z.leb_gt in Hle. rewrite IH. split.
      * intros (Hc & k' & Hk' & Hs). split; [done|].
        exists k'. split; [by right|done].
      * intros (Hc & k' & Hk' & Hs). split; [done|].
        exists k'. split; [|done].
        apply elem_of_cons in Hk' as [->|?]; [lia|done].
Qed.

End CasedScorer.

(** The scorer of the finder is the scorer at the ASCII folding. *)
Lemma cased_scorer_at_ascii {W elem : Type} (driver : WebDriver W elem)
  (partial_ratio : string → string → Z) (self : InteractionElementFinder)
  (element : elem) :
  Cased._is_likely_interaction_element PyStr.lower driver partial_ratio self
    element =
  _is_likely_interaction_element driver partial_ratio self element.
Proof. reflexivity. Qed.

(** X7: whatever letters [str.lower()] folds, the scorer accepts an
    element exactly when the element is visible and enabled, all its
    reads succeed, it is clickable and some keyword of the catalogue,
    folded, scores at least the threshold against the folded combined
    text. *)
Theorem scorer_accepts_iff {W elem : Type} (lower : string → string)
  (driver : WebDriver W elem) (partial_ratio : string → string → Z)
  (self : InteractionElementFinder) (element : elem) (s s' : W) :
  Cased._is_likely_interaction_element lower driver partial_ratio self
    element s = (Return true, s') ↔
  ∃ v, Cased.read_signals lower driver element s = (Return (Some v), s') ∧
       Cased.is_clickable lower (sg_tag v) (sg_role v) (sg_class v) = true ∧
       ∃ keyword,
         keyword ∈ INTERACTION_KEYWORDS self ∧
         (similarity_threshold self ≤
            partial_ratio (lower keyword)
              (Cased.combine_text lower (sg_text v) (sg_class v) (sg_id v)
                 (sg_aria_label v) (sg_title v)))%Z.
Proof.
  unfold Cased._is_likely_interaction_element, try_except.
  rewrite cased_scorer_factored. unfold bind, ret.
  destruct (Cased.read_signals lower driver element s) as [[[v|]|e] s1]
    eqn:Hr.
  - split.
    + intros [= Hv <-]. exists v. split; [done|].
      unfold Cased.score_signals in Hv.
      by apply cased_keyword_loop_true in Hv.
    + intros (v' & [= <- <-] & Hc & Hk). do 2 f_equal.
      unfold Cased.score_signals. by apply cased_keyword_loop_true.
  - split; [done|]. by intros (? & [=] & _).
  - split; [done|]. by intros (? & [=] & _).
Qed.

Lemma scorer_accepts_iff_witness :
  Cased._is_likely_interaction_element PyStr.lower (static_driver liked_page)
    Fuzz.partial_ratio (new_finder 100) 0%nat tt = (Return true, tt).
Proof.
  apply (scorer_accepts_iff PyStr.lower (static_driver liked_page)
           Fuzz.partial_ratio (new_finder 100) 0%nat tt tt).
  exists (Signals "liked" "button" EmptyString EmptyString EmptyString
            EmptyString EmptyString).
  split; [by_evaluation|]. split; [reflexivity|].
  exists "like". split; [by_evaluation|]. by_evaluation.
Defined.

(** X8: extending the catalogue never loses a candidate: an element
    accepted with the catalogue of the finder is accepted after custom
    keywords have been appended to it. *)
Theorem extend_keywords_keeps_candidates {W elem : Type}
  (driver : WebDriver W elem) (partial_ratio : string → string → Z)
  (self : InteractionElementFinder) (custom_keywords : list string)
  (element : elem) (s s' : W) :
  _is_likely_interaction_element driver partial_ratio self element s =
    (Return true, s') →
  _is_likely_interaction_element driver partial_ratio
    (extend_keywords self custom_keywords) element s = (Return true, s').
Proof.
  intros (v & Hr & Hv)%scorer_accepts_inv.
  rewrite (scorer_of_signals _ _ _ _ _ _ _ Hr). f_equal. f_equal.
  unfold score_signals in *. apply keyword_loop_true.
  apply keyword_loop_true in Hv as (Hc & k & Hk & Hs).
  split; [done|]. exists k. split; [|done].
  simpl. apply elem_of_app. by left.
Qed.

Lemma extend_keywords_keeps_candidates_witness :
  _is_likely_interaction_element (static_driver one_button_page)
    Fuzz.partial_ratio (new_finder 70) 0%nat tt = (Return true, tt) ∧
  _is_likely_interaction_element (static_driver one_button_page)
    Fuzz.partial_ratio (extend_keywords (new_finder 70) ["don't like"])
    0%nat tt = (Return true, tt).
Proof.
  split; [by_evaluation|].
  apply (extend_keywords_keeps_candidates (static_driver one_button_page)
           Fuzz.partial_ratio (new_finder 70) ["don't like"] 0%nat tt tt).
  by_evaluation.
Defined.

(** X9: the only driver calls whose failure can leave
    [find_interaction_elements] are the XPath queries and the parent
    lookup of the counter strategy: when those cannot raise, the
    discovery returns from every state, whatever the selector queries,
    the element accesses and the locator scripts do. *)
Theorem find_contains_element_failures {W elem : Type}
  (driver : WebDriver W elem) (partial_ratio : string → string → Z)
  (self : InteractionElementFinder) :
  (∀ q, never_raises (find_elements driver XPATH q)) →
  (∀ element q, never_raises (find_element driver element XPATH q)) →
  never_raises (find_interaction_elements driver partial_ratio self).
Proof. apply find_never_raises. Qed.

Lemma find_contains_element_failures_witness :
  (∀ q, never_raises (find_elements (static_driver stale_markup_page) XPATH q)) ∧
  (∀ element q,
     never_raises (find_element (static_driver stale_markup_page) element
                     XPATH q)) ∧
  never_raises (find_interaction_elements (static_driver stale_markup_page)
                  Fuzz.partial_ratio (new_finder 70)).
Proof.
  assert (∀ q, never_raises
                 (find_elements (static_driver stale_markup_page) XPATH q))
    as Hq.
  { intros q []. simpl. unfold answer.
    destruct (String.eqb q (keyword_query "like")); by eexists _, _. }
  assert (∀ element q,
            never_raises (find_element (static_driver stale_markup_page)
                            element XPATH q)) as Hp.
  { intros element q []. by eexists _, _. }
  split; [exact Hq|]. split; [exact Hp|].
  exact (find_contains_element_failures (static_driver stale_markup_page)
           Fuzz.partial_ratio (new_finder 70) Hq Hp).
Defined.

(** X10: [_create_element_info] never raises, and the record it returns
    on either branch carries the match term and the strategy tag it was
    given, together with a text and a tag name. *)
Theorem create_element_info_total {W elem : Type}
  (driver : WebDriver W elem) (element : elem)
  (match_term match_type : string) :
  never_raises (_create_element_info driver element match_term match_type) ∧
  returns_only (_create_element_info driver element match_term match_type)
    (λ r, r !! "match_term" = Some (VStr match_term) ∧
          r !! "match_type" = Some (VStr match_type) ∧
          (∃ t, r !! "element_text" = Some (VStr t)) ∧
          (∃ g, r !! "element_tag" = Some (VStr g))).
Proof.
  split; [apply create_never_raises|].
  intros s r s' [Hb|(e & s1 & _ & Hh)]%try_except_Return.
  - apply create_body_returns in Hb
      as (t & g & c & i & a & ti & h & x & cs & ->).
    split_and!; [reflexivity|reflexivity|by exists t|by exists g].
  - unfold ret in Hh. injection Hh as <- _.
    split_and!; [reflexivity|reflexivity|by eexists|by eexists].
Qed.

(** The locator stored for a script outcome: the value the script
    returned, or the placeholder when it raised. *)
Lemma create_on_static_page (p : page) (element : nat)
  (match_term match_type t g : string) (h c i a ti : value) :
  page_text p element = Return t →
  page_tag p element = Return g →
  page_attribute p element "outerHTML" = Return h →
  page_attribute p element "class" = Return c →
  page_attribute p element "id" = Return i →
  page_attribute p element "aria-label" = Return a →
  page_attribute p element "title" = Return ti →
  _create_element_info (static_driver p) element match_term match_type tt =
    (Return
       (full_info (PyStr.strip t) g (or_empty c) (or_empty i) (or_empty a)
          (or_empty ti) h
          (match page_script p getPathTo element with
           | Return v => v
           | Raised _ => VStr "Unknown"
           end)
          (match page_script p getCssSelector element with
           | Return v => v
           | Raised _ => VStr "Unknown"
           end)
          match_term match_type), tt).
Proof.
  intros Ht Hg Hh Hc Hi Ha Hti.
  unfold _create_element_info, create_body, _generate_xpath,
    _generate_css_selector, try_except, bind, ret. simpl. unfold answer.
  rewrite Ht. destruct (PyStr.truthy t) eqn:Htruthy;
    rewrite ?Ht, Hh, Hg, Hc, Hi, Ha, Hti;
    destruct (page_script p getPathTo element),
      (page_script p getCssSelector element); try reflexivity;
    destruct t; try discriminate; reflexivity.
Qed.

(** X11: on a page whose reads succeed, a failure of one locator script
    costs only that locator: the record is complete, the failed locator
    is the placeholder "Unknown" and the other locator is the value its
    script returned. *)
Theorem locator_failures_are_independent (p : page) (element : nat)
  (match_term match_type t g : string) (h c i a ti css : value) (e : exn) :
  page_text p element = Return t →
  page_tag p element = Return g →
  page_attribute p element "outerHTML" = Return h →
  page_attribute p element "class" = Return c →
  page_attribute p element "id" = Return i →
  page_attribute p element "aria-label" = Return a →
  page_attribute p element "title" = Return ti →
  page_script p getPathTo element = Raised e →
  page_script p getCssSelector element = Return css →
  ∃ r,
    _create_element_info (static_driver p) element match_term match_type tt =
      (Return r, tt) ∧
    dom r = record_keys ∧
    r !! "element_xpath" = Some (VStr "Unknown") ∧
    r !! "element_css" = Some css.
Proof.
  intros Ht Hg Hh Hc Hi Ha Hti Hx Hcss. eexists. split.
  - by apply (create_on_static_page p element match_term match_type t g
                h c i a ti).
  - rewrite Hx, Hcss. split_and!; [apply full_info_dom|reflexivity..].
Qed.

Lemma locator_failures_are_independent_witness :
  ∃ r,
    _create_element_info (static_driver no_xpath_page) 0%nat "like"
      "keyword_match" tt = (Return r, tt) ∧
    dom r = record_keys ∧
    r !! "element_xpath" = Some (VStr "Unknown") ∧
    r !! "element_css" = Some (VStr "html > body > button").
Proof.
  apply (locator_failures_are_independent no_xpath_page 0%nat "like"
           "keyword_match" "like" "button" (VStr "<button>like</button>")
           VNone VNone VNone VNone (VStr "html > body > button")
           (Exception "javascript error")); reflexivity.
Defined.

(** * utils.py and the file names of the crawlers *)

(** ** Characters of a string *)

Section Characters.

Implicit Types (c d : ascii) (s a b : string).

Lemma contains_char_cons c d s :
  PyStr.contains (String c EmptyString) (String d s) =
  Ascii.eqb c d || PyStr.contains (String c EmptyString) s.
Proof.
  cbn [PyStr.contains String.prefix].
  destruct (ascii_dec c d) as [->|Hne].
  - rewrite Ascii.eqb_refl. by destruct s.
  - apply Ascii.eqb_neq in Hne. by rewrite Hne.
Qed.

Lemma contains_char_nil c :
  PyStr.contains (String c EmptyString) EmptyString = false.
Proof. reflexivity. Qed.

Lemma contains_char_app c a b :
  PyStr.contains (String c EmptyString) (a +:+ b) =
  PyStr.contains (String c EmptyString) a ||
  PyStr.contains (String c EmptyString) b.
Proof.
  induction a as [|d a IH].
  - by rewrite contains_char_nil.
  - change (String d a +:+ b) with (String d (a +:+ b)).
    rewrite !contains_char_cons, IH. by rewrite orb_assoc.
Qed.

Lemma append_nil_r s : s +:+ EmptyString = s.
Proof.
  induction s as [|c s IH]; [done|].
  change (String c (s +:+ EmptyString) = String c s). by rewrite IH.
Qed.

Lemma append_assoc a b s : (a +:+ b) +:+ s = a +:+ (b +:+ s).
Proof.
  induction a as [|c a IH]; [done|].
  change (String c ((a +:+ b) +:+ s) = String c (a +:+ (b +:+ s))).
  by rewrite IH.
Qed.

(** Replacing "." by "_" leaves no "." and brings in no other
    character. *)
Lemma replace_dot_no_dot s :
  PyStr.contains "." (PyText.replace s "." "_") = false.
Proof.
  unfold PyText.replace. induction s as [|c s IH]; [done|].
  cbn [PyText.replace_from String.prefix String.length Nat.sub].
  destruct (ascii_dec "." c) as [<-|Hne].
  - replace (String.prefix EmptyString s) with true by (by destruct s).
    change ("_" +:+ ?x) with (String "_" x).
    by rewrite contains_char_cons, IH.
  - rewrite contains_char_cons, IH.
    apply Ascii.eqb_neq in Hne. by rewrite Hne.
Qed.

Lemma replace_dot_keeps_out c s :
  c ≠ "_"%char →
  PyStr.contains (String c EmptyString) s = false →
  PyStr.contains (String c EmptyString) (PyText.replace s "." "_") = false.
Proof.
  intros Hc. unfold PyText.replace. induction s as [|d s IH]; [done|].
  rewrite contains_char_cons. intros [Hd Hs]%orb_false_elim.
  cbn [PyText.replace_from String.prefix String.length Nat.sub].
  destruct (ascii_dec "." d) as [<-|Hne].
  - replace (String.prefix EmptyString s) with true by (by destruct s).
    change ("_" +:+ ?x) with (String "_" x).
    rewrite contains_char_cons, (IH Hs).
    apply Ascii.eqb_neq in Hc. by rewrite Hc.
  - by rewrite contains_char_cons, (IH Hs), Hd.
Qed.

(** The first piece of a split on "/" holds no "/". *)
Lemma split_slash_first s piece :
  PyStr.contains "/" piece = false →
  PyStr.contains "/"
    (PyText.first_piece (PyText.split_from "/" s 0 piece)) = false.
Proof.
  revert piece. induction s as [|c s IH]; intros piece Hp; [done|].
  cbn [PyText.split_from String.prefix String.length Nat.sub].
  destruct (ascii_dec "/" c) as [<-|Hne].
  - replace (String.prefix EmptyString s) with true by (by destruct s).
    done.
  - apply IH. rewrite contains_char_app, Hp, contains_char_cons.
    apply Ascii.eqb_neq in Hne. by rewrite Hne.
Qed.

(** A string without the separator is one piece. *)
Lemma split_without_separator sep s piece :
  PyStr.contains sep s = false →
  PyText.split_from sep s 0 piece = [piece +:+ s].
Proof.
  revert piece. induction s as [|c s IH]; intros piece.
  - intros _. by rewrite append_nil_r.
  - cbn [PyStr.contains]. intros [Hp Hs]%orb_false_elim.
    cbn [PyText.split_from]. rewrite Hp, (IH _ Hs).
    by rewrite append_assoc.
Qed.

Lemma contains_two_slashes_app host rest :
  PyStr.contains "/" host = false →
  PyStr.contains "//" rest = false →
  PyStr.contains "//" (host +:+ rest) = false.
Proof.
  intros Hh Hr. induction host as [|c host IH]; [done|].
  rewrite contains_char_cons in Hh. apply orb_false_elim in Hh as [Hc Hh].
  change (String c host +:+ rest) with (String c (host +:+ rest)).
  cbn [PyStr.contains String.prefix].
  destruct (ascii_dec "/" c) as [<-|_]; [done|]. by apply IH.
Qed.

(** The scan on "//" passes a text without "/" and cuts at the
    separator behind it. *)
Lemma split_after_scheme scheme tail piece :
  PyStr.contains "/" scheme = false →
  PyText.split_from "//" (scheme +:+ "//" +:+ tail) 0 piece =
  (piece +:+ scheme) :: PyText.split_from "//" tail 0 EmptyString.
Proof.
  revert piece. induction scheme as [|c scheme IH]; intros piece Hs.
  - rewrite append_nil_r. by destruct tail.
  - rewrite contains_char_cons in Hs. apply orb_false_elim in Hs as [Hc Hs].
    change (String c scheme +:+ ?x) with (String c (scheme +:+ x)).
    cbn [PyText.split_from String.prefix].
    destruct (ascii_dec "/" c) as [<-|_]; [done|].
    rewrite (IH _ Hs). by rewrite append_assoc.
Qed.

(** The scan on "/" passes a host without "/" and stops at the path. *)
Lemma split_host host rest piece :
  PyStr.contains "/" host = false →
  rest = EmptyString ∨ PyText.startswith rest "/" = true →
  PyText.first_piece (PyText.split_from "/" (host +:+ rest) 0 piece) =
  piece +:+ host.
Proof.
  revert piece. induction host as [|c host IH]; intros piece Hh Hrest.
  - rewrite append_nil_r. destruct Hrest as [->|Hrest]; [done|].
    destruct rest as [|d rest]; [done|].
    unfold PyText.startswith in Hrest. cbn [String.prefix] in Hrest.
    destruct (ascii_dec "/" d) as [<-|]; [|done].
    simpl. by destruct rest.
  - rewrite contains_char_cons in Hh. apply orb_false_elim in Hh as [Hc Hh].
    change (String c host +:+ rest) with (String c (host +:+ rest)).
    cbn [PyText.split_from String.prefix].
    destruct (ascii_dec "/" c) as [<-|_]; [done|].
    rewrite (IH _ Hh Hrest). by rewrite append_assoc.
Qed.

Lemma prefix_contains p s : String.prefix p s = true → PyStr.contains p s = true.
Proof. intros Hp. destruct s; cbn [PyStr.contains]; by rewrite Hp. Qed.

Lemma digits_no_slash (u : Decimal.uint) :
  PyStr.contains "/" (NilEmpty.string_of_uint u) = false.
Proof.
  induction u as [|u IH|u IH|u IH|u IH|u IH|u IH|u IH|u IH|u IH|u IH];
    cbn [NilEmpty.string_of_uint]; [done|..];
    by rewrite contains_char_cons, IH.
Qed.

Lemma str_of_int_no_slash n : PyStr.contains "/" (PyText.str_of_int n) = false.
Proof.
  unfold PyText.str_of_int, NilZero.string_of_int, NilZero.string_of_uint.
  destruct (Z.to_int n) as [u|u]; [|rewrite contains_char_cons];
    destruct u; try done; cbn [orb Ascii.eqb]; apply digits_no_slash.
Qed.

End Characters.

Lemma domain_by_split_no_slash (url : string) :
  PyStr.contains "/" (domain_by_split url) = false.
Proof.
  unfold domain_by_split.
  apply replace_dot_keeps_out; [done|]. by apply split_slash_first.
Qed.

(** X12: whatever [urlparse] does on the URL, return a host or raise,
    the domain computed by [extract_domain] contains no ".". *)
Theorem extract_domain_has_no_dot (netloc : string → outcome string)
  (url : string) :
  PyStr.contains "." (extract_domain netloc url) = false.
Proof.
  unfold extract_domain, domain_by_split.
  destruct (netloc url); apply replace_dot_no_dot.
Qed.

(** X13: the domain that crawler.py and the fallback of [extract_domain]
    cut out of a URL contains neither "/" nor ".", for every string. *)
Theorem domain_by_split_has_no_separator (url : string) :
  PyStr.contains "/" (domain_by_split url) = false ∧
  PyStr.contains "." (domain_by_split url) = false.
Proof.
  split; [apply domain_by_split_no_slash|].
  unfold domain_by_split. apply replace_dot_no_dot.
Qed.

(** X14: for a URL made of the scheme "http:" or "https:", "//", a host
    without "/" and a path that is empty or starts with "/" and holds no
    "//", [is_valid_url] accepts the URL and the domain cut out of it is
    the host with every "." replaced by "_". *)
Theorem domain_of_valid_url (scheme host rest : string) :
  scheme = "http:" ∨ scheme = "https:" →
  PyStr.contains "/" host = false →
  rest = EmptyString ∨ PyText.startswith rest "/" = true →
  PyStr.contains "//" rest = false →
  is_valid_url (PyString (scheme +:+ "//" +:+ host +:+ rest)) = true ∧
  domain_by_split (scheme +:+ "//" +:+ host +:+ rest) =
    PyText.replace host "." "_".
Proof.
  intros Hscheme Hhost Hrest Hpath. split.
  - by destruct Hscheme as [-> | ->]; cbn; destruct (host +:+ rest).
  - unfold domain_by_split, PyText.split. f_equal.
    rewrite split_after_scheme by (by destruct Hscheme as [-> | ->]).
    rewrite (split_without_separator "//")
      by (by apply contains_two_slashes_app).
    change (PyText.last_piece [_; ?x]) with x.
    change (EmptyString +:+ host +:+ rest) with (host +:+ rest).
    by rewrite split_host.
Qed.

Lemma domain_of_valid_url_witness :
  is_valid_url (PyString ("https:" +:+ "//" +:+ "www.example.com" +:+ "/a/b"))
    = true ∧
  domain_by_split ("https:" +:+ "//" +:+ "www.example.com" +:+ "/a/b") =
    PyText.replace "www.example.com" "." "_".
Proof.
  apply (domain_of_valid_url "https:" "www.example.com" "/a/b");
    [by right|reflexivity|by right|reflexivity].
Defined.

(** When the path holds "//", the domain is cut out of the text behind
    it and not out of the host. *)
Example domain_by_split_after_last_double_slash :
  domain_by_split "http://a.com/x//y.z/w" = "y_z".
Proof. reflexivity. Qed.

(** X15: every object that [is_valid_url] accepts passes the test of
    [process_csv] in crawler.py. *)
Theorem is_valid_url_implies_crawler_test (url : pyobj) :
  is_valid_url url = true → crawler_accepts_url url = true.
Proof.
  destruct url as [s|]; [|done]. cbn [is_valid_url crawler_accepts_url].
  unfold PyText.startswith. intros [H|H]%orb_true_iff.
  - by rewrite (prefix_contains _ _ H).
  - by rewrite (prefix_contains _ _ H), orb_true_r.
Qed.

Lemma is_valid_url_implies_crawler_test_witness :
  is_valid_url (PyString "http://a.com") = true ∧
  crawler_accepts_url (PyString "http://a.com") = true.
Proof.
  split; [reflexivity|].
  by apply (is_valid_url_implies_crawler_test (PyString "http://a.com")).
Defined.

(** The converse fails: crawler.py also takes a string that only
    contains the scheme. *)
Example crawler_test_is_weaker :
  crawler_accepts_url (PyString "see http://a.com") = true ∧
  is_valid_url (PyString "see http://a.com") = false.
Proof. split; reflexivity. Qed.



(** * The locator scripts *)

Section Locators.

Variable doc : Dom.document.
Implicit Types (el parent base rel : list nat) (siblings : list Dom.dom_node).

Lemma node_at_cons i parent n :
  Dom.node_at doc (i :: parent) = Some n ↔
  ∃ siblings, Dom.children_of doc parent = Some siblings ∧
              siblings !! i = Some n.
Proof.
  cbn [Dom.node_at]. destruct (Dom.children_of doc parent) as [cs|].
  - split; [intros H; by exists cs|]. by intros (cs' & [= <-] & H).
  - split; [done|]. by intros (? & ? & _).
Qed.

Lemma children_of_cons i parent children :
  Dom.children_of doc (i :: parent) = Some children →
  ∃ tagName id,
    Dom.node_at doc (i :: parent) = Some (Dom.DomElement tagName id children).
Proof.
  cbn [Dom.children_of Dom.node_at].
  destruct (Dom.children_of doc parent) as [cs|]; [|done].
  destruct (cs !! i) as [[t id cs'|]|]; [|done..].
  intros [= <-]. by exists t, id.
Qed.

Lemma sibling_loop_ge siblings target tagName index k :
  Dom.sibling_loop siblings target tagName index = Some k → (index ≤ k)%nat.
Proof.
  revert target index. induction siblings as [|s rest IH];
    intros target index; [done|].
  destruct target as [|t]; cbn [Dom.sibling_loop].
  - intros [= <-]. lia.
  - intros H%IH. destruct (Dom.same_tag tagName s); lia.
Qed.

(** The loop finds every child of its parent. *)
Lemma sibling_loop_finds siblings i n tagName index :
  siblings !! i = Some n →
  ∃ k, Dom.sibling_loop siblings i tagName index = Some k.
Proof.
  revert i index. induction siblings as [|s rest IH]; intros i index; [done|].
  destruct i as [|i]; cbn [Dom.sibling_loop]; [by eexists|].
  intros H. apply IH. exact H.
Qed.

(** Of two children with the same tag name, the later one gets the
    larger index. *)
Lemma sibling_loop_lt siblings i j n tagName index k1 k2 :
  (i < j)%nat →
  siblings !! i = Some n → Dom.same_tag tagName n = true →
  Dom.sibling_loop siblings i tagName index = Some k1 →
  Dom.sibling_loop siblings j tagName index = Some k2 →
  (k1 < k2)%nat.
Proof.
  revert i j index. induction siblings as [|s rest IH];
    intros i j index Hij Hn Hsame; [done|].
  destruct j as [|j]; [lia|]. destruct i as [|i]; cbn [Dom.sibling_loop].
  - injection Hn as ->. rewrite Hsame. intros [= <-] H%sibling_loop_ge. lia.
  - apply IH; [lia|done|done].
Qed.

Lemma prefix_slash_app s t :
  String.prefix "/" s = true → String.prefix "/" (s +:+ t) = true.
Proof.
  destruct s as [|c s]; [done|].
  change (String c s +:+ t) with (String c (s +:+ t)).
  unfold String.prefix. destruct (ascii_dec "/" c); [|done].
  intros _. by destruct (s +:+ t).
Qed.

(** On the document node and on every node of the document the function
    returns a path, and the path starts with "/". *)
Lemma getPathTo_defined el :
  el = [] ∨ is_Some (Dom.node_at doc el) →
  ∃ path, Dom.getPathTo doc el = Some path ∧ String.prefix "/" path = true.
Proof.
  induction el as [|i parent IH]; intros Hel; [by eexists|].
  destruct Hel as [|[n Hn]]; [done|].
  cbn [Dom.getPathTo]. rewrite Hn.
  destruct n as [tagName id cs|]; [|by eexists].
  destruct (negb (String.eqb id EmptyString)); [by eexists|].
  case_bool_decide; [by eexists|].
  pose proof Hn as (siblings & Hs & Hi)%node_at_cons. rewrite Hs.
  destruct (sibling_loop_finds siblings i _ tagName 1 Hi) as [k ->].
  destruct IH as (path & -> & Hp).
  { destruct parent as [|j above]; [by left|right].
    apply children_of_cons in Hs as (t & id' & ->). by eexists. }
  eexists. split; [done|]. by apply prefix_slash_app.
Qed.

End Locators.

(** X17: for every element of the document the XPath script returns a
    path, and the path is a non-empty string: a record whose locator the
    script computed is never dropped by deduplication for want of a
    locator. *)
Theorem getPathTo_is_a_locator (doc : Dom.document) (element : list nat)
  (tagName id : string) (children : list Dom.dom_node) :
  Dom.node_at doc element = Some (Dom.DomElement tagName id children) →
  ∃ path, Dom.getPathTo doc element = Some path ∧
          truthy (VStr path) = true ∧
          ∀ r, locator r = VStr path → _deduplicate_elements [r] = [r].
Proof.
  intros Hel.
  destruct (getPathTo_defined doc element) as (path & Hp & Hslash);
    [right; by eexists|].
  assert (truthy (VStr path) = true) as Ht by (by destruct path).
  exists path. split_and!; [done|done|].
  intros r Hr. unfold _deduplicate_elements. rewrite dedup_loop_cons, Hr, Ht.
  by rewrite bool_decide_eq_false_2 by apply not_elem_of_empty.
Qed.

Lemma getPathTo_is_a_locator_witness :
  ∃ path, Dom.getPathTo sample_document [4; 1; 1]%nat = Some path ∧
          truthy (VStr path) = true ∧
          ∀ r, locator r = VStr path → _deduplicate_elements [r] = [r].
Proof.
  apply (getPathTo_is_a_locator sample_document [4; 1; 1]%nat "BUTTON"
           EmptyString []).
  reflexivity.
Defined.

Example getPathTo_on_sample_document :
  Dom.getPathTo sample_document [4; 1; 1]%nat = Some "/html/body/button[2]" ∧
  Dom.getPathTo sample_document [1; 0; 1; 1]%nat =
    Some (Dom.xpath_by_id "main" +:+ "/button[2]") ∧
  Dom.getCssSelector sample_document [4; 1; 1]%nat =
    Some "html > body > button:nth-of-type(2)" ∧
  Dom.getCssSelector sample_document [1; 0; 1; 1]%nat =
    Some "div#main > button:nth-of-type(2)".
Proof. repeat split. Qed.

(** ** Paths that determine their element *)

Section Delimiters.

Implicit Types (c : ascii) (x y a b : string).

Lemma length_append a b :
  String.length (a +:+ b) = (String.length a + String.length b)%nat.
Proof.
  induction a as [|c a IH]; [done|].
  change (S (String.length (a +:+ b)) =
          S (String.length a + String.length b)). by rewrite IH.
Qed.

(** Splitting at the last occurrence of a character. *)
Lemma split_at_last c x y a b :
  PyStr.contains (String c EmptyString) a = false →
  PyStr.contains (String c EmptyString) b = false →
  x +:+ String c a = y +:+ String c b → x = y ∧ a = b.
Proof.
  intros Ha Hb. revert y. induction x as [|d x IH]; intros [|e y].
  - by intros [= ->].
  - change (String c a = String e (y +:+ String c b) → EmptyString = String e y ∧ a = b).
    intros [= -> ->]. rewrite contains_char_app, contains_char_cons in Ha.
    rewrite Ascii.eqb_refl in Ha. cbn [orb] in Ha. by rewrite orb_true_r in Ha.
  - change (String d (x +:+ String c a) = String c b → String d x = EmptyString ∧ a = b).
    intros [= -> <-]. rewrite contains_char_app, contains_char_cons in Hb.
    rewrite Ascii.eqb_refl in Hb. cbn [orb] in Hb. by rewrite orb_true_r in Hb.
  - change (String d (x +:+ String c a) = String e (y +:+ String c b) →
            String d x = String e y ∧ a = b).
    intros [= -> H]. by destruct (IH _ H) as [-> ->].
Qed.

(** Splitting at the first occurrence of a character. *)
Lemma split_at_first c x y a b :
  PyStr.contains (String c EmptyString) x = false →
  PyStr.contains (String c EmptyString) y = false →
  x +:+ String c a = y +:+ String c b → x = y ∧ a = b.
Proof.
  revert y. induction x as [|d x IH]; intros [|e y] Hx Hy.
  - by intros [= ->].
  - change (String c a = String e (y +:+ String c b) → EmptyString = String e y ∧ a = b).
    intros [= -> _]. rewrite contains_char_cons, Ascii.eqb_refl in Hy. done.
  - change (String d (x +:+ String c a) = String c b → String d x = EmptyString ∧ a = b).
    intros [= -> _]. rewrite contains_char_cons, Ascii.eqb_refl in Hx. done.
  - change (String d (x +:+ String c a) = String e (y +:+ String c b) →
            String d x = String e y ∧ a = b).
    rewrite contains_char_cons in Hx, Hy.
    apply orb_false_elim in Hx as [_ Hx]. apply orb_false_elim in Hy as [_ Hy].
    intros [= -> H]. by destruct (IH _ Hx Hy H) as [-> ->].
Qed.

Lemma to_uint_not_nil (n : nat) : Nat.to_uint n ≠ Decimal.Nil.
Proof.
  rewrite <-(DecimalNat.Unsigned.of_to n), DecimalNat.Unsigned.to_of.
  apply DecimalFacts.unorm_nonnil.
Qed.

Lemma str_of_nat_inj (n m : nat) : Dom.str_of_nat n = Dom.str_of_nat m → n = m.
Proof.
  unfold Dom.str_of_nat. intros H.
  apply DecimalNat.Unsigned.to_uint_inj.
  pose proof (NilZero.usu _ (to_uint_not_nil n)) as Hn.
  pose proof (NilZero.usu _ (to_uint_not_nil m)) as Hm.
  rewrite H, Hm in Hn. by injection Hn.
Qed.

Lemma str_of_nat_no_slash (n : nat) :
  PyStr.contains "/" (Dom.str_of_nat n) = false.
Proof.
  unfold Dom.str_of_nat, NilZero.string_of_uint.
  destruct (Nat.to_uint n); try done; apply digits_no_slash.
Qed.

Lemma xpath_step_eq (t1 t2 : string) (k1 k2 : nat) p1 p2 :
  Dom.plain_tag t1 = true → Dom.plain_tag t2 = true →
  p1 +:+ Dom.xpath_step t1 k1 = p2 +:+ Dom.xpath_step t2 k2 →
  p1 = p2 ∧ PyStr.lower t1 = PyStr.lower t2 ∧ k1 = k2.
Proof.
  unfold Dom.plain_tag.
  intros [Hs1 Hb1]%andb_prop [Hs2 Hb2]%andb_prop.
  apply negb_true_iff in Hs1, Hb1, Hs2, Hb2.
  unfold Dom.xpath_step.
  change ("/" +:+ ?s) with (String "/" s).
  change ("[" +:+ ?s) with (String "[" s).
  intros [-> Hstep]%split_at_last.
  - apply split_at_first in Hstep as [Ht Hk]; [|done..].
    split_and!; [done|done|].
    apply str_of_nat_inj.
    by apply (split_at_last "]" _ _ EmptyString EmptyString).
  - rewrite contains_char_app, Hs1, contains_char_cons, contains_char_app.
    by rewrite str_of_nat_no_slash.
  - rewrite contains_char_app, Hs2, contains_char_cons, contains_char_app.
    by rewrite str_of_nat_no_slash.
Qed.

Lemma xpath_step_length (t : string) (k : nat) p :
  (String.length p < String.length (p +:+ Dom.xpath_step t k))%nat.
Proof.
  rewrite length_append. unfold Dom.xpath_step.
  change ("/" +:+ ?s) with (String "/" s). cbn [String.length]. lia.
Qed.

End Delimiters.

Section RegularDocuments.

Variable doc : Dom.document.
Hypothesis regular : Dom.regular_document doc = true.
Implicit Types (el parent base rel above : list nat)
  (siblings : list Dom.dom_node).

Lemma forallb_lookup {A : Type} (f : A → bool) (l : list A) i x :
  forallb f l = true → l !! i = Some x → f x = true.
Proof.
  revert i. induction l as [|y l IH]; intros i; [done|].
  cbn [forallb]. intros [Hy Hl]%andb_prop.
  destruct i as [|i]; [by intros [= <-]|]. by apply IH.
Qed.

(** Regularity holds at every level of the tree. *)
Lemma regular_children position siblings :
  Dom.children_of doc position = Some siblings →
  Dom.siblings_same_case siblings = true ∧
  forallb Dom.regular_node siblings = true.
Proof.
  revert siblings. induction position as [|i parent IH]; intros siblings.
  - intros [= <-]. by apply andb_prop.
  - cbn [Dom.children_of].
    destruct (Dom.children_of doc parent) as [above|]; [|done].
    destruct (above !! i) as [[t id cs|]|] eqn:Hi; [|done..].
    intros [= <-]. destruct (IH above eq_refl) as [_ Hreg].
    pose proof (forallb_lookup _ _ _ _ Hreg Hi) as Hn.
    cbn [Dom.regular_node] in Hn.
    by apply andb_prop in Hn as [[_ ?]%andb_prop ?].
Qed.

Lemma regular_tag position tagName id children :
  Dom.node_at doc position = Some (Dom.DomElement tagName id children) →
  Dom.plain_tag tagName = true.
Proof.
  destruct position as [|i parent]; [done|].
  intros (siblings & Hs & Hi)%node_at_cons.
  destruct (regular_children _ _ Hs) as [_ Hreg].
  pose proof (forallb_lookup _ _ _ _ Hreg Hi) as Hn.
  cbn [Dom.regular_node] in Hn.
  by apply andb_prop in Hn as [[? _]%andb_prop _].
Qed.

Lemma regular_siblings parent siblings i j t1 id1 cs1 t2 id2 cs2 :
  Dom.children_of doc parent = Some siblings →
  siblings !! i = Some (Dom.DomElement t1 id1 cs1) →
  siblings !! j = Some (Dom.DomElement t2 id2 cs2) →
  PyStr.lower t1 = PyStr.lower t2 → t1 = t2.
Proof.
  intros Hs Hi Hj Hlow. destruct (regular_children _ _ Hs) as [Hcase _].
  unfold Dom.siblings_same_case in Hcase.
  pose proof (forallb_lookup _ _ _ _ Hcase Hi) as H1. cbn beta in H1.
  pose proof (forallb_lookup _ _ _ _ H1 Hj) as H2.
  cbn [Dom.same_case] in H2. rewrite Hlow, String.eqb_refl in H2.
  by apply String.eqb_eq.
Qed.

Lemma children_have_path position siblings :
  Dom.children_of doc position = Some siblings →
  ∃ path, Dom.getPathTo doc position = Some path.
Proof.
  intros Hs. destruct (getPathTo_defined doc position) as (path & Hp & _).
  - destruct position as [|i parent]; [by left|right].
    apply children_of_cons in Hs as (t & id & ->). by eexists.
  - by exists path.
Qed.

(** The path of an element of a chain is the path of its parent and one
    step. *)
Lemma getPathTo_step i above base :
  Dom.indexed_chain doc (i :: above) base = true →
  ∃ tagName children siblings index path,
    Dom.children_of doc (above ++ base) = Some siblings ∧
    siblings !! i = Some (Dom.DomElement tagName EmptyString children) ∧
    Dom.sibling_loop siblings i tagName 1 = Some index ∧
    Dom.getPathTo doc (above ++ base) = Some path ∧
    Dom.getPathTo doc (i :: above ++ base) =
      Some (path +:+ Dom.xpath_step tagName index) ∧
    Dom.indexed_chain doc above base = true.
Proof.
  cbn [Dom.indexed_chain app Dom.getPathTo].
  destruct (Dom.node_at doc (i :: above ++ base)) as [[t id cs|]|] eqn:Hn;
    [|done..].
  intros [[Hid Hbody]%andb_prop Hchain]%andb_prop.
  apply String.eqb_eq in Hid as ->. apply negb_true_iff in Hbody.
  rewrite Hbody. cbn [negb String.eqb].
  pose proof Hn as (siblings & Hs & Hi)%node_at_cons. rewrite Hs.
  destruct (sibling_loop_finds siblings i _ t 1 Hi) as [k Hk]. rewrite Hk.
  destruct (children_have_path _ _ Hs) as [path Hp]. rewrite Hp.
  by exists t, cs, siblings, k, path.
Qed.

Lemma chain_path_longer rel base b s :
  rel ≠ [] →
  Dom.indexed_chain doc rel base = true →
  Dom.getPathTo doc base = Some b →
  Dom.getPathTo doc (rel ++ base) = Some s →
  (String.length b < String.length s)%nat.
Proof.
  revert s. induction rel as [|i above IH]; intros s; [done|].
  intros _ Hchain Hb. cbn [app].
  destruct (getPathTo_step _ _ _ Hchain)
    as (t & cs & siblings & k & path & _ & _ & _ & Hp & -> & Habove).
  intros [= <-]. pose proof (xpath_step_length t k path) as Hlen.
  destruct above as [|j above'].
  - cbn [app] in Hp. rewrite Hb in Hp. injection Hp as ->. done.
  - specialize (IH path ltac:(done) Habove Hb Hp). lia.
Qed.

Lemma chain_path_injective rel1 rel2 base :
  Dom.indexed_chain doc rel1 base = true →
  Dom.indexed_chain doc rel2 base = true →
  Dom.getPathTo doc (rel1 ++ base) = Dom.getPathTo doc (rel2 ++ base) →
  rel1 = rel2.
Proof.
  revert rel2. induction rel1 as [|i1 above1 IH]; intros [|i2 above2]; [done|..].
  - intros _ Hchain Heq.
    destruct (getPathTo_step _ _ _ Hchain)
      as (t & cs & siblings & k & path & _ & _ & _ & _ & Hs & _).
    cbn [app] in Heq. rewrite Hs in Heq.
    pose proof (chain_path_longer (i2 :: above2) base _ _
                  ltac:(done) Hchain Heq Hs). lia.
  - intros Hchain _ Heq.
    destruct (getPathTo_step _ _ _ Hchain)
      as (t & cs & siblings & k & path & _ & _ & _ & _ & Hs & _).
    cbn [app] in Heq. rewrite Hs in Heq. symmetry in Heq.
    pose proof (chain_path_longer (i1 :: above1) base _ _
                  ltac:(done) Hchain Heq Hs). lia.
  - intros Hchain1 Hchain2 Heq.
    destruct (getPathTo_step _ _ _ Hchain1)
      as (t1 & cs1 & sib1 & k1 & p1 & Hsib1 & Hi1 & Hk1 & Hp1 & Hs1 & Ha1).
    destruct (getPathTo_step _ _ _ Hchain2)
      as (t2 & cs2 & sib2 & k2 & p2 & Hsib2 & Hi2 & Hk2 & Hp2 & Hs2 & Ha2).
    cbn [app] in Heq. rewrite Hs1, Hs2 in Heq. injection Heq as Heq.
    apply xpath_step_eq in Heq as (-> & Hlow & ->).
    + assert (above1 = above2) as ->
        by (apply IH; [done|done|by rewrite Hp1, Hp2]).
      rewrite Hsib1 in Hsib2. injection Hsib2 as <-.
      assert (t1 = t2) as <- by (by eapply regular_siblings).
      f_equal.
      assert (Dom.same_tag t1 (Dom.DomElement t1 EmptyString cs1) = true)
        as Hsame1 by apply String.eqb_refl.
      assert (Dom.same_tag t1 (Dom.DomElement t1 EmptyString cs2) = true)
        as Hsame2 by apply String.eqb_refl.
      destruct (lt_eq_lt_dec i1 i2) as [[Hlt| ->]|Hlt]; [|done|].
      * pose proof (sibling_loop_lt _ _ _ _ _ _ _ _ Hlt Hi1 Hsame1 Hk1 Hk2).
        lia.
      * pose proof (sibling_loop_lt _ _ _ _ _ _ _ _ Hlt Hi2 Hsame2 Hk2 Hk1).
        lia.
    + apply (regular_tag (i1 :: above1 ++ base) _ EmptyString cs1).
      apply node_at_cons. by exists sib1.
    + apply (regular_tag (i2 :: above2 ++ base) _ EmptyString cs2).
      apply node_at_cons. by exists sib2.
Qed.

End RegularDocuments.



(** Without the condition on the case of sibling names the script does
    not separate elements: an HTML [<a>] next to an SVG [<a>] (tag names
    "A" and "a") both get the step [a[1]]. *)
Example getPathTo_merges_mixed_case_siblings :
  let doc :=
    {| Dom.doc_childNodes :=
         [ Dom.DomElement "HTML" EmptyString
             [ Dom.DomElement "BODY" EmptyString
                 [ Dom.DomElement "A" EmptyString [];
                   Dom.DomElement "a" EmptyString [] ] ] ];
       Dom.doc_body := Some [0; 0]%nat |} in
  Dom.getPathTo doc [0; 0; 0]%nat = Some "/html/body/a[1]" ∧
  Dom.getPathTo doc [1; 0; 0]%nat = Some "/html/body/a[1]".
Proof. by split. Qed.

(** ** The two scripts count the same position *)

Section Counting.

Implicit Types (siblings l : list Dom.dom_node) (t selector : string)
  (i n : nat).

Lemma sibling_loop_counts siblings i t n :
  (i < length siblings)%nat →
  Dom.sibling_loop siblings i t n =
  Some (n + length (filter (λ s, Dom.same_tag t s = true)
                      (take i siblings)))%nat.
Proof.
  revert i n. induction siblings as [|s rest IH]; intros i n; cbn [length];
    [lia|].
  destruct i as [|i]; cbn [Dom.sibling_loop take]; intros Hi.
  - f_equal. cbn. lia.
  - rewrite IH by lia. rewrite filter_cons.
    destruct (Dom.same_tag t s);
      [rewrite decide_True by done|rewrite decide_False by done];
      cbn [length]; f_equal; lia.
Qed.

Lemma nth_loop_counts l selector n :
  Dom.nth_loop l selector n =
  (n + length (filter (λ s, Dom.same_name selector s = true) l))%nat.
Proof.
  revert n. induction l as [|s rest IH]; intros n;
    cbn [Dom.nth_loop]; [cbn; lia|].
  rewrite filter_cons. destruct s as [nodeName id cs|]; rewrite IH.
  - cbn [Dom.same_name].
    destruct (String.eqb (PyStr.lower nodeName) selector);
      [rewrite decide_True by done|rewrite decide_False by done];
      cbn [length]; lia.
  - rewrite decide_False by done. lia.
Qed.

Lemma forallb_take {A : Type} (f : A → bool) (l : list A) i :
  forallb f l = true → forallb f (take i l) = true.
Proof.
  revert i. induction l as [|x l IH]; intros [|i]; try done.
  cbn [forallb take]. intros [-> Hl]%andb_prop. by rewrite IH.
Qed.

(** Among siblings that agree in case with the element, the test of the
    CSS loop and the test of the XPath loop pick the same siblings. *)
Lemma same_name_same_tag l t id cs :
  forallb (Dom.same_case (Dom.DomElement t id cs)) l = true →
  length (filter (λ s, Dom.same_name (PyStr.lower t) s = true)
            (filter (λ s, Dom.is_element s = true) l)) =
  length (filter (λ s, Dom.same_tag t s = true) l).
Proof.
  induction l as [|s rest IH]; [done|].
  cbn [forallb]. intros [Hs Hrest]%andb_prop. specialize (IH Hrest).
  rewrite !(filter_cons _ s). destruct s as [t' id' cs'|].
  - cbn [Dom.is_element Dom.same_tag Dom.same_case] in *.
    rewrite decide_True by done. rewrite filter_cons.
    cbn [Dom.same_name].
    destruct (String.eqb t' t) eqn:Ht.
    + apply String.eqb_eq in Ht as ->. rewrite String.eqb_refl.
      rewrite !decide_True by done. cbn [length]. by rewrite IH.
    + destruct (String.eqb (PyStr.lower t') (PyStr.lower t)) eqn:Hlow.
      * apply String.eqb_eq in Hlow. rewrite Hlow, String.eqb_refl in Hs.
        cbn [implb] in Hs. apply String.eqb_eq in Hs as ->.
        by rewrite String.eqb_refl in Ht.
      * rewrite !decide_False by done. by rewrite IH.
  - cbn [Dom.is_element Dom.same_tag]. rewrite !decide_False by done.
    by rewrite IH.
Qed.

End Counting.



(** ** File names of different rows *)

Section FileNames.

Lemma digits_no_underscore (u : Decimal.uint) :
  PyStr.contains "_" (NilEmpty.string_of_uint u) = false.
Proof.
  induction u as [|u IH|u IH|u IH|u IH|u IH|u IH|u IH|u IH|u IH|u IH];
    cbn [NilEmpty.string_of_uint]; [done|..];
    by rewrite contains_char_cons, IH.
Qed.

Lemma str_of_int_no_underscore (n : Z) :
  PyStr.contains "_" (PyText.str_of_int n) = false.
Proof.
  unfold PyText.str_of_int, NilZero.string_of_int, NilZero.string_of_uint.
  destruct (Z.to_int n) as [u|u]; [|rewrite contains_char_cons];
    destruct u; try done; cbn [orb Ascii.eqb]; apply digits_no_underscore.
Qed.

Lemma to_int_not_nil (n : Z) :
  Z.to_int n ≠ Decimal.Pos Decimal.Nil ∧ Z.to_int n ≠ Decimal.Neg Decimal.Nil.
Proof.
  destruct n as [|p|p]; cbn [Z.to_int]; [done|split..]; try done;
    intros [= H]; by apply (DecimalPos.Unsigned.to_uint_nonnil p).
Qed.

Lemma str_of_int_inj (n m : Z) :
  PyText.str_of_int n = PyText.str_of_int m → n = m.
Proof.
  unfold PyText.str_of_int. intros H.
  apply DecimalZ.to_int_inj.
  destruct (to_int_not_nil n) as [Hn1 Hn2].
  destruct (to_int_not_nil m) as [Hm1 Hm2].
  pose proof (NilZero.isi _ Hn1 Hn2) as Hn.
  pose proof (NilZero.isi _ Hm1 Hm2) as Hm.
  rewrite H, Hm in Hn. by injection Hn.
Qed.

End FileNames.

(** X20: the file names of two different rows differ, whatever the
    domains, the timestamps and the extensions: the row index can be read
    back from the name, so the reports of different rows never overwrite
    each other. *)
Theorem format_filename_separates_rows (index1 index2 : Z)
  (domain1 domain2 timestamp1 timestamp2 extension1 extension2 : string) :
  index1 ≠ index2 →
  format_filename index1 domain1 timestamp1 extension1 ≠
  format_filename index2 domain2 timestamp2 extension2.
Proof.
  intros Hne Heq. apply Hne, str_of_int_inj.
  unfold format_filename in Heq.
  change ("_" +:+ ?s) with (String "_" s) in Heq.
  by apply split_at_first in Heq as [? _];
    [|apply str_of_int_no_underscore..].
Qed.

Lemma format_filename_separates_rows_witness :
  format_filename 1 "example_com" "20240101_120000" "json" ≠
  format_filename 12 "example_com" "20240101_120000" "json".
Proof. by apply format_filename_separates_rows. Defined.

(** * web_crawler.py: clicking a found element *)

Section ClickingProperties.

Context {W elem : Type} (self : ClickDriver W elem).
Implicit Types (s : session W elem) (element_info : info).

Lemma click_by_cases element_info by_ key s :
  attempt_result element_info by_ key s
    (click_by self element_info by_ key s).
Proof.
  unfold click_by.
  destruct (usable_locator _) eqn:Hu; [|by constructor].
  unfold try_except, bind, logged, print, time_sleep, ret. cbn.
  destruct (driver_find_element _ _ _ _) as [[element|e] w]; cbn.
  - destruct (click _ _ _) as [[[]|e] w']; cbn; rewrite <-!app_assoc; cbn.
    + by apply attempt_clicked.
    + by apply attempt_click_failed.
  - rewrite <-app_assoc. by apply attempt_not_found.
Qed.

(** A call is stopped at once, or makes the XPath attempt; after an
    attempt that did not click it is stopped, or makes the CSS attempt;
    after two attempts that did not click it prints that it cannot
    click. *)
Lemma click_element_cases url element_info index s result :
  _click_element self url element_info index s = result →
  (stop_requested self s = true ∧ result = (Return tt, s)) ∨
  (stop_requested self s = false ∧
   ∃ r1 s1,
     attempt_result element_info XPATH "element_xpath" s (Return r1, s1) ∧
     ((r1 = true ∧ result = (Return tt, s1)) ∨
      (r1 = false ∧ stop_requested self s1 = true ∧
       result = (Return tt, s1)) ∨
      (r1 = false ∧ stop_requested self s1 = false ∧
       ∃ r2 s2,
         attempt_result element_info CSS_SELECTOR "element_css" s1
           (Return r2, s2) ∧
         ((r2 = true ∧ result = (Return tt, s2)) ∨
          (r2 = false ∧
           result = (Return tt,
                     Session (browser s2)
                       (events s2 ++ [Printed (CannotClick url)]))))))).
Proof.
  intros Hres. unfold _click_element in Hres.
  unfold bind at 1 in Hres. unfold should_stop at 1 in Hres.
  destruct (stop_requested self s) eqn:Hstop; [left; by subst|right].
  split; [done|]. unfold try_except, bind in Hres.
  pose proof (click_by_cases element_info XPATH "element_xpath" s) as H1.
  destruct (click_by self element_info XPATH "element_xpath" s)
    as [[r1|e1] s1]; [|inversion H1].
  exists r1, s1. split; [done|].
  destruct r1; [left; by subst|right].
  unfold should_stop at 1 in Hres.
  destruct (stop_requested self s1) eqn:Hstop1; [left; by subst|right].
  split_and!; [done..|].
  pose proof (click_by_cases element_info CSS_SELECTOR "element_css" s1)
    as H2.
  destruct (click_by self element_info CSS_SELECTOR "element_css" s1)
    as [[r2|e2] s2]; [|inversion H2].
  exists r2, s2. split; [done|].
  destruct r2; [left|right]; by subst.
Qed.

(** An attempt only adds events; it adds one click that went through
    when it returns [true], and none otherwise. *)
Lemma attempt_events element_info by_ key s r s1 :
  attempt_result element_info by_ key s (Return r, s1) →
  ∃ added,
    events s1 = events s ++ added ∧
    length (filter (λ ev, is_click ev = true) added) =
      (if r then 1 else 0)%nat.
Proof.
  inversion 1; subst.
  - exists []. by rewrite app_nil_r.
  - by eexists.
  - by eexists.
  - by eexists.
Qed.

(** An attempt without a usable locator does nothing. *)
Lemma attempt_without_locator element_info by_ key s r s1 :
  usable_locator (dict_get element_info key VNone) = false →
  attempt_result element_info by_ key s (Return r, s1) →
  r = false ∧ s1 = s.
Proof. intros Hu. inversion 1; subst; by rewrite ?Hu in *. Qed.

(** An attempt with a usable locator starts by looking the element up. *)
Lemma attempt_with_locator element_info by_ key s r s1 :
  usable_locator (dict_get element_info key VNone) = true →
  attempt_result element_info by_ key s (Return r, s1) →
  ∃ result rest,
    events s1 =
    events s ++
      Found by_ (or_empty (dict_get element_info key VNone)) result :: rest.
Proof. intros Hu. inversion 1; subst; [by rewrite Hu in *|by eexists _, _..]. Qed.

End ClickingProperties.

(** X21: [_click_element] never raises: whatever the driver does (no
    such element, a stale handle, a click that is intercepted), the call
    returns. *)
Theorem click_element_never_raises {W elem : Type}
  (self : ClickDriver W elem) (url : string) (element_info : info)
  (index : Z) :
  never_raises (_click_element self url element_info index).
Proof.
  intros s.
  destruct (click_element_cases self url element_info index s _ eq_refl)
    as [[_ ->]|[_ (r1 & s1 & _ & [[_ ->]|[(_ & _ & ->)|
          (_ & _ & r2 & s2 & _ & [[_ ->]|[_ ->]])]])]];
    by eexists _, _.
Qed.

(** X22: one call clicks at most once: it only adds events to the
    session, and at most one of them is a click that went through.  In
    particular the CSS selector is not clicked after the XPath was. *)
Theorem click_element_clicks_at_most_once {W elem : Type}
  (self : ClickDriver W elem) (url : string) (element_info : info)
  (index : Z) (s : session W elem) :
  ∃ added,
    events (snd (_click_element self url element_info index s)) =
      events s ++ added ∧
    (length (filter (λ ev, is_click ev = true) added) ≤ 1)%nat.
Proof.
  destruct (click_element_cases self url element_info index s _ eq_refl)
    as [[_ ->]|[_ (r1 & s1 & H1 & Hrest)]].
  { exists []. by rewrite app_nil_r; cbn; auto. }
  apply attempt_events in H1 as (added1 & Hev1 & Hcount1).
  destruct Hrest as [[-> ->]|[(-> & _ & ->)|
    (-> & _ & r2 & s2 & H2 & Hrest)]].
  - exists added1. split; [done|]. rewrite Hcount1. lia.
  - exists added1. split; [done|]. rewrite Hcount1. lia.
  - apply attempt_events in H2 as (added2 & Hev2 & Hcount2).
    destruct Hrest as [[-> ->]|[-> ->]]; cbn [snd events].
    + exists (added1 ++ added2). rewrite Hev2, Hev1, <-app_assoc.
      split; [done|]. rewrite filter_app, length_app, Hcount1, Hcount2. lia.
    + exists (added1 ++ added2 ++ [Printed (CannotClick url)]).
      rewrite Hev2, Hev1, <-!app_assoc. split; [done|].
      rewrite !filter_app, !length_app, Hcount1, Hcount2.
      rewrite filter_cons, decide_False by done.
      rewrite filter_nil. cbn [length]. lia.
Qed.

(** X23: for a record without a usable locator (each of [element_xpath]
    and [element_css] missing, empty or "Unknown") the call makes no
    driver call: the browser session is left as it is and only lines are
    printed. *)
Theorem click_element_without_locators {W elem : Type}
  (self : ClickDriver W elem) (url : string) (element_info : info)
  (index : Z) (s : session W elem) :
  usable_locator (dict_get element_info "element_xpath" VNone) = false →
  usable_locator (dict_get element_info "element_css" VNone) = false →
  browser (snd (_click_element self url element_info index s)) = browser s ∧
  ∃ added,
    events (snd (_click_element self url element_info index s)) =
      events s ++ added ∧
    Forall (λ ev, is_driver_call ev = false) added.
Proof.
  intros Hx Hc.
  destruct (click_element_cases self url element_info index s _ eq_refl)
    as [[_ ->]|[_ (r1 & s1 & H1 & Hrest)]].
  { split; [done|]. exists []. by rewrite app_nil_r. }
  apply (attempt_without_locator _ _ _ _ _ _ Hx) in H1 as [-> ->].
  destruct Hrest as [[[=] _]|[(_ & _ & ->)|(_ & _ & r2 & s2 & H2 & Hrest)]].
  { split; [done|]. exists []. by rewrite app_nil_r. }
  apply (attempt_without_locator _ _ _ _ _ _ Hc) in H2 as [-> ->].
  destruct Hrest as [[[=] _]|[_ ->]].
  split; [done|]. exists [Printed (CannotClick url)]. split; [done|].
  by constructor.
Qed.

Lemma click_element_without_locators_witness :
  browser (snd (_click_element obliging_driver "https://example.com"
                  (<["element_xpath" := VStr "Unknown"]> ∅) 0
                  (Session 0%nat []))) = 0%nat ∧
  ∃ added,
    events (snd (_click_element obliging_driver "https://example.com"
                   (<["element_xpath" := VStr "Unknown"]> ∅) 0
                   (Session 0%nat []))) = [] ++ added ∧
    Forall (λ ev, is_driver_call ev = false) added.
Proof.
  apply (click_element_without_locators obliging_driver
           "https://example.com" (<["element_xpath" := VStr "Unknown"]> ∅) 0
           (Session 0%nat [])); by_evaluation.
Defined.

(** X24: every record that deduplication keeps has a non-empty
    [element_xpath]; unless that is "Unknown" or the crawler was stopped,
    the first thing [_click_element] does with such a record is to look
    up that XPath. *)
Theorem click_element_tries_xpath_first {W elem : Type}
  (self : ClickDriver W elem) (url : string) (elements : list info)
  (element_info : info) (index : Z) (s : session W elem) :
  element_info ∈ _deduplicate_elements elements →
  locator element_info ≠ VStr "Unknown" →
  stop_requested self s = false →
  ∃ result rest,
    events (snd (_click_element self url element_info index s)) =
    events s ++ Found XPATH (or_empty (locator element_info)) result :: rest.
Proof.
  intros Hin Hknown Hgo.
  assert (truthy (locator element_info) = true) as Ht.
  { pose proof (dedup_loop_truthy elements ∅) as Hall.
    rewrite Forall_forall in Hall. by apply Hall. }
  assert (dict_get element_info "element_xpath" VNone = locator element_info)
    as Hget.
  { unfold locator, dict_get in *.
    by destruct (element_info !! "element_xpath"). }
  assert (usable_locator (dict_get element_info "element_xpath" VNone) = true)
    as Hu.
  { unfold usable_locator. rewrite Hget, Ht.
    by rewrite bool_decide_eq_false_2. }
  destruct (click_element_cases self url element_info index s _ eq_refl)
    as [[Hstop _]|[_ (r1 & s1 & H1 & Hrest)]]; [congruence|].
  apply (attempt_with_locator _ _ _ _ _ _ Hu) in H1 as (result & rest & Hev).
  rewrite Hget in Hev.
  destruct Hrest as [[_ ->]|[(_ & _ & ->)|(_ & _ & r2 & s2 & H2 & Hrest)]];
    [by exists result, rest..|].
  apply attempt_events in H2 as (added2 & Hev2 & _).
  destruct Hrest as [[_ ->]|[_ ->]]; cbn [snd events]; rewrite Hev2, Hev.
  - exists result, (rest ++ added2). by rewrite <-app_assoc.
  - exists result, (rest ++ added2 ++ [Printed (CannotClick url)]).
    by rewrite <-!app_assoc.
Qed.

Lemma click_element_tries_xpath_first_witness :
  ∃ result rest,
    events (snd (_click_element obliging_driver "https://example.com"
                   (<["element_xpath" := VStr "/html/body/button[1]"]> ∅) 0
                   (Session 0%nat []))) =
    [] ++ Found XPATH
            (or_empty
               (locator (<["element_xpath" := VStr "/html/body/button[1]"]> ∅)))
            result :: rest.
Proof.
  apply (click_element_tries_xpath_first obliging_driver
           "https://example.com"
           [<["element_xpath" := VStr "/html/body/button[1]"]> ∅]
           (<["element_xpath" := VStr "/html/body/button[1]"]> ∅) 0
           (Session 0%nat [])).
  - apply (bool_decide_unpack _). vm_compute. exact I.
  - by_evaluation.
  - reflexivity.
Defined.

(** * gui.py: the custom keywords *)

Section Stripping.

Implicit Types (c : ascii) (s t w pre suf : string) (spaces : list string).

Lemma rev_onto_app s acc : PyStr.rev_onto s acc = PyStr.reverse s +:+ acc.
Proof.
  unfold PyStr.reverse. revert acc. induction s as [|c s IH]; intros acc;
    [done|].
  cbn [PyStr.rev_onto]. rewrite IH, (IH (String c EmptyString)).
  by rewrite append_assoc.
Qed.

Lemma reverse_cons c s :
  PyStr.reverse (String c s) = PyStr.reverse s +:+ String c EmptyString.
Proof. unfold PyStr.reverse at 1. cbn [PyStr.rev_onto]. apply rev_onto_app. Qed.

Lemma reverse_app s t :
  PyStr.reverse (s +:+ t) = PyStr.reverse t +:+ PyStr.reverse s.
Proof.
  induction s as [|c s IH].
  - by rewrite append_nil_r.
  - change (String c s +:+ t) with (String c (s +:+ t)).
    by rewrite !reverse_cons, IH, append_assoc.
Qed.

Lemma reverse_involutive s : PyStr.reverse (PyStr.reverse s) = s.
Proof.
  induction s as [|c s IH]; [done|].
  by rewrite reverse_cons, reverse_app, IH.
Qed.

Lemma without_prefix_app w s s' :
  PyStr.without_prefix w s = Some s' → s = w +:+ s'.
Proof.
  revert s. induction w as [|a w IH]; intros [|b s]; cbn [PyStr.without_prefix];
    try done; try by intros [= <-].
  destruct (Ascii.eqb a b) eqn:Hab; [|done].
  apply Ascii.eqb_eq in Hab as ->. intros ->%IH. done.
Qed.

Lemma without_prefix_longer w s s' suf :
  PyStr.without_prefix w s = Some s' →
  PyStr.without_prefix w (s +:+ suf) = Some (s' +:+ suf).
Proof.
  revert s. induction w as [|a w IH]; intros [|b s]; cbn [PyStr.without_prefix];
    try done; try by intros [= <-].
  change (String b s +:+ suf) with (String b (s +:+ suf)).
  cbn [PyStr.without_prefix]. destruct (Ascii.eqb a b); [apply IH|done].
Qed.

(** What is dropped is one of the characters. *)
Lemma drop_space_app spaces s s' :
  PyStr.drop_space spaces s = Some s' →
  ∃ w, w ∈ spaces ∧ s = w +:+ s'.
Proof.
  induction spaces as [|w rest IH]; cbn [PyStr.drop_space]; [done|].
  destruct (PyStr.without_prefix w s) as [r|] eqn:Hw.
  - intros [= <-]. exists w. split; [by left|by apply without_prefix_app].
  - intros (w' & Hin & Hs)%IH. exists w'. split; [by right|done].
Qed.

(** A string that starts with one of the characters still does so when
    it is extended. *)
Lemma drop_space_longer spaces s suf :
  is_Some (PyStr.drop_space spaces s) →
  is_Some (PyStr.drop_space spaces (s +:+ suf)).
Proof.
  induction spaces as [|w rest IH]; cbn [PyStr.drop_space];
    [by intros [? ?]|].
  destruct (PyStr.without_prefix w s) as [r|] eqn:Hw.
  - by rewrite (without_prefix_longer _ _ _ suf Hw).
  - intros Hrest%IH. by destruct (PyStr.without_prefix w (s +:+ suf)).
Qed.

Section Leading.

Variable spaces : list string.
Hypothesis not_empty : Forall (λ w, w ≠ EmptyString) spaces.

Lemma drop_space_shorter s s' :
  PyStr.drop_space spaces s = Some s' →
  (String.length s' < String.length s)%nat.
Proof.
  intros (w & Hin & ->)%drop_space_app. rewrite length_append.
  rewrite Forall_forall in not_empty. specialize (not_empty w Hin).
  destruct w; [done|]. cbn [String.length]. lia.
Qed.

(** The fuel is enough: what is left of the string is a suffix of it
    that starts with none of the characters. *)
Lemma lstrip_fuel_stripped fuel s :
  (String.length s ≤ fuel)%nat →
  ∃ pre, s = pre +:+ PyStr.lstrip_fuel spaces fuel s ∧
         PyStr.drop_space spaces (PyStr.lstrip_fuel spaces fuel s) = None.
Proof.
  revert s. induction fuel as [|fuel IH]; intros s Hlen;
    cbn [PyStr.lstrip_fuel].
  - exists EmptyString. split; [done|]. destruct s; [|cbn in Hlen; lia].
    destruct (PyStr.drop_space spaces EmptyString) as [r|] eqn:Hd; [|done].
    apply drop_space_shorter in Hd. cbn in Hd. lia.
  - destruct (PyStr.drop_space spaces s) as [s'|] eqn:Hd.
    + pose proof (drop_space_shorter _ _ Hd) as Hshort.
      apply drop_space_app in Hd as (w & _ & ->).
      destruct (IH s' ltac:(lia)) as (pre & Hpre & Hnone).
      exists (w +:+ pre). split; [|done].
      by rewrite append_assoc, <-Hpre.
    + exists EmptyString. by split.
Qed.

Lemma lstrip_of_stripped s :
  ∃ pre, s = pre +:+ PyStr.lstrip_of spaces s ∧
         PyStr.drop_space spaces (PyStr.lstrip_of spaces s) = None.
Proof. by apply lstrip_fuel_stripped. Qed.

(** A string that starts with none of the characters is left as it
    is. *)
Lemma lstrip_of_fixed s :
  PyStr.drop_space spaces s = None → PyStr.lstrip_of spaces s = s.
Proof.
  intros Hd. unfold PyStr.lstrip_of.
  destruct (String.length s); cbn [PyStr.lstrip_fuel]; [done|].
  by rewrite Hd.
Qed.

Lemma lstrip_of_idempotent s :
  PyStr.lstrip_of spaces (PyStr.lstrip_of spaces s) =
  PyStr.lstrip_of spaces s.
Proof.
  destruct (lstrip_of_stripped s) as (_ & _ & Hd). by apply lstrip_of_fixed.
Qed.

End Leading.

Lemma white_space_not_empty :
  Forall (λ w, w ≠ EmptyString) PyStr.white_space.
Proof. unfold PyStr.white_space. cbn. by repeat constructor. Qed.

Lemma reversed_white_space_not_empty :
  Forall (λ w, w ≠ EmptyString) (map PyStr.reverse PyStr.white_space).
Proof. unfold PyStr.white_space. cbn. by repeat constructor. Qed.

(** [lstrip] leaves a suffix and [rstrip] a prefix of the string. *)
Lemma lstrip_suffix s : ∃ pre, s = pre +:+ PyStr.lstrip s.
Proof.
  destruct (lstrip_of_stripped _ white_space_not_empty s) as (pre & Hs & _).
  by exists pre.
Qed.

Lemma rstrip_prefix s : ∃ suf, s = PyStr.rstrip s +:+ suf.
Proof.
  destruct (lstrip_of_stripped _ reversed_white_space_not_empty
              (PyStr.reverse s)) as (pre & Hs & _).
  exists (PyStr.reverse pre). unfold PyStr.rstrip.
  by rewrite <-reverse_app, <-Hs, reverse_involutive.
Qed.

Lemma rstrip_idempotent s : PyStr.rstrip (PyStr.rstrip s) = PyStr.rstrip s.
Proof.
  unfold PyStr.rstrip. rewrite reverse_involutive.
  by rewrite (lstrip_of_idempotent _ reversed_white_space_not_empty).
Qed.

(** Stripping on the right brings no white space to the front. *)
Lemma rstrip_keeps_head s :
  PyStr.drop_space PyStr.white_space s = None →
  PyStr.drop_space PyStr.white_space (PyStr.rstrip s) = None.
Proof.
  intros Hs. destruct (rstrip_prefix s) as [suf Hsuf].
  destruct (PyStr.drop_space PyStr.white_space (PyStr.rstrip s)) as [r|]
    eqn:Hd; [|done].
  destruct (drop_space_longer PyStr.white_space (PyStr.rstrip s) suf)
    as [r' Hr']; [by eexists|].
  rewrite <-Hsuf, Hs in Hr'. done.
Qed.

Lemma strip_idempotent s : PyStr.strip (PyStr.strip s) = PyStr.strip s.
Proof.
  unfold PyStr.strip.
  destruct (lstrip_of_stripped _ white_space_not_empty s) as (_ & _ & Hd).
  fold (PyStr.lstrip s) in Hd. apply rstrip_keeps_head in Hd.
  unfold PyStr.lstrip at 1.
  rewrite (lstrip_of_fixed _ _ Hd). apply rstrip_idempotent.
Qed.

Lemma strip_keeps_out c s :
  PyStr.contains (String c EmptyString) s = false →
  PyStr.contains (String c EmptyString) (PyStr.strip s) = false.
Proof.
  intros Hs. unfold PyStr.strip.
  destruct (lstrip_suffix s) as [pre Hpre].
  destruct (rstrip_prefix (PyStr.lstrip s)) as [suf Hsuf].
  rewrite Hpre, Hsuf, !contains_char_app in Hs.
  apply orb_false_elim in Hs as [_ Hs].
  by apply orb_false_elim in Hs as [Hs _].
Qed.

(** No piece of a split on a character holds the character. *)
Lemma split_pieces c s piece :
  PyStr.contains (String c EmptyString) piece = false →
  Forall (λ p, PyStr.contains (String c EmptyString) p = false)
    (PyText.split_from (String c EmptyString) s 0 piece).
Proof.
  revert piece. induction s as [|d s IH]; intros piece Hp.
  - by constructor.
  - cbn [PyText.split_from String.prefix String.length Nat.sub].
    destruct (ascii_dec c d) as [<-|Hne].
    + replace (String.prefix EmptyString s) with true by (by destruct s).
      constructor; [done|]. by apply IH.
    + apply IH. rewrite contains_char_app, Hp, contains_char_cons.
      apply Ascii.eqb_neq in Hne. by rewrite Hne.
Qed.

End Stripping.

(** X25: every custom keyword that the GUI hands to the finder is a
    non-empty string without white space around it and without a line
    break, whatever the text of the keyword box. *)
Theorem custom_keywords_are_trimmed (box_text : string) :
  Forall (λ kw, PyStr.truthy kw = true ∧ PyStr.strip kw = kw ∧
                PyStr.contains newline kw = false)
    (get_custom_keywords box_text).
Proof.
  unfold get_custom_keywords.
  destruct (PyStr.truthy (PyStr.strip box_text)); [|constructor].
  apply Forall_fmap, Forall_forall. intros kw [Hkw Hin]%list_elem_of_filter.
  cbn beta. split_and!; [done|apply strip_idempotent|].
  apply strip_keeps_out.
  pose proof (split_pieces "010" (PyStr.strip box_text) EmptyString eq_refl)
    as Hall.
  rewrite Forall_forall in Hall. by apply Hall.
Qed.

Example custom_keywords_of_a_box :
  get_custom_keywords
    ("  thumbs up " +:+ newline +:+ "   " +:+ newline +:+ "clap" +:+ newline)
  = ["thumbs up"; "clap"] ∧
  get_custom_keywords
    (PyStr.bytes [227; 128; 128]%nat +:+ "like" +:+
     PyStr.bytes [227; 128; 128]%nat +:+ newline +:+
     PyStr.bytes [194; 160]%nat +:+ newline)
  = ["like"].
Proof. by split. Qed.

(** * web_crawler.py: scrolling the page *)

Section ScrollingProperties.

Context {W : Type} (self : ScrollDriver W).
Implicit Types (s : scroller W) (rounds : nat) (last_height : Z).

(** The loop only adds events, at most one scroll to the bottom for each
    round. *)
Lemma scroll_loop_events rounds last_height s :
  ∃ added,
    scroll_events (snd (scroll_loop self rounds last_height s)) =
      scroll_events s ++ added ∧
    (length (filter (λ ev, is_to_bottom ev = true) added) ≤ rounds)%nat.
Proof.
  revert last_height s. induction rounds as [|rounds IH];
    intros last_height s; cbn [scroll_loop].
  { exists []. rewrite app_nil_r. split; [done|]. cbn. lia. }
  unfold bind at 1. destruct (scroll_stop_requested self s).
  { exists []. rewrite app_nil_r. split; [done|]. cbn. lia. }
  unfold bind, scroll_call, scroll_pause, ret. cbn [page_state scroll_events].
  destruct (scroll_to_bottom self (page_state s)) as [[[]|e] w].
  - destruct (scroll_height self _) as [[new_height|e] w'].
    + destruct (new_height =? last_height)%Z.
      * eexists [_; _]. cbn [snd scroll_events].
        rewrite <-app_assoc. split; [done|].
        rewrite filter_cons, decide_True by done.
        rewrite filter_cons, decide_False by done. cbn. lia.
      * match goal with
        | |- context [scroll_loop self rounds new_height ?st] =>
            destruct (IH new_height st) as (added & Hev & Hcount)
        end.
        rewrite Hev. cbn [scroll_events]. rewrite <-!app_assoc.
        eexists (_ :: _ :: added). split; [done|].
        rewrite filter_cons, decide_True by done.
        rewrite filter_cons, decide_False by done. cbn [length]. lia.
    + eexists [_; _]. cbn [snd scroll_events].
      rewrite <-app_assoc. split; [done|].
      rewrite filter_cons, decide_True by done.
      rewrite filter_cons, decide_False by done. cbn. lia.
  - eexists [_]. cbn [snd scroll_events]. split; [done|].
    rewrite filter_cons, decide_True by done. cbn. lia.
Qed.

(** When nothing stops the crawler and no driver call raises, the loop
    ends without returning from the function. *)
Lemma scroll_loop_completes rounds last_height s :
  scroll_stop_event self = None →
  never_raises (scroll_height self) →
  never_raises (scroll_to_bottom self) →
  ∃ s', scroll_loop self rounds last_height s = (Return false, s').
Proof.
  intros Hgo Hheight Hbottom. revert last_height s.
  induction rounds as [|rounds IH]; intros last_height s; cbn [scroll_loop].
  { by eexists. }
  unfold bind at 1. unfold scroll_stop_requested. rewrite Hgo.
  unfold bind, scroll_call, scroll_pause, ret. cbn [page_state scroll_events].
  destruct (Hbottom (page_state s)) as ([] & w & ->).
  cbn [page_state scroll_events].
  destruct (Hheight (scroll_sleep self w)) as (new_height & w' & ->).
  destruct (new_height =? last_height)%Z; [by eexists|apply IH].
Qed.

End ScrollingProperties.

(** X26: [_scroll_page] never raises, and it scrolls to the bottom at
    most [scroll_count] times, whatever the driver does. *)
Theorem scroll_page_is_bounded {W : Type} (self : ScrollDriver W)
  (scroll_count : Z) (s : scroller W) :
  ∃ s' added,
    _scroll_page self scroll_count s = (Return tt, s') ∧
    scroll_events s' = scroll_events s ++ added ∧
    (length (filter (λ ev, is_to_bottom ev = true) added) ≤
     Z.to_nat scroll_count)%nat.
Proof.
  unfold _scroll_page, try_except.
  unfold bind at 1. unfold scroll_call at 1.
  destruct (scroll_height self (page_state s)) as [[last_height|e] w].
  2: { eexists _, [_; _]. cbn [scroll_events]. rewrite <-app_assoc.
       split_and!; [done..|].
       rewrite !filter_cons, !decide_False by done. cbn. lia. }
  unfold bind at 1.
  match goal with
  | |- context [scroll_loop self ?n last_height ?st] =>
      destruct (scroll_loop_events self n last_height st)
        as (added & Hev & Hcount);
      destruct (scroll_loop self n last_height st) as [[returned|e] s1]
  end; cbn [snd scroll_events] in Hev.
  - destruct returned.
    + eexists _, (_ :: added). rewrite Hev, <-app_assoc.
      split_and!; [done..|].
      by rewrite filter_cons, decide_False by done.
    + unfold bind, scroll_call, scroll_pause, ret.
      destruct (scroll_to_top self (page_state s1)) as [[[]|e] w1];
        cbn [page_state scroll_events]; rewrite Hev, <-!app_assoc.
      * eexists _, (_ :: added ++ [_]). split_and!; [done..|].
        rewrite filter_cons, decide_False by done.
        rewrite filter_app, length_app.
        rewrite filter_cons, decide_False by done.
        rewrite filter_nil. cbn [length]. lia.
      * eexists _, (_ :: added ++ [_; _]). split_and!; [done..|].
        rewrite filter_cons, decide_False by done.
        rewrite filter_app, length_app.
        rewrite !filter_cons, !decide_False by done.
        rewrite filter_nil. cbn [length]. lia.
  - eexists _, (_ :: added ++ [_]). cbn [page_state scroll_events].
    rewrite Hev, <-!app_assoc. split_and!; [done..|].
    rewrite filter_cons, decide_False by done.
    rewrite filter_app, length_app.
    rewrite filter_cons, decide_False by done.
    rewrite filter_nil. cbn [length]. lia.
Qed.

(** X27: when the crawler has no stop event and no driver call raises,
    [_scroll_page] ends by scrolling back to the top of the page, after
    however many rounds. *)
Theorem scroll_page_ends_at_the_top {W : Type} (self : ScrollDriver W)
  (scroll_count : Z) (s : scroller W) :
  scroll_stop_event self = None →
  never_raises (scroll_height self) →
  never_raises (scroll_to_bottom self) →
  never_raises (scroll_to_top self) →
  ∃ before,
    scroll_events (snd (_scroll_page self scroll_count s)) =
    before ++ [ToTop (Return tt)].
Proof.
  intros Hgo Hheight Hbottom Htop.
  unfold _scroll_page, try_except.
  unfold bind at 1. unfold scroll_call at 1.
  destruct (Hheight (page_state s)) as (last_height & w & ->).
  unfold bind at 1.
  destruct (scroll_loop_completes self (Z.to_nat scroll_count) last_height
              (Scroller w (scroll_events s ++ [HeightRead (Return last_height)]))
              Hgo Hheight Hbottom) as [s1 ->].
  unfold bind, scroll_call, scroll_pause, ret.
  destruct (Htop (page_state s1)) as ([] & w1 & ->).
  cbn [snd scroll_events]. by eexists.
Qed.

Lemma scroll_page_ends_at_the_top_witness :
  ∃ before,
    scroll_events (snd (_scroll_page growing_page 5 (Scroller 0%nat []))) =
    before ++ [ToTop (Return tt)].
Proof.
  apply (scroll_page_ends_at_the_top growing_page 5 (Scroller 0%nat []));
    [reflexivity|intros n; by eexists _, _..].
Defined.

Example scroll_page_on_growing_page :
  scroll_events (snd (_scroll_page growing_page 5 (Scroller 0%nat []))) =
  [ HeightRead (Return 1000%Z);
    ToBottom (Return tt); HeightRead (Return 1100%Z);
    ToBottom (Return tt); HeightRead (Return 1200%Z);
    ToBottom (Return tt); HeightRead (Return 1300%Z);
    ToBottom (Return tt); HeightRead (Return 1300%Z);
    ToTop (Return tt) ].
Proof. reflexivity. Qed.
